(** * arbitragelab.copula_approach: copula fitting and vine-copula partner selection

    A shallow embedding of
      - [copula_calculation.py]                    (module [CopulaCalculation]),
      - [vine_copula_partner_selection_utils.py]   (module [PartnerSelectionUtils]),
      - [vine_copula_partner_selection.py]         (module [PartnerSelection]),
    followed by the properties of the specification that concern them.

    Conventions.
      - A Python [int] is a [Z] or, for an index or a length, a [nat].
      - A [float] is idealised as an exact number: a rational ([Q]) where the code
        only adds, multiplies, divides and compares, a real ([R]) where it takes
        [np.log] or [np.sqrt].  Rounding is therefore outside the model.
      - A call that can raise returns a [result]; the exceptions are those of the
        Python run time and of numpy.
      - Functions of scipy, statsmodels, sklearn, pandas and of the copula catalogue
        ([copula_generate]) are not part of these files: they are arguments of the
        definitions that call them, or are written out from their documentation
        where that is a few lines ([ECDF], [itertools.combinations]). *)

From Stdlib Require Import String Ascii.
From Stdlib Require Import List Bool Arith ZArith QArith Lia.
From Stdlib Require Import Reals Lra.
From Stdlib Require Lqa.
From Stdlib Require Import Qreals.
From Stdlib Require Import Permutation Sorted.
Import ListNotations.

Close Scope Q_scope.
Set Implicit Arguments.

(* ================================================================== *)
(** * Python run time *)
(* ================================================================== *)

Module Py.

(** The exceptions the modelled code can raise. *)
Inductive exn : Type :=
| ZeroDivisionError
| OverflowError
| IndexError
| ValueError
| TypeError
| UnboundLocalError
| LinAlgError
| LibraryError (msg : string).

Inductive result (A : Type) : Type :=
| Ok (a : A)
| Raise (e : exn).
Arguments Ok {A} a.
Arguments Raise {A} e.

Definition bind {A B} (m : result A) (k : A -> result B) : result B :=
  match m with
  | Ok a => k a
  | Raise e => Raise e
  end.

(** ** ints and floats *)

(** The smallest magnitude that no longer rounds to a float,
    [2**1024 - 2**970]: halfway between the largest float and [2**1024]. *)
Definition float_overflow : Z := 2 ^ 1024 - 2 ^ 970.

(** [a / b] on two Python ints, the quotient as a float: [ZeroDivisionError]
    on a zero divisor, [OverflowError] ("integer division result too large
    for a float") on a quotient that does not round to a float. *)
Definition int_true_div (a b : Z) : result Q :=
  if (b =? 0)%Z then Raise ZeroDivisionError
  else if (float_overflow * Z.abs b <=? Z.abs a)%Z then Raise OverflowError
  else Ok (inject_Z a / inject_Z b)%Q.

(** A Python int as the operand of a float operation ([x * k]): it is
    converted to a float first, with [OverflowError] ("int too large to
    convert to float") when it does not round to one. *)
Definition int_as_float (k : Z) : result Q :=
  if (float_overflow <=? Z.abs k)%Z then Raise OverflowError
  else Ok (inject_Z k).

(** A list comprehension whose body can raise: left to right, first error wins. *)
Fixpoint mapM {A B} (f : A -> result B) (l : list A) : result (list B) :=
  match l with
  | [] => Ok []
  | a :: l' => bind (f a) (fun b => bind (mapM f l') (fun bs => Ok (b :: bs)))
  end.

(** [itertools.combinations(pool, r)]: the [r]-length subsequences of [pool],
    emitted in lexicographic order of the positions they are taken from. *)
Fixpoint combinations {A} (pool : list A) (r : nat) {struct pool} : list (list A) :=
  match r, pool with
  | 0, _ => [[]]
  | S _, [] => []
  | S r', x :: rest => map (cons x) (combinations rest r') ++ combinations rest r
  end.

(** [scipy.special.comb(n, k, exact=True)], by Pascal's rule. *)
Fixpoint comb (n k : nat) : nat :=
  match n, k with
  | _, 0 => 1
  | 0, S _ => 0
  | S n', S k' => comb n' k' + comb n' k
  end.

(** [np.sum] of a 1-D array of finite floats. *)
Definition Rsum (l : list R) : R := fold_right Rplus 0%R l.

(** Lexicographic order on index tuples. *)
Inductive lex_lt : list nat -> list nat -> Prop :=
| lex_lt_nil : forall y ys, lex_lt [] (y :: ys)
| lex_lt_head : forall x y xs ys, x < y -> lex_lt (x :: xs) (y :: ys)
| lex_lt_tail : forall x xs ys, lex_lt xs ys -> lex_lt (x :: xs) (x :: ys).

End Py.

Import Py.

Declare Scope py_scope.
Notation "x <- m ;; k" := (bind m (fun x => k))
  (at level 61, m at next level, right associativity) : py_scope.
Open Scope string_scope.
Open Scope nat_scope.
Open Scope list_scope.
Open Scope py_scope.

(* ================================================================== *)
(** * copula_calculation.py *)
(* ================================================================== *)

Module CopulaCalculation.

(** ** find_marginal_cdf *)

(** [statsmodels...ECDF(x)(data)]: the right-continuous step function of the
    sample, the share of observations that are [<= data].  Its constructor
    computes [1. / len(x)] and so raises on an empty sample. *)
Definition ECDF (x : list Q) (data : Q) : result Q :=
  match x with
  | [] => Raise ZeroDivisionError
  | _ :: _ =>
      Ok (inject_Z (Z.of_nat (List.length (filter (fun xi => Qle_bool xi data) x)))
          / inject_Z (Z.of_nat (List.length x)))%Q
  end.

(** Python's [min(a, b)] and [max(a, b)]: the first argument unless the second
    is strictly smaller, respectively larger. *)
Definition py_min (a b : Q) : Q := if Qle_bool a b then a else b.
Definition py_max (a b : Q) : Q := if Qle_bool b a then a else b.

(** [kwargs.get(key, default)]. *)
Fixpoint kwargs_get (kwargs : list (string * Q)) (key : string) (default : Q) : Q :=
  match kwargs with
  | [] => default
  | (k, v) :: rest => if String.eqb k key then v else kwargs_get rest key default
  end.

(** What a function wrapped by [np.vectorize] is applied to and returns. *)
Inductive ndarg : Type :=
| Scalar (v : Q)
| Array (vs : list Q).

(** [np.vectorize(f)]: element-wise; without [otypes] it refuses an input of
    size 0. *)
Definition np_vectorize (f : Q -> result Q) (a : ndarg) : result ndarg :=
  match a with
  | Scalar v => r <- f v ;; Ok (Scalar r)
  | Array [] => Raise ValueError
  | Array vs => rs <- mapM f vs ;; Ok (Array rs)
  end.

(** [find_marginal_cdf]; [None] is Python's [None]. *)
Definition find_marginal_cdf (x : list Q) (empirical : bool)
           (kwargs : list (string * Q)) : option (ndarg -> result ndarg) :=
  let prob_floor := kwargs_get kwargs "prob_floor" (1 # 100000)%Q in
  let prob_cap := kwargs_get kwargs "prob_cap" (99999 # 100000)%Q in
  if empirical then
    let fitted_cdf := fun data =>
      e <- ECDF x data ;; Ok (py_max (py_min e prob_cap) prob_floor) in
    let v_fitted_cdf := np_vectorize fitted_cdf in
    Some v_fitted_cdf
  else None.

(** ** aic *)

(** [aic]: [n] and [k] are Python ints, so [2*n/(n-k-1)] is a true division
    of ints, which raises on a zero divisor and on a quotient beyond the
    floats, and [k] is converted to a float for the product, which raises
    when it is beyond the floats.  The product and the difference of floats
    are exact here; binary64 rounds them and, past its range, gives an
    infinity. *)
Definition aic (log_likelihood : Q) (n k : Z) : result Q :=
  quotient <- int_true_div (2 * n) (n - k - 1) ;;
  k_float <- int_as_float k ;;
  let aic_value := (quotient * k_float - 2 * log_likelihood)%Q in
  Ok aic_value.

(** ** Maximum-likelihood fit *)

(** A float64 that need not be finite: what [np.log] and a density may yield. *)
Inductive float64 : Type :=
| Finite (r : R)
| PosInf
| NegInf
| NaN.

(** [np.log]: minus infinity at 0 and NaN below 0, each with a warning only. *)
Definition np_log (v : float64) : float64 :=
  match v with
  | Finite r =>
      if Rlt_dec 0 r then Finite (ln r)
      else if Rlt_dec r 0 then NaN
      else NegInf
  | PosInf => PosInf
  | NegInf => NaN
  | NaN => NaN
  end.

Definition f64_add (a b : float64) : float64 :=
  match a, b with
  | NaN, _ | _, NaN => NaN
  | PosInf, NegInf | NegInf, PosInf => NaN
  | PosInf, _ | _, PosInf => PosInf
  | NegInf, _ | _, NegInf => NegInf
  | Finite x, Finite y => Finite (x + y)
  end.

(** [np.sum] of a 1-D array. *)
Definition np_sum (l : list float64) : float64 := fold_left f64_add l (Finite 0).

(** Modelled from the spec: the Dependence Family Interface
    ([copula_generate], whose [Switcher] and copula classes are not in these
    files): "given a family name and either a scalar parameter or a covariance
    matrix, returns a fitted bivariate dependence model exposing a density
    function and a Kendall's-tau-to-parameter inversion."  [c] is the density,
    [theta_hat] the inversion; [choose_copula] takes the keyword arguments the
    callers pass and may raise. *)
Record Copula : Type :=
  { c : R -> R -> float64;
    theta_hat : float64 -> float64 }.

Record copula_kwargs : Type :=
  { kw_theta : option float64;
    kw_cov : option (list (list R));
    kw_nu : option R }.

Record Switcher : Type :=
  { choose_copula : string -> copula_kwargs -> result Copula }.

(** The functions of scipy.stats that the fit calls: [ss.kendalltau(x, y)[0]],
    [ss.norm.ppf] and [ss.t(df=nu).ppf], on one value each. *)
Record Stats : Type :=
  { kendalltau : list R -> list R -> result float64;
    norm_ppf : R -> result R;
    t_ppf : option R -> R -> result R }.

Definition mean (l : list R) : R := (Rsum l / INR (List.length l))%R.

(** [EmpiricalCovariance().fit(value_data).covariance_]: the maximum-likelihood
    covariance of the two columns ([np.cov(X.T, bias=1)]); sklearn refuses an
    array without samples. *)
Definition empirical_covariance (value_data : list (R * R)) : result (list (list R)) :=
  match value_data with
  | [] => Raise ValueError
  | _ :: _ =>
      let xs := map fst value_data in
      let ys := map snd value_data in
      let cov (a b : list R) :=
        mean (map (fun p => ((fst p - mean a) * (snd p - mean b))%R) (combine a b)) in
      Ok [[cov xs xs; cov xs ys]; [cov ys xs; cov ys ys]]
  end.

(** [ml_theta_hat]. *)
Definition ml_theta_hat (stats : Stats) (switch : Switcher)
           (x y : list R) (copula_name : string) : result float64 :=
  tau <- kendalltau stats x y ;;
  let dud_cov := [[1; 0]; [0; 1]]%R in
  my_copula <- choose_copula switch copula_name
                 {| kw_theta := None; kw_cov := Some dud_cov; kw_nu := None |} ;;
  let theta_hat := theta_hat my_copula tau in
  Ok theta_hat.

(** [np.array([x, y]).reshape(2, -1).T]: the rows [(x_i, y_i)]; numpy refuses
    to stack two sequences of different lengths. *)
Definition unif_data (x y : list R) : result (list (R * R)) :=
  if List.length x =? List.length y then Ok (combine x y) else Raise ValueError.

Definition theta_copula_names : list string :=
  ["Gumbel"; "Clayton"; "Frank"; "Joe"; "N13"; "N14"].

(** Lines 103-137 of [log_ml]: the three [if] statements in turn.  The value
    is the binding of [my_copula] after them, [None] when none has run. *)
Definition log_ml_fit (stats : Stats) (switch : Switcher)
           (x y : list R) (copula_name : string) (nu : option R)
  : result (option Copula) :=
  my_copula <-
    (if existsb (String.eqb copula_name) theta_copula_names then
       theta <- ml_theta_hat stats switch x y copula_name ;;
       cop <- choose_copula switch copula_name
                {| kw_theta := Some theta; kw_cov := None; kw_nu := None |} ;;
       Ok (Some cop)
     else Ok None) ;;
  my_copula <-
    (if String.eqb copula_name "Gaussian" then
       unif <- unif_data x y ;;
       value_data <- mapM (fun p => a <- norm_ppf stats (fst p) ;;
                                    b <- norm_ppf stats (snd p) ;; Ok (a, b)) unif ;;
       cov_hat <- empirical_covariance value_data ;;
       cop <- choose_copula switch copula_name
                {| kw_theta := None; kw_cov := Some cov_hat; kw_nu := None |} ;;
       Ok (Some cop)
     else Ok my_copula) ;;
  (if String.eqb copula_name "Student" then
     unif <- unif_data x y ;;
     value_data <- mapM (fun p => a <- t_ppf stats nu (fst p) ;;
                                  b <- t_ppf stats nu (snd p) ;; Ok (a, b)) unif ;;
     cov_hat <- empirical_covariance value_data ;;
     cop <- choose_copula switch copula_name
              {| kw_theta := None; kw_cov := Some cov_hat; kw_nu := nu |} ;;
     Ok (Some cop)
   else Ok my_copula).

(** [log_ml]: lines 139-144 after the fit.  Reading [my_copula] when no branch
    has bound it is a NameError ([UnboundLocalError]). *)
Definition log_ml (stats : Stats) (switch : Switcher)
           (x y : list R) (copula_name : string) (nu : option R)
  : result (float64 * Copula) :=
  fitted <- log_ml_fit stats switch x y copula_name nu ;;
  match fitted with
  | None => Raise UnboundLocalError
  | Some my_copula =>
      let likelihood_list := map (fun p => c my_copula (fst p) (snd p)) (combine x y) in
      let log_likelihood_sum := np_sum (map np_log likelihood_list) in
      Ok (log_likelihood_sum, my_copula)
  end.

(** ** sic, hqic *)

(** Float arithmetic on values that need not be finite. *)
Definition f64_neg (a : float64) : float64 :=
  match a with
  | Finite x => Finite (- x)
  | PosInf => NegInf
  | NegInf => PosInf
  | NaN => NaN
  end.

Definition f64_sub (a b : float64) : float64 := f64_add a (f64_neg b).

(** An infinity times a finite [y]: the sign of [y] decides, and 0 gives NaN. *)
Definition inf_times (positive : bool) (y : R) : float64 :=
  if Rlt_dec 0 y then (if positive then PosInf else NegInf)
  else if Rlt_dec y 0 then (if positive then NegInf else PosInf)
  else NaN.

Definition f64_mul (a b : float64) : float64 :=
  match a, b with
  | NaN, _ | _, NaN => NaN
  | Finite x, Finite y => Finite (x * y)
  | PosInf, Finite y | Finite y, PosInf => inf_times true y
  | NegInf, Finite y | Finite y, NegInf => inf_times false y
  | PosInf, PosInf | NegInf, NegInf => PosInf
  | PosInf, NegInf | NegInf, PosInf => NegInf
  end.

(** [np.log(n)] on a Python int: numpy takes an int of 64 bits as an int64
    (as a uint64 from [2**63] on) and returns a float64; a larger int stays a
    Python object, which has no [log] method: TypeError. *)
Definition np_log_int (n : Z) : result float64 :=
  if ((- 2 ^ 63 <=? n) && (n <? 2 ^ 64))%Z then Ok (np_log (Finite (IZR n)))
  else Raise TypeError.

(** A Python int as the operand of a float64 operation ([x * k]): converted
    to a float, with [OverflowError] when it does not round to one. *)
Definition float64_of_int (k : Z) : result float64 :=
  if (float_overflow <=? Z.abs k)%Z then Raise OverflowError
  else Ok (Finite (IZR k)).

(** [sic]: [np.log(n)*k - 2*log_likelihood]. *)
Definition sic (log_likelihood : float64) (n k : Z) : result float64 :=
  log_n <- np_log_int n ;;
  k_float <- float64_of_int k ;;
  let sic_value :=
    f64_sub (f64_mul log_n k_float) (f64_mul (Finite 2) log_likelihood) in
  Ok sic_value.

(** [hqic]: [2*np.log(np.log(n))*k - 2*log_likelihood]. *)
Definition hqic (log_likelihood : float64) (n k : Z) : result float64 :=
  log_n <- np_log_int n ;;
  k_float <- float64_of_int k ;;
  let hqic_value :=
    f64_sub (f64_mul (f64_mul (Finite 2) (np_log log_n)) k_float)
            (f64_mul (Finite 2) log_likelihood) in
  Ok hqic_value.

End CopulaCalculation.

(* ================================================================== *)
(** * vine_copula_partner_selection_utils.py *)
(* ================================================================== *)

Module PartnerSelectionUtils.

(** A [pd.DataFrame] as far as the scorers read it: the column labels and the
    2-D array [.values], row by row. *)
Record DataFrame (V : Type) : Type :=
  { columns : list string; values : list (list V) }.

Definition nrows {V} (df : DataFrame V) : nat := List.length (values df).
Definition ncols {V} (df : DataFrame V) : nat := List.length (columns df).

(** ** numpy indexing *)

(** Integer-array indexing raises [IndexError] on an index that is not below
    the length of the axis; [in_bounds n idx] is the check it performs. *)
Definition in_bounds (n : nat) (idx : list (list nat)) : bool :=
  forallb (forallb (fun j => j <? n)) idx.

(** [a.shape[-1]] of a 2-D array. *)
Definition shape_last {V} (a : list (list V)) : nat :=
  match a with
  | [] => 0
  | row :: _ => List.length row
  end.

(** [a.T] of a 2-D index array. *)
Definition transpose (a : list (list nat)) : list (list nat) :=
  map (fun i => map (fun row => nth i row 0) a) (seq 0 (shape_last a)).

Section Indexing.
Variable V : Type.
Variable filler : V.  (* never read once the bounds check has passed *)

(** [values[:, idx]]: [out[r][c][k] = values[r][idx[c][k]]]. *)
Definition take_columns (vals : list (list V)) (idx : list (list nat))
  : list (list (list V)) :=
  map (fun row => map (fun comb => map (fun j => nth j row filler) comb) idx) vals.

(** [np.take_along_axis(a, idx[..., np.newaxis], axis=0)] for [a] of shape
    (n, m, d) and [idx] of shape (d', m): the index is broadcast along the
    last axis, [out[i][c][k] = a[idx[i][c]][c][k]]. *)
Definition take_along_axis0 (a : list (list (list V))) (idx : list (list nat))
  : list (list (list V)) :=
  map (fun idx_i =>
         map (fun cr => nth (fst cr) (nth (snd cr) a []) [])
             (combine (seq 0 (List.length idx_i)) idx_i))
      idx.
End Indexing.

(** ** Sum of correlations *)

Definition Qsum (l : list Q) : Q := fold_right Qplus 0%Q l.

(** [np.sum(t, axis=(0, 2))] for [t] of shape (d', m, d). *)
Definition sum_axes_0_2 (m : nat) (t : list (list (list Q))) : list Q :=
  map (fun c => Qsum (map (fun plane => Qsum (nth c plane [])) t)) (seq 0 m).

Definition Qltb (a b : Q) : bool := negb (Qle_bool b a).

(** [np.argmax]: the first position that holds the maximum. *)
Fixpoint argmax_from (best_i : nat) (best : Q) (i : nat) (l : list Q) : nat :=
  match l with
  | [] => best_i
  | x :: l' =>
      if Qltb best x then argmax_from i x (S i) l'
      else argmax_from best_i best (S i) l'
  end.

Definition argmax (l : list Q) : option nat :=
  match l with
  | [] => None
  | x :: l' => Some (argmax_from 0 x 1 l')
  end.

(** The array [corr_sums] of [get_sum_correlations_vectorized] after the
    rescaling [(corr_sums - d) / 2]. *)
Definition corr_sums_vectorized (data_subset : DataFrame Q)
           (all_possible_combinations : list (list nat)) : list Q :=
  let corr_matrix_a :=
    take_columns 0%Q (values data_subset) all_possible_combinations in
  let corr_sums :=
    sum_axes_0_2 (List.length all_possible_combinations)
      (take_along_axis0 corr_matrix_a (transpose all_possible_combinations)) in
  let d := shape_last all_possible_combinations in
  map (fun s => ((s - inject_Z (Z.of_nat d)) / 2)%Q) corr_sums.

(** [get_sum_correlations_vectorized].  An empty [all_possible_combinations]
    is [np.array([])], a float array, which numpy refuses as an index. *)
Definition get_sum_correlations_vectorized (data_subset : DataFrame Q)
           (all_possible_combinations : list (list nat))
  : result (list string * Q) :=
  match all_possible_combinations with
  | [] => Raise IndexError
  | _ :: _ =>
      if negb (in_bounds (ncols data_subset) all_possible_combinations)
      then Raise IndexError
      else if negb (in_bounds (nrows data_subset) all_possible_combinations)
      then Raise IndexError
      else
        let corr_sums :=
          corr_sums_vectorized data_subset all_possible_combinations in
        match argmax corr_sums with
        | None => Raise ValueError
        | Some max_index =>
            let final_quadruple :=
              map (fun j => nth j (columns data_subset) "")
                  (nth max_index all_possible_combinations []) in
            Ok (final_quadruple, nth max_index corr_sums 0%Q)
        end
  end.

(** ** Diagonal measure *)

Definition dot (u v : list R) : R :=
  Rsum (map (fun p => (fst p * snd p)%R) (combine u v)).

(** [np.einsum("ijk,k->ji", a, line)] for [a] of shape (n, m, d):
    [out[j][i] = sum_k a[i][j][k] * line[k]]. *)
Definition einsum_ijk_k_ji (m : nat) (a : list (list (list R))) (line : list R)
  : list (list R) :=
  map (fun j => map (fun a_i => dot (nth j a_i []) line) a) (seq 0 m).

(** [np.einsum("ijk,ijk->ji", a, b)]:
    [out[j][i] = sum_k a[i][j][k] * b[i][j][k]]. *)
Definition einsum_ijk_ijk_ji (m : nat) (a b : list (list (list R)))
  : list (list R) :=
  map (fun j => map (fun ab => dot (nth j (fst ab) []) (nth j (snd ab) []))
                    (combine a b))
      (seq 0 m).

(** [np.linalg.norm] of a vector. *)
Definition norm (v : list R) : R := sqrt (dot v v).

(** [np.argmin]: the first position that holds the minimum. *)
Fixpoint argmin_from (best_i : nat) (best : R) (i : nat) (l : list R) : nat :=
  match l with
  | [] => best_i
  | x :: l' =>
      if Rlt_dec x best then argmin_from i x (S i) l'
      else argmin_from best_i best (S i) l'
  end.

Definition argmin (l : list R) : option nat :=
  match l with
  | [] => None
  | x :: l' => Some (argmin_from 0 x 1 l')
  end.

(** The array [distance_scores] of [diagonal_measure_vectorized].  [np.sqrt]
    is the real square root: its argument is never negative here
    (lemma [radicand_nonneg] below shows it for [pn ** 2 - pp ** 2]). *)
Definition distance_scores_vectorized (data_subset : DataFrame R)
           (all_possible_combinations : list (list nat)) : list R :=
  let m := List.length all_possible_combinations in
  let quadruples_combinations_data :=
    take_columns 0%R (values data_subset) all_possible_combinations in
  let d := shape_last all_possible_combinations in
  let line := repeat 1%R d in
  let pp :=
    map (map (fun s => (s / norm line)%R))
        (einsum_ijk_k_ji m quadruples_combinations_data line) in
  let pn :=
    map (map sqrt)
        (einsum_ijk_ijk_ji m quadruples_combinations_data
                           quadruples_combinations_data) in
  map (fun row => Rsum (map (fun p => sqrt (fst p ^ 2 - snd p ^ 2)%R)
                            (combine (fst row) (snd row))))
      (combine pn pp).

(** [diagonal_measure_vectorized]. *)
Definition diagonal_measure_vectorized (data_subset : DataFrame R)
           (all_possible_combinations : list (list nat))
  : result (list string * R) :=
  match all_possible_combinations with
  | [] => Raise IndexError
  | _ :: _ =>
      if negb (in_bounds (ncols data_subset) all_possible_combinations)
      then Raise IndexError
      else
        let distance_scores :=
          distance_scores_vectorized data_subset all_possible_combinations in
        match argmin distance_scores with
        | None => Raise ValueError
        | Some min_index =>
            let final_quadruple :=
              map (fun j => nth j (columns data_subset) "")
                  (nth min_index all_possible_combinations []) in
            Ok (final_quadruple, nth min_index distance_scores 0%R)
        end
  end.

(** ** Covariance matrix of the extremal measure *)

(** [func]; [None] is Python's [None]. *)
Definition func (t : Q) (value : Z) : option Q :=
  let res := None in
  let res := if (value =? 1)%Z then Some ((t - 1) * (3 * t - 1))%Q else res in
  let res := if (value =? 2)%Z then Some (t * (2 - 3 * t))%Q else res in
  res.

(** [a * b] on what [func] returns: a product with [None] is a TypeError. *)
Definition py_mul (a : result Q) (b : option Q) : result Q :=
  x <- a ;;
  match b with
  | Some y => Ok (x * y)%Q
  | None => Raise TypeError
  end.

Definition flags : Type := (Z * Z * Z * Z)%type.
Definition flag0 (l : flags) : Z := fst (fst (fst l)).
Definition flag1 (l : flags) : Z := snd (fst (fst l)).
Definition flag2 (l : flags) : Z := snd (fst l).
Definition flag3 (l : flags) : Z := snd l.

(** [variance_integral_func]. *)
Definition variance_integral_func (u1 u2 u3 u4 : Q) (l1 l2 : flags) : result Q :=
  let first :=
    match func u1 (flag0 l1) with
    | Some x => Ok x
    | None => Raise TypeError
    end in
  py_mul (py_mul (py_mul (py_mul (py_mul (py_mul (py_mul first
    (func u2 (flag1 l1))) (func u3 (flag2 l1))) (func u4 (flag3 l1)))
    (func u1 (flag0 l2))) (func u2 (flag1 l2))) (func u3 (flag2 l2)))
    (func u4 (flag3 l2)).

(** [itertools.product([1, 2], [1, 2], [1, 2], [1, 2])]: the rightmost
    position advances first. *)
Definition product_1_2 : list flags :=
  flat_map (fun a => flat_map (fun b => flat_map (fun c =>
    map (fun d => (a, b, c, d)) [1; 2]%Z) [1; 2]%Z) [1; 2]%Z) [1; 2]%Z.

Definition enumerate {A} (l : list A) : list (nat * A) :=
  combine (seq 0 (List.length l)) l.

(** [l[i] = v] on a list, within range. *)
Fixpoint list_set {A} (l : list A) (i : nat) (v : A) : list A :=
  match l, i with
  | [], _ => []
  | _ :: l', 0 => v :: l'
  | x :: l', S i' => x :: list_set l' i' v
  end.

Definition matrix : Type := list (list Q).

Definition matrix_get (m : matrix) (i j : nat) : Q := nth j (nth i m []) 0%Q.

(** [m[i, j] = v]. *)
Definition matrix_set (m : matrix) (i j : nat) (v : Q) : matrix :=
  list_set m i (list_set (nth i m []) j v).

(** The state of the double loop: the array and, as a log that the code does
    not keep, the positions whose integral has been computed so far. *)
Record loop_state : Type :=
  { co_variance_matrix : matrix; integrated : list (nat * nat) }.

(** Lines 138-149 of [get_co_variance_matrix], with the integral of line 146
    as a function of the two flag tuples: the matrix handed to
    [np.linalg.inv], and the log. *)
Definition fill_co_variance_matrix (integral : flags -> flags -> Q) : loop_state :=
  let zeros := repeat (repeat 0%Q 16) 16 in
  let filled :=
    fold_left
      (fun st il1 =>
         fold_left
           (fun st jl2 =>
              if fst jl2 <? fst il1 then st  (* continue *)
              else
                {| co_variance_matrix :=
                     matrix_set (co_variance_matrix st) (fst il1) (fst jl2)
                                (integral (snd il1) (snd jl2));
                   integrated := integrated st ++ [(fst il1, fst jl2)] |})
           (enumerate product_1_2) st)
      (enumerate product_1_2)
      {| co_variance_matrix := zeros; integrated := [] |} in
  (* inds = np.tri(16, k=-1, dtype=bool): inds[i][j] iff j < i *)
  let co := co_variance_matrix filled in
  let mirrored :=
    map (fun i => map (fun j => if j <? i then matrix_get co j i
                                else matrix_get co i j)
                      (seq 0 16))
        (seq 0 16) in
  {| co_variance_matrix := mirrored; integrated := integrated filled |}.

(** [get_co_variance_matrix].  [nquad f] stands for
    [scipy.integrate.nquad(f, [(0, 1)] * 4)[0]] and [inv] for [np.linalg.inv],
    which raises [LinAlgError] on a singular matrix. *)
Definition get_co_variance_matrix
           (nquad : (Q -> Q -> Q -> Q -> result Q) -> Q)
           (inv : matrix -> result matrix) : result matrix :=
  let integral l1 l2 :=
    nquad (fun u1 u2 u3 u4 => variance_integral_func u1 u2 u3 u4 l1 l2) in
  inv (co_variance_matrix (fill_co_variance_matrix integral)).

(** ** Multivariate rho *)

Definition Qprod (l : list Q) : Q := fold_right Qmult 1%Q l.

(** [a.sum(axis=0)] for [a] of shape (n, m). *)
Definition sum_axis_0 (m : nat) (a : list (list Q)) : list Q :=
  map (fun c => Qsum (map (fun row => nth c row 0%Q) a)) (seq 0 m).

(** [np.product(a, axis=-1)] for [a] of shape (n, m, d). *)
Definition product_last (a : list (list (list Q))) : list (list Q) :=
  map (map Qprod) a.

(** [a[:, :, k]] for an index vector [k]: [out[r][c][p] = a[r][c][k[p]]]. *)
Definition take_last (a : list (list (list Q))) (k : list nat)
  : list (list (list Q)) :=
  map (map (fun v => map (fun j => nth j v 0%Q) k)) a.

(** [1 - a], element by element. *)
Definition one_minus (a : list (list (list Q))) : list (list (list Q)) :=
  map (map (map (fun x => (1 - x)%Q))) a.

(** [a * b], element by element, for two arrays of one shape. *)
Definition times (a b : list (list (list Q))) : list (list (list Q)) :=
  map (fun rr => map (fun vv => map (fun xy => (fst xy * snd xy)%Q)
                                    (combine (fst vv) (snd vv)))
                     (combine (fst rr) (snd rr)))
      (combine a b).

(** The array [quadruples_scores] of [multivariate_rho_vectorized].  [n] and
    [d] come out of [.shape] as Python ints, so the three divisions
    [(d + 1) / (2 ** d - d - 1)], [2 ** d / n] and [12 / (n * dc2)] raise on a
    zero divisor. *)
Definition multivariate_rho_scores (data_subset : DataFrame Q)
           (all_possible_combinations : list (list nat)) : result (list Q) :=
  let m := List.length all_possible_combinations in
  let quadruples_combinations_data :=
    take_columns 0%Q (values data_subset) all_possible_combinations in
  let n := Z.of_nat (nrows data_subset) in
  let d := shape_last all_possible_combinations in
  let two_d := (2 ^ Z.of_nat d)%Z in
  if (two_d - Z.of_nat d - 1 =? 0)%Z then Raise ZeroDivisionError
  else
    let h_d := (inject_Z (Z.of_nat d + 1) / inject_Z (two_d - Z.of_nat d - 1))%Q in
    let sum_1 :=
      sum_axis_0 m (product_last (one_minus quadruples_combinations_data)) in
    if (n =? 0)%Z then Raise ZeroDivisionError
    else
      let rho_1 :=
        map (fun s => (h_d * (-1 + (inject_Z two_d / inject_Z n) * s))%Q) sum_1 in
      let sum_2 := sum_axis_0 m (product_last quadruples_combinations_data) in
      let rho_2 :=
        map (fun s => (h_d * (-1 + (inject_Z two_d / inject_Z n) * s))%Q) sum_2 in
      let pairs := combinations (seq 0 d) 2 in
      let k := map (fun p => nth 0 p 0) pairs in
      let l := map (fun p => nth 1 p 0) pairs in
      let sum_3 :=
        sum_axes_0_2 m
          (times (one_minus (take_last quadruples_combinations_data k))
                 (one_minus (take_last quadruples_combinations_data l))) in
      let dc2 := Z.of_nat (comb d 2) in
      if (n * dc2 =? 0)%Z then Raise ZeroDivisionError
      else
        let rho_3 :=
          map (fun s => (-3 + (12 / inject_Z (n * dc2)) * s)%Q) sum_3 in
        Ok (map (fun r => ((fst (fst r) + snd (fst r) + snd r) / 3)%Q)
                (combine (combine rho_1 rho_2) rho_3)).

(** [multivariate_rho_vectorized]. *)
Definition multivariate_rho_vectorized (data_subset : DataFrame Q)
           (all_possible_combinations : list (list nat))
  : result (list string * Q) :=
  match all_possible_combinations with
  | [] => Raise IndexError
  | _ :: _ =>
      if negb (in_bounds (ncols data_subset) all_possible_combinations)
      then Raise IndexError
      else
        quadruples_scores <-
          multivariate_rho_scores data_subset all_possible_combinations ;;
        match argmax quadruples_scores with
        | None => Raise ValueError
        | Some max_index =>
            let final_quadruple :=
              map (fun j => nth j (columns data_subset) "")
                  (nth max_index all_possible_combinations []) in
            Ok (final_quadruple, nth max_index quadruples_scores 0%Q)
        end
  end.

(** ** Extremal measure *)

(** [t_calc] on the array of a frame [u]: one row per flag tuple, one entry
    per row of [u]; [u[:, 3]] needs four columns.  [func] is applied to whole
    columns, so a flag it does not know would make the product a TypeError. *)
Definition t_calc (u : DataFrame Q) : result (list (list Q)) :=
  if ncols u <? 4 then Raise IndexError
  else
    mapM (fun l =>
            mapM (fun row =>
                    let first :=
                      match func (nth 0 row 0%Q) (flag0 l) with
                      | Some x => Ok x
                      | None => Raise TypeError
                      end in
                    py_mul (py_mul (py_mul first
                      (func (nth 1 row 0%Q) (flag1 l)))
                      (func (nth 2 row 0%Q) (flag2 l)))
                      (func (nth 3 row 0%Q) (flag3 l)))
                 (values u))
         product_1_2.

Definition is_16x16 (m : matrix) : bool :=
  (List.length m =? 16) && forallb (fun row => List.length row =? 16) m.

(** [extremal_measure]; the value [None] is NaN, what the mean over no rows
    gives.  [np.matmul] refuses a matrix that is not 16 x 16. *)
Definition extremal_measure (u : DataFrame Q) (co_variance_matrix : matrix)
  : result (option Q) :=
  let n := nrows u in
  t_rows <- t_calc u ;;
  if negb (is_16x16 co_variance_matrix) then Raise ValueError
  else if n =? 0 then Ok None
  else
    let t := map (fun r => (Qsum r / inject_Z (Z.of_nat n))%Q) t_rows in
    let ct :=
      map (fun c_row => Qsum (map (fun xy => (fst xy * snd xy)%Q) (combine c_row t)))
          co_variance_matrix in
    let t_test_statistic :=
      (inject_Z (Z.of_nat n)
       * Qsum (map (fun xy => (fst xy * snd xy)%Q) (combine t ct)))%Q in
    Ok (Some t_test_statistic).

End PartnerSelectionUtils.

(* ================================================================== *)
(** * vine_copula_partner_selection.py *)
(* ================================================================== *)

Module PartnerSelection.

(** A row of [top_50_correlations]: a [pd.Series] whose [name] is the target
    and whose values are its partner tickers. *)
Record Series_row : Type := { name : string; items : list string }.

(** [PartnerSelection._generate_all_quadruples_helper]. *)
Definition _generate_all_quadruples_helper (row : Series_row) : list (list string) :=
  let target := name row in
  map (fun triple => [target] ++ triple) (combinations (items row) 3).

(** [PartnerSelection._prepare_combinations_of_partners]:
    [np.arange(1, n)] is [seq 1 (n - 1)]. *)
Definition _prepare_combinations_of_partners (stock_selection : list string)
  : list (list nat) :=
  let num_of_stocks := length stock_selection in
  let partner_stocks_idx := seq 1 (num_of_stocks - 1) in
  let partner_stocks_idx_combs := combinations partner_stocks_idx 3 in
  map (fun comb => [0] ++ comb) partner_stocks_idx_combs.

Import PartnerSelectionUtils.

(** A column of the correlation matrix as a [pd.Series]: its (label, value)
    pairs in index order. *)
Definition Series : Type := list (string * Q).

(** [correlation_matrix[ticker]], by position.  The frame comes from
    [ranked_returns.corr()]: its index is its list of column labels. *)
Definition column_series (correlation_matrix : DataFrame Q) (j : nat) : Series :=
  combine (columns correlation_matrix)
          (map (fun row => nth j row 0%Q) (values correlation_matrix)).

(** [tickers_list] inside [_top_50_tickers].  [sort_values] stands for
    [col.sort_values(ascending=False)], which runs pandas' default
    [kind='quicksort']. *)
Definition tickers_list (sort_values : Series -> Series) (col : Series)
  : list string :=
  map fst (firstn 50 (skipn 1 (sort_values col))).

(** [PartnerSelection._top_50_tickers]: one row per asset, the row of an
    asset being [tickers_list] of its column. *)
Definition _top_50_tickers (sort_values : Series -> Series)
           (correlation_matrix : DataFrame Q) : list (string * list string) :=
  map (fun j => (nth j (columns correlation_matrix) "",
                 tickers_list sort_values (column_series correlation_matrix j)))
      (seq 0 (ncols correlation_matrix)).

(** What pandas promises of a descending sort of any kind: a rearrangement
    in which no value is followed by a larger one.  Only [kind='mergesort']
    and [kind='stable'] promise more, namely the order of equal values. *)
Definition descending (s : Series) : Prop :=
  StronglySorted (fun a b => (snd b <= snd a)%Q) s.

Definition sorts_descending (sort_values : Series -> Series) : Prop :=
  forall col, Permutation (sort_values col) col /\ descending (sort_values col).

(** ** The selection procedures *)

(** pandas' [KeyError], raised by a label that an index does not hold. *)
Definition KeyError : exn := LibraryError "KeyError".

(** [index.get_loc(label)]: the position of a label, in an index that holds
    no label twice. *)
Fixpoint get_loc (labels : list string) (label : string) : result nat :=
  match labels with
  | [] => Raise KeyError
  | l :: rest =>
      if String.eqb l label then Ok 0
      else i <- get_loc rest label ;; Ok (S i)
  end.

(** [frame[labels]]: the columns with these labels, in the order asked. *)
Definition select_columns (frame : DataFrame Q) (labels : list string)
  : result (DataFrame Q) :=
  idx <- mapM (get_loc (columns frame)) labels ;;
  Ok {| columns := labels;
        values := map (fun row => map (fun j => nth j row 0%Q) idx) (values frame) |}.

(** [frame.loc[labels, labels]] on a frame indexed by its column labels. *)
Definition loc_square (frame : DataFrame Q) (labels : list string)
  : result (DataFrame Q) :=
  idx <- mapM (get_loc (columns frame)) labels ;;
  Ok {| columns := labels;
        values := map (fun i => map (fun j => nth j (nth i (values frame) []) 0%Q) idx)
                      idx |}.

(** [series.loc[label]] / [series[label]] on a labelled list. *)
Fixpoint loc_row {A} (rows : list (string * A)) (label : string) : result A :=
  match rows with
  | [] => Raise KeyError
  | (l, a) :: rest => if String.eqb l label then Ok a else loc_row rest label
  end.

(** The attributes of a [PartnerSelection] object that the four procedures
    read. *)
Record Selection : Type :=
  { returns : DataFrame Q;
    ranked_returns : DataFrame Q;
    correlation_matrix : DataFrame Q;
    top_50_correlations : list (string * list string);
    all_quadruples : list (string * list (list string)) }.

(** [PartnerSelection._generate_all_quadruples]. *)
Definition _generate_all_quadruples (top_50 : list (string * list string))
  : list (string * list (list string)) :=
  map (fun row =>
         (fst row,
          _generate_all_quadruples_helper {| name := fst row; items := snd row |}))
      top_50.

(** The loop header shared by the four procedures:
    [self.top_50_correlations.index[:n_targets]], for [n_targets >= 0]. *)
Definition targets (self : Selection) (n_targets : nat) : list string :=
  firstn n_targets (map fst (top_50_correlations self)).

(** An entry of the output of [traditional], [extended] and [geometric] as a
    caller reads it, whatever the scores: the target followed by three of its
    partners, in the order of its partner row. *)
Definition target_and_three_partners (top_50 : list (string * list string))
           (target : string) (quadruple : list string) : Prop :=
  exists partners i j k,
    loc_row top_50 target = Ok partners
    /\ i < j /\ j < k /\ k < length partners
    /\ quadruple
       = [target; nth i partners ""; nth j partners ""; nth k partners ""].

(** [PartnerSelection.traditional]. *)
Definition traditional (self : Selection) (n_targets : nat)
  : result (list (list string)) :=
  mapM (fun target =>
          partners <- loc_row (top_50_correlations self) target ;;
          let stock_selection := [target] ++ partners in
          data_subset <- loc_square (correlation_matrix self) stock_selection ;;
          let all_possible_combinations :=
            _prepare_combinations_of_partners stock_selection in
          r <- get_sum_correlations_vectorized data_subset all_possible_combinations ;;
          Ok (fst r))
       (targets self n_targets).

(** [PartnerSelection.extended]: [ecdf_df = self.returns.apply(lambda x:
    ECDF(x)(x), axis=0)] holds, column by column, the empirical distribution
    function of the column at its own values.  On a frame with no rows or no
    columns pandas' [apply] does not call the function and returns the frame
    as it is. *)
Definition ecdf_column (x : list Q) : result (list Q) :=
  match x with
  | [] => Raise ZeroDivisionError
  | _ :: _ => mapM (CopulaCalculation.ECDF x) x
  end.

Definition transpose_rows (n : nat) (rows : list (list Q)) : list (list Q) :=
  map (fun j => map (fun row => nth j row 0%Q) rows) (seq 0 n).

Definition ecdf_frame (frame : DataFrame Q) : result (DataFrame Q) :=
  if (nrows frame =? 0) || (ncols frame =? 0) then Ok frame
  else
    cols <- mapM ecdf_column (transpose_rows (ncols frame) (values frame)) ;;
    Ok {| columns := columns frame;
          values := transpose_rows (nrows frame) cols |}.

Definition extended (self : Selection) (n_targets : nat)
  : result (list (list string)) :=
  ecdf_df <- ecdf_frame (returns self) ;;
  mapM (fun target =>
          partners <- loc_row (top_50_correlations self) target ;;
          let stock_selection := [target] ++ partners in
          data_subset <- select_columns ecdf_df stock_selection ;;
          let all_possible_combinations :=
            _prepare_combinations_of_partners stock_selection in
          r <- multivariate_rho_vectorized data_subset all_possible_combinations ;;
          Ok (fst r))
       (targets self n_targets).

(** [PartnerSelection.geometric]; the diagonal measure reads the ranked
    returns as reals. *)
Definition as_reals (frame : DataFrame Q) : DataFrame R :=
  {| columns := columns frame; values := map (map Q2R) (values frame) |}.

Definition geometric (self : Selection) (n_targets : nat)
  : result (list (list string)) :=
  mapM (fun target =>
          partners <- loc_row (top_50_correlations self) target ;;
          let stock_selection := [target] ++ partners in
          data_subset <- select_columns (ranked_returns self) stock_selection ;;
          let all_possible_combinations :=
            _prepare_combinations_of_partners stock_selection in
          r <- diagonal_measure_vectorized (as_reals data_subset)
                                           all_possible_combinations ;;
          Ok (fst r))
       (targets self n_targets).

(** [measure > max_measure]: [max_measure] starts at minus infinity ([None]);
    a NaN measure ([None]) is larger than nothing. *)
Definition exceeds (measure max_measure : option Q) : bool :=
  match measure, max_measure with
  | None, _ => false
  | Some _, None => true
  | Some x, Some m => Qltb m x
  end.

(** The inner loop of [PartnerSelection.extremal], from the state
    [(max_measure, final_quadruple)]. *)
Fixpoint extremal_search (self : Selection) (co_variance_matrix : matrix)
         (quadruples : list (list string))
         (max_measure : option Q) (final_quadruple : option (list string))
  : result (option (list string)) :=
  match quadruples with
  | [] => Ok final_quadruple
  | quadruple :: rest =>
      u <- select_columns (ranked_returns self) quadruple ;;
      measure <- extremal_measure u co_variance_matrix ;;
      if exceeds measure max_measure
      then extremal_search self co_variance_matrix rest measure (Some quadruple)
      else extremal_search self co_variance_matrix rest max_measure final_quadruple
  end.

(** [PartnerSelection.extremal]; an entry [None] is Python's [None]. *)
Definition extremal (nquad : (Q -> Q -> Q -> Q -> result Q) -> Q)
           (inv : matrix -> result matrix)
           (self : Selection) (n_targets : nat)
  : result (list (option (list string))) :=
  co_variance_matrix <- get_co_variance_matrix nquad inv ;;
  mapM (fun target =>
          quadruples <- loc_row (all_quadruples self) target ;;
          extremal_search self co_variance_matrix quadruples None None)
       (targets self n_targets).

End PartnerSelection.

(* ================================================================== *)
(** * The scorers by direct iteration (specification, section 4.5) *)
(* ================================================================== *)

Module Direct.
Import PartnerSelectionUtils.

(** Entry [(i, j)] of a 2-D array of rationals. *)
Definition entry (M : list (list Q)) (i j : nat) : Q := nth j (nth i M []) 0%Q.

(** "score(quad) = sum of pairwise correlations among the 4 assets (6 pairs)
    using the precomputed correlation matrix": one term per unordered pair of
    positions of the quadruple. *)
Definition sum_of_pairwise_correlations (M : list (list Q)) (quad : list nat) : Q :=
  Qsum (map (fun pair => match pair with
                         | [a; b] => entry M a b
                         | _ => 0%Q
                         end)
            (combinations quad 2)).

(** "project each row (point in ranked-return space) onto the unit
    hyper-diagonal direction and compute the perpendicular Euclidean distance;
    sum distances over all rows": for a point [v], the squared distance is
    [|v|^2] minus the square of the projection on [line / |line|]. *)
Definition perpendicular_distance (v : list R) : R :=
  let line := repeat 1%R (List.length v) in
  sqrt (dot v v - (dot v line / norm line) ^ 2)%R.

Definition diagonal_measure (rows : list (list R)) (quad : list nat) : R :=
  Rsum (map (fun row => perpendicular_distance (map (fun j => nth j row 0%R) quad))
            rows).

(** Every row of the quadruple lies on the hyper-diagonal: its four values
    are equal. *)
Definition on_diagonal (rows : list (list R)) (quad : list nat) : Prop :=
  forall row a b, In row rows -> In a quad -> In b quad ->
                  nth a row 0%R = nth b row 0%R.

(** The three estimators of multivariate rho for one quadruple, row by row:
    "rho1 uses the product of (1-u_i) across dimensions, rho2 the product of
    u_i, rho3 the average of pairwise products of (1-u_i)(1-u_j) over all
    C(4,2) pairs; each scaled by h_d = (d+1)/(2^d-d-1) (rho1, rho2) or
    3(4/(n C(d,2)))-3 form (rho3); final score = mean of the three", d = 4. *)
Definition rho_1 (rows : list (list Q)) (quad : list nat) : Q :=
  ((5 # 11) * (-1 + (16 / inject_Z (Z.of_nat (List.length rows)))
                    * Qsum (map (fun row =>
                                   Qprod (map (fun j => 1 - nth j row 0) quad))
                                rows)))%Q.

Definition rho_2 (rows : list (list Q)) (quad : list nat) : Q :=
  ((5 # 11) * (-1 + (16 / inject_Z (Z.of_nat (List.length rows)))
                    * Qsum (map (fun row => Qprod (map (fun j => nth j row 0) quad))
                                rows)))%Q.

Definition rho_3 (rows : list (list Q)) (quad : list nat) : Q :=
  (-3 + (12 / inject_Z (Z.of_nat (List.length rows) * 6))
        * Qsum (map (fun row =>
                       Qsum (map (fun pair =>
                                    match pair with
                                    | [a; b] => (1 - nth a row 0) * (1 - nth b row 0)
                                    | _ => 0
                                    end)
                                 (combinations quad 2)))
                    rows))%Q.

Definition multivariate_rho (rows : list (list Q)) (quad : list nat) : Q :=
  ((rho_1 rows quad + rho_2 rows quad + rho_3 rows quad) / 3)%Q.

End Direct.

(* ================================================================== *)
(** * Concrete inputs *)
(* ================================================================== *)

Module Examples.
Import PartnerSelectionUtils.

(** Fifty distinct tickers, ["A"], ["B"], ... by character code. *)
Definition fifty_tickers : list string :=
  map (fun n => String (ascii_of_nat n) EmptyString) (seq 65 50).

(** A correlation sub-matrix over a target and four partners. *)
Definition corr5 : DataFrame Q :=
  {| columns := ["T"; "A"; "B"; "C"; "D"];
     values := [[  1 ; 1#2; 1#3; 1#4; 1#5];
                [1#2;   1 ; 2#3; 1#7; 1#9];
                [1#3; 2#3;   1 ; 3#4; 1#8];
                [1#4; 1#7; 3#4;   1 ; 1#6];
                [1#5; 1#9; 1#8; 1#6;   1 ]]%Q |}.

Import CopulaCalculation.

(** Kendall's tau-b, the statistic [ss.kendalltau] computes: concordant minus
    discordant pairs over the geometric mean of the numbers of pairs untied
    in [x] and untied in [y]; NaN when one of the two has no untied pair. *)
Definition sign (a b : R) : Z :=
  if Rlt_dec a b then 1%Z else if Rlt_dec b a then (-1)%Z else 0%Z.

Fixpoint pairs {A} (l : list A) : list (A * A) :=
  match l with
  | [] => []
  | a :: rest => map (pair a) rest ++ pairs rest
  end.

Definition Zsum (l : list Z) : Z := fold_right Z.add 0%Z l.

Definition kendall_tau_b (x y : list R) : result float64 :=
  if negb (List.length x =? List.length y) then Raise ValueError
  else
    let ps := pairs (combine x y) in
    let sx (p : (R * R) * (R * R)) := sign (fst (fst p)) (fst (snd p)) in
    let sy (p : (R * R) * (R * R)) := sign (snd (fst p)) (snd (snd p)) in
    let con_minus_dis := Zsum (map (fun p => (sx p * sy p)%Z) ps) in
    let untied_x := Zsum (map (fun p => Z.abs (sx p)) ps) in
    let untied_y := Zsum (map (fun p => Z.abs (sy p)) ps) in
    if ((untied_x =? 0) || (untied_y =? 0))%Z then Ok NaN
    else Ok (Finite (IZR con_minus_dis / sqrt (IZR untied_x * IZR untied_y))).

(** An instance of the scipy functions with [kendalltau] as above; the two
    quantile functions are not available in it. *)
Definition stats : Stats :=
  {| kendalltau := kendall_tau_b;
     norm_ppf := fun _ => Raise (LibraryError "norm.ppf: not available");
     t_ppf := fun _ _ => Raise (LibraryError "t.ppf: not available") |}.

(** Clayton: density
    [(1+theta) (uv)^(-1-theta) / (u^-theta + v^-theta - 1)^(2+1/theta)],
    [theta_hat(tau) = 2 tau / (1 - tau)].  A model built without [theta] has
    no density to evaluate (NaN here). *)
Definition clayton (theta : option R) : Copula :=
  {| c := fun u v =>
       match theta with
       | Some theta =>
           Finite ((1 + theta) * Rpower u (-1 - theta) * Rpower v (-1 - theta)
                   / Rpower (-1 + Rpower u (- theta) + Rpower v (- theta))
                            (2 + 1 / theta))
       | None => NaN
       end;
     theta_hat := fun tau =>
       match tau with
       | Finite t => Finite (2 * t / (1 - t))
       | _ => NaN
       end |}.

(** Gaussian with the identity covariance: the independence copula, whose
    density is 1; [theta_hat(tau) = sin(tau pi / 2)]. *)
Definition gaussian_independent : Copula :=
  {| c := fun _ _ => Finite 1;
     theta_hat := fun tau =>
       match tau with
       | Finite t => Finite (sin (t * PI / 2))
       | _ => NaN
       end |}.

Definition is_identity (cov : list (list R)) : bool :=
  match cov with
  | [[a; b]; [c'; d]] =>
      if Req_dec_T a 1 then
        if Req_dec_T b 0 then
          if Req_dec_T c' 0 then
            if Req_dec_T d 1 then true else false
          else false
        else false
      else false
  | _ => false
  end.

(** A catalogue with these two families.  A Clayton model is built from
    [theta] or, as [ml_theta_hat] does, from a covariance it does not read;
    a Gaussian model is built from the identity covariance only. *)
Definition catalogue : Switcher :=
  {| choose_copula := fun copula_name kw =>
       if String.eqb copula_name "Clayton" then
         match kw_theta kw with
         | Some (Finite theta) => Ok (clayton (Some theta))
         | Some _ => Raise ValueError
         | None => Ok (clayton None)
         end
       else if String.eqb copula_name "Gaussian" then
         match kw_cov kw with
         | Some cov =>
             if is_identity cov then Ok gaussian_independent
             else Raise (LibraryError "Gaussian: covariance not available")
         | None => Raise TypeError
         end
       else Raise (LibraryError "family not available") |}.

(** Ranked returns of a target and four partners that move together: every
    column holds the same percentile ranks. *)
Definition ranks5 : DataFrame R :=
  {| columns := ["T"; "A"; "B"; "C"; "D"];
     values := [[1/2; 1/2; 1/2; 1/2; 1/2];
                [  1;   1;   1;   1;   1]]%R |}.

Import PartnerSelection.

(** A stable descending sort: equal values keep their index order. *)
Fixpoint insert_desc (p : string * Q) (s : Series) : Series :=
  match s with
  | [] => [p]
  | q :: s' => if Qltb (snd p) (snd q) then q :: insert_desc p s' else p :: s
  end.

Definition stable_sort_desc (s : Series) : Series := fold_right insert_desc [] s.

(** A correlation matrix in which A and B are perfectly correlated. *)
Definition corr3 : DataFrame Q :=
  {| columns := ["A"; "B"; "C"];
     values := [[  1 ;   1 ; 1#2];
                [  1 ;   1 ; 1#2];
                [1#2; 1#2;   1 ]]%Q |}.

(** Exact stand-ins for the two library calls of [get_co_variance_matrix].

    [nquad_boole]: Boole's rule (nodes 0, 1/4, 1/2, 3/4, 1, weights 7, 32, 12,
    32, 7 over 90) in each of the four dimensions.  The rule integrates
    polynomials of degree up to 5 exactly, and the integrand is of degree 4 in
    each variable.  The integrand raises nowhere on the flag tuples of the loop
    (lemma [variance_integral_func_defined]); a point where it did would count
    as 0. *)
Definition boole : list (Q * Q) :=
  [(0, 7 # 90); (1 # 4, 32 # 90); (1 # 2, 12 # 90); (3 # 4, 32 # 90); (1, 7 # 90)]%Q.

Definition quad1 (f : Q -> Q) : Q :=
  Qred (Qsum (map (fun xw => (snd xw * f (fst xw))%Q) boole)).

Definition nquad_boole (f : Q -> Q -> Q -> Q -> result Q) : Q :=
  quad1 (fun u1 => quad1 (fun u2 => quad1 (fun u3 => quad1 (fun u4 =>
    match f u1 u2 u3 u4 with
    | Ok v => v
    | Raise _ => 0%Q
    end)))).

(** [inv_gauss_jordan]: inversion by Gauss-Jordan elimination on [m | I], with
    [LinAlgError] when a column has no pivot, which is when the matrix is
    singular. *)
Definition row_scale (k : Q) (r : list Q) : list Q := map (fun x => Qred (k * x)) r.

Definition row_sub (r : list Q) (k : Q) (p : list Q) : list Q :=
  map (fun xy => Qred (fst xy - k * snd xy)) (combine r p).

Fixpoint find_pivot (col : nat) (rows : list (list Q))
  : option (list Q * list (list Q)) :=
  match rows with
  | [] => None
  | r :: rest =>
      if Qeq_bool (nth col r 0%Q) 0 then
        match find_pivot col rest with
        | Some (p, others) => Some (p, r :: others)
        | None => None
        end
      else Some (r, rest)
  end.

(** One step per column: [done] holds the rows already reduced, [todo] the
    rows in which the pivot of column [col] is looked for. *)
Fixpoint eliminate (cols : list nat) (done todo : list (list Q))
  : result (list (list Q)) :=
  match cols with
  | [] => Ok done
  | col :: cols' =>
      match find_pivot col todo with
      | None => Raise LinAlgError
      | Some (p, others) =>
          let p' := row_scale (/ nth col p 0)%Q p in
          let clear r := row_sub r (nth col r 0%Q) p' in
          eliminate cols' (map clear done ++ [p']) (map clear others)
      end
  end.

Definition identity (n : nat) : matrix :=
  map (fun i => map (fun j => if i =? j then 1%Q else 0%Q) (seq 0 n)) (seq 0 n).

Definition inv_gauss_jordan (m : matrix) : result matrix :=
  let n := List.length m in
  let augmented := map (fun ri => fst ri ++ snd ri) (combine m (identity n)) in
  reduced <- eliminate (seq 0 n) [] augmented ;;
  Ok (map (skipn n) reduced).

Definition matmul (a b : matrix) : matrix :=
  map (fun row =>
         map (fun j => Qsum (map (fun xr => (fst xr * nth j (snd xr) 0)%Q)
                                 (combine row b)))
             (seq 0 (shape_last b)))
      a.

Definition matrix_eqb (a b : matrix) : bool :=
  (List.length a =? List.length b)
  && forallb (fun rs =>
                (List.length (fst rs) =? List.length (snd rs))
                && forallb (fun xy => Qeq_bool (fst xy) (snd xy))
                           (combine (fst rs) (snd rs)))
             (combine a b).

(** Values of the empirical distribution functions of the returns of a
    target and four partners, over three days. *)
Definition ecdf5 : DataFrame Q :=
  {| columns := ["T"; "A"; "B"; "C"; "D"];
     values := [[1#3; 2#3; 1#3;   1; 2#3];
                [2#3; 1#3; 2#3; 1#3;   1];
                [  1;   1;   1; 2#3; 1#3]]%Q |}.

(** Daily returns of the five stocks over the three days; their percentile
    ranks, column by column, are the values of [ecdf5]. *)
Definition returns5 : DataFrame Q :=
  {| columns := ["T"; "A"; "B"; "C"; "D"];
     values := [[ 1#100; 2#100; (-1)#100;    3#100;       0];
                [ 2#100; 1#100;        0; (-1)#100;   3#100];
                [ 3#100; 3#100;    1#100;    2#100; (-2)#100]]%Q |}.

(** A selection object over the five stocks, with the partner rows of two
    targets. *)
Definition top5 : list (string * list string) :=
  [("T", ["A"; "B"; "C"; "D"]); ("A", ["T"; "B"; "C"; "D"])].

Definition selection5 : Selection :=
  {| returns := returns5;
     ranked_returns := ecdf5;
     correlation_matrix := corr5;
     top_50_correlations := top5;
     all_quadruples := _generate_all_quadruples top5 |}.

(** The same selection before any return has been observed. *)
Definition selection5_no_rows : Selection :=
  {| returns := {| columns := columns returns5; values := [] |};
     ranked_returns := {| columns := columns ecdf5; values := [] |};
     correlation_matrix := corr5;
     top_50_correlations := top5;
     all_quadruples := _generate_all_quadruples top5 |}.

(** The extremal measure of a quadruple of [selection5] against the identity
    matrix. *)
Definition measure5 (quadruple : list string) : Q :=
  match select_columns ecdf5 quadruple with
  | Ok u =>
      match extremal_measure u (identity 16) with
      | Ok (Some m) => m
      | _ => 0%Q
      end
  | Raise _ => 0%Q
  end.

End Examples.

(* ================================================================== *)
(** * Properties *)
(* ================================================================== *)

(** ** itertools.combinations *)

Section Combinations.
Context {A : Type}.
Implicit Types (pool : list A) (r : nat).

Lemma combinations_zero pool : combinations pool 0 = [[]].
Proof. destruct pool; reflexivity. Qed.

Lemma combinations_length pool : forall r,
  length (combinations pool r) = comb (length pool) r.
Proof.
  induction pool as [|x rest IH]; intros [|r]; simpl; try reflexivity.
  rewrite length_app, length_map, !IH. reflexivity.
Qed.

Lemma combinations_size pool : forall r c,
  In c (combinations pool r) -> length c = r.
Proof.
  induction pool as [|x rest IH]; intros [|r] c; simpl; try tauto.
  - intros [<-|[]]. reflexivity.
  - intros [<-|[]]. reflexivity.
  - rewrite in_app_iff, in_map_iff. intros [(t & <- & Ht)|Hc].
    + simpl. f_equal. eauto.
    + eauto.
Qed.

Lemma combinations_incl pool : forall r c,
  In c (combinations pool r) -> incl c pool.
Proof.
  induction pool as [|x rest IH]; intros [|r] c; simpl; try tauto.
  - intros [<-|[]]. apply incl_nil_l.
  - intros [<-|[]]. apply incl_nil_l.
  - rewrite in_app_iff, in_map_iff. intros [(t & <- & Ht)|Hc].
    + apply incl_cons; [now left|]. apply incl_tl. eauto.
    + apply incl_tl. eauto.
Qed.

Lemma combinations_NoDup_each pool : NoDup pool -> forall r c,
  In c (combinations pool r) -> NoDup c.
Proof.
  induction 1 as [|x rest Hx Hnd IH]; intros [|r] c; simpl; try tauto.
  - intros [<-|[]]. constructor.
  - intros [<-|[]]. constructor.
  - rewrite in_app_iff, in_map_iff. intros [(t & <- & Ht)|Hc].
    + constructor; [|eauto]. intro Hin. apply Hx.
      eapply combinations_incl; eauto.
    + eauto.
Qed.

Lemma NoDup_map_cons (x : A) (ls : list (list A)) :
  NoDup ls -> NoDup (map (cons x) ls).
Proof.
  induction 1 as [|c ls Hc Hnd IH]; simpl; constructor; auto.
  rewrite in_map_iff. intros (c' & Heq & Hin). inversion Heq; subst. auto.
Qed.

Lemma combinations_NoDup pool : NoDup pool -> forall r,
  NoDup (combinations pool r).
Proof.
  induction 1 as [|x rest Hx Hnd IH]; intros [|r]; simpl.
  - repeat constructor; auto.
  - constructor.
  - repeat constructor; auto.
  - apply NoDup_app.
    + apply NoDup_map_cons, IH.
    + apply IH.
    + intros c Hc1 Hc2. apply in_map_iff in Hc1 as (t & <- & _).
      apply combinations_incl in Hc2. apply Hx, Hc2. now left.
Qed.

End Combinations.

Lemma combinations_map {A B} (f : A -> B) (pool : list A) : forall r,
  combinations (map f pool) r = map (map f) (combinations pool r).
Proof.
  induction pool as [|x rest IH]; intros [|r]; simpl; try reflexivity.
  rewrite map_app, map_map, !IH, map_map. reflexivity.
Qed.

(** Combinations of an increasing list of indices. *)

Lemma combinations_increasing (pool : list nat) :
  StronglySorted lt pool -> forall r c,
  In c (combinations pool r) -> StronglySorted lt c.
Proof.
  induction 1 as [|x rest Hs IH Hx]; intros [|r] c; simpl; try tauto.
  - intros [<-|[]]. constructor.
  - intros [<-|[]]. constructor.
  - rewrite in_app_iff, in_map_iff. intros [(t & <- & Ht)|Hc].
    + constructor; [eauto|].
      rewrite Forall_forall in *. intros y Hy. apply Hx.
      eapply combinations_incl; eauto.
    + eauto.
Qed.

Lemma lex_sorted_map_cons (x : nat) (l : list (list nat)) :
  StronglySorted lex_lt l -> StronglySorted lex_lt (map (cons x) l).
Proof.
  induction 1 as [|c cs Hcs IHcs Hc]; simpl; constructor; auto.
  rewrite Forall_forall in Hc |- *. intros c' Hc'.
  apply in_map_iff in Hc' as (t & <- & Ht). apply lex_lt_tail; auto.
Qed.

Lemma combinations_lex_sorted (pool : list nat) :
  StronglySorted lt pool -> forall r,
  StronglySorted lex_lt (combinations pool r).
Proof.
  induction 1 as [|x rest Hs IH Hx]; intros [|r]; simpl.
  - repeat constructor.
  - constructor.
  - repeat constructor.
  - specialize (IH r) as IHr. specialize (IH (S r)) as IHSr.
    assert (Hleft : StronglySorted lex_lt (map (cons x) (combinations rest r)))
      by apply lex_sorted_map_cons, IHr.
    assert (Hcross : forall c1 c2, In c1 (map (cons x) (combinations rest r)) ->
                                   In c2 (combinations rest (S r)) -> lex_lt c1 c2).
    { intros c1 c2 H1 H2. apply in_map_iff in H1 as (t & <- & _).
      pose proof (combinations_size _ _ _ H2) as Hlen.
      pose proof (combinations_incl _ _ _ H2) as Hincl.
      destruct c2 as [|y c2]; [discriminate|].
      apply lex_lt_head. rewrite Forall_forall in Hx. apply Hx, Hincl. now left. }
    revert Hleft Hcross. generalize (map (cons x) (combinations rest r)) as l1.
    induction l1 as [|c l1 IHl1]; simpl; intros Hl Hc; auto.
    inversion Hl as [|? ? Hl1 Hfa]; subst. constructor.
    + apply IHl1; auto.
    + apply Forall_app; split; auto.
      rewrite Forall_forall. intros c2 Hin2. apply Hc; auto.
Qed.

Lemma combinations_exhaustive (pool : list nat) : forall c,
  StronglySorted lt c -> incl c pool -> StronglySorted lt pool ->
  In c (combinations pool (List.length c)).
Proof.
  induction pool as [|x rest IH]; intros c Hc Hincl Hp.
  - destruct c as [|y c]; [now left|]. exfalso. apply (Hincl y). now left.
  - destruct c as [|y c]; [now left|]. simpl.
    inversion Hp as [|? ? Hrest Hx]; subst.
    inversion Hc as [|? ? Hc' Hy]; subst.
    rewrite in_app_iff, in_map_iff.
    assert (Htail : incl c rest).
    { intros z Hz. destruct (Hincl z (or_intror Hz)) as [<-|Hin]; auto.
      exfalso. rewrite Forall_forall in Hx, Hy.
      specialize (Hy _ Hz).
      destruct (Hincl y (or_introl eq_refl)) as [<-|Hin]; [lia|].
      specialize (Hx _ Hin). lia. }
    destruct (Hincl y (or_introl eq_refl)) as [<-|Hin].
    + left. exists c. split; auto.
    + right. apply (IH (y :: c)); auto.
      intros z [<-|Hz]; auto.
Qed.

Lemma StronglySorted_seq : forall n s, StronglySorted lt (seq s n).
Proof.
  induction n as [|n IH]; intros s; simpl; constructor; auto.
  rewrite Forall_forall. intros y Hy. apply in_seq in Hy. lia.
Qed.

Lemma map_nth_seq0 {A} (d : A) (l : list A) :
  map (fun i => nth i l d) (seq 0 (List.length l)) = l.
Proof.
  induction l as [|a l IH]; simpl; [reflexivity|].
  f_equal. rewrite <- seq_shift, map_map. exact IH.
Qed.

Lemma map_nth_seq1 {A} (d a : A) (l : list A) :
  map (fun i => nth i (a :: l) d) (seq 1 (List.length l)) = l.
Proof.
  rewrite <- seq_shift, map_map. simpl. apply map_nth_seq0.
Qed.

(** ** List indexing *)

Lemma nth_map_lt {A B} (f : A -> B) (l : list A) k d d' :
  k < List.length l -> nth k (map f l) d = f (nth k l d').
Proof.
  intros Hk. rewrite (nth_indep _ d (f d')) by (rewrite length_map; exact Hk).
  apply map_nth.
Qed.

Lemma nth_map_seq {B} (f : nat -> B) m k d :
  k < m -> nth k (map f (seq 0 m)) d = f k.
Proof.
  intros Hk. rewrite (nth_map_lt f (seq 0 m) d 0) by (rewrite length_seq; exact Hk).
  rewrite seq_nth by exact Hk. reflexivity.
Qed.

Lemma nth_map_combine_seq {A B} (F : nat * A -> B) (l : list A) k d d' :
  k < List.length l ->
  nth k (map F (combine (seq 0 (List.length l)) l)) d = F (k, nth k l d').
Proof.
  intros Hk.
  rewrite (nth_map_lt F _ d (0, d'))
    by (rewrite length_combine, length_seq, Nat.min_id; exact Hk).
  rewrite combine_nth by apply length_seq.
  rewrite seq_nth by exact Hk. reflexivity.
Qed.

Lemma map_via_positions {A B} (G : A -> B) (d : A) (l : list A) :
  map G l = map (fun i => G (nth i l d)) (seq 0 (List.length l)).
Proof.
  rewrite <- (map_map (fun i => nth i l d) G), map_nth_seq0. reflexivity.
Qed.

(** ** Sum of correlations *)

Import PartnerSelectionUtils Direct.

Lemma Qltb_lt a b : Qltb a b = true <-> (a < b)%Q.
Proof.
  unfold Qltb. rewrite negb_true_iff, <- not_true_iff_false, Qle_bool_iff.
  split; [apply Qnot_le_lt | apply Qlt_not_le].
Qed.

Lemma Qltb_ge a b : Qltb a b = false <-> (b <= a)%Q.
Proof.
  unfold Qltb. rewrite negb_false_iff. apply Qle_bool_iff.
Qed.

Lemma Qsum_app l1 l2 : (Qsum (l1 ++ l2) == Qsum l1 + Qsum l2)%Q.
Proof.
  induction l1 as [|x l1 IH]; simpl; [ring | rewrite IH; ring].
Qed.

Lemma Qsum_map_ext {A} (f g : A -> Q) (l : list A) :
  (forall x, In x l -> (f x == g x)%Q) -> (Qsum (map f l) == Qsum (map g l))%Q.
Proof.
  induction l as [|x l IH]; intros H; simpl; [reflexivity|].
  rewrite (H x) by now left. rewrite IH; [reflexivity|].
  intros y Hy. apply H. now right.
Qed.

Lemma Qsum_map_plus {A} (f g : A -> Q) (l : list A) :
  (Qsum (map (fun x => f x + g x) l) == Qsum (map f l) + Qsum (map g l))%Q.
Proof.
  induction l as [|x l IH]; simpl; [ring | rewrite IH; ring].
Qed.

Lemma combinations_one {A} (l : list A) : combinations l 1 = map (fun x => [x]) l.
Proof.
  induction l as [|x l IH]; simpl; [reflexivity|].
  rewrite combinations_zero, IH. reflexivity.
Qed.

(** The all-pairs expansion: over a symmetric array with unit diagonal, the sum
    over all ordered pairs of positions counts every unordered pair twice and
    every position once. *)
Lemma all_pairs_expansion (M : list (list Q)) (q : list nat) :
  (forall a b, In a q -> In b q -> (entry M a b == entry M b a)%Q) ->
  (forall a, In a q -> (entry M a a == 1)%Q) ->
  (Qsum (map (fun a => Qsum (map (fun b => entry M a b) q)) q)
   == inject_Z (Z.of_nat (List.length q)) + 2 * sum_of_pairwise_correlations M q)%Q.
Proof.
  unfold sum_of_pairwise_correlations.
  induction q as [|x q IH]; intros Hsym Hdiag.
  - simpl. ring.
  - cbn [map Qsum fold_right].
    change (fold_right Qplus 0%Q) with Qsum.
    assert (Hrows : (Qsum (map (fun a => Qsum (map (fun b => entry M a b) (x :: q))) q)
                     == Qsum (map (fun a => entry M x a) q)
                        + Qsum (map (fun a => Qsum (map (fun b => entry M a b) q)) q))%Q).
    { cbn [map Qsum fold_right]. change (fold_right Qplus 0%Q) with Qsum.
      rewrite Qsum_map_plus. apply Qplus_comp; [|reflexivity].
      apply Qsum_map_ext. intros a Ha. apply Hsym; simpl; auto. }
    rewrite Hrows, IH by (intros; first [apply Hsym | apply Hdiag]; simpl; auto).
    rewrite (Hdiag x) by (simpl; auto).
    cbn [combinations]. rewrite combinations_one, map_app, !map_map, Qsum_app.
    cbn [List.length]. rewrite Nat2Z.inj_succ, <- Z.add_1_r, inject_Z_plus.
    change (inject_Z 1) with 1%Q. ring.
Qed.

(** What the broadcast indexing and the sum over axes 0 and 2 leave at
    position [k]: the sum over all ordered pairs of the [k]-th combination. *)
Lemma corr_sums_vectorized_nth (df : DataFrame Q) (combos : list (list nat)) k :
  k < List.length combos ->
  (forall q, In q combos -> List.length q = shape_last combos) ->
  (forall q j, In q combos -> In j q -> j < nrows df) ->
  let q := nth k combos [] in
  nth k (corr_sums_vectorized df combos) 0%Q
  = ((Qsum (map (fun a => Qsum (map (fun b => entry (values df) a b) q)) q)
      - inject_Z (Z.of_nat (shape_last combos))) / 2)%Q.
Proof.
  intros Hk Hshape Hrows q.
  assert (Hq : In q combos) by (apply nth_In; exact Hk).
  unfold corr_sums_vectorized, sum_axes_0_2.
  rewrite map_map, nth_map_seq by exact Hk.
  f_equal. f_equal. f_equal.
  unfold take_along_axis0, transpose. rewrite !map_map.
  rewrite <- (Hshape q Hq).
  transitivity (map (fun i => Qsum (map (fun b => entry (values df) (nth i q 0) b) q))
                    (seq 0 (List.length q)));
    [| symmetry;
       apply (map_via_positions (fun a => Qsum (map (fun b => entry (values df) a b) q)))].
  apply map_ext_in. intros i Hi. apply in_seq in Hi.
  f_equal.
  rewrite (nth_map_combine_seq _ _ [] 0) by (rewrite length_map; exact Hk).
  cbn [fst snd].
  rewrite (nth_map_lt _ combos 0 []) by exact Hk. fold q.
  unfold take_columns.
  assert (Hr : nth i q 0 < List.length (values df)).
  { apply (Hrows q); [exact Hq | apply nth_In; lia]. }
  rewrite (nth_map_lt _ (values df) [] []) by exact Hr.
  rewrite (nth_map_lt _ combos [] []) by exact Hk. fold q.
  reflexivity.
Qed.

(** [np.argmax] returns the first position of the maximum. *)
Lemma argmax_from_correct : forall (l pre : list Q) (bi : nat) (b : Q) (i : nat),
  i = List.length pre ->
  b = nth bi pre 0%Q ->
  bi < List.length pre ->
  (forall j, j < List.length pre -> (nth j pre 0 <= b)%Q) ->
  (forall j, j < bi -> (nth j pre 0 < b)%Q) ->
  argmax_from bi b i l < List.length (pre ++ l)
  /\ (forall j, j < List.length (pre ++ l) ->
        (nth j (pre ++ l) 0 <= nth (argmax_from bi b i l) (pre ++ l) 0)%Q)
  /\ (forall j, j < argmax_from bi b i l ->
        (nth j (pre ++ l) 0 < nth (argmax_from bi b i l) (pre ++ l) 0)%Q).
Proof.
  induction l as [|x l IH]; intros pre bi b i Hi Hb Hbi Hmax Hfirst;
    cbn [argmax_from].
  - rewrite app_nil_r, <- Hb. auto.
  - assert (Happ : pre ++ x :: l = (pre ++ [x]) ++ l)
      by (rewrite <- app_assoc; reflexivity).
    assert (Hlen : List.length (pre ++ [x]) = S (List.length pre))
      by (rewrite length_app; simpl; lia).
    assert (Hold : forall j, j < List.length pre ->
                             nth j (pre ++ [x]) 0%Q = nth j pre 0%Q)
      by (intros; apply app_nth1; assumption).
    assert (Hnew : nth (List.length pre) (pre ++ [x]) 0%Q = x)
      by (rewrite app_nth2, Nat.sub_diag by lia; reflexivity).
    rewrite Happ. destruct (Qltb b x) eqn:Hcmp.
    + apply Qltb_lt in Hcmp.
      apply (IH (pre ++ [x]) i x (S i)); subst i.
      * lia.
      * symmetry. exact Hnew.
      * lia.
      * intros j Hj.
        destruct (Nat.eq_dec j (List.length pre)) as [->|Hne].
        -- rewrite Hnew. apply Qle_refl.
        -- rewrite Hold by lia. apply Qlt_le_weak.
           eapply Qle_lt_trans; [apply Hmax; lia | exact Hcmp].
      * intros j Hj. rewrite Hold by lia.
        eapply Qle_lt_trans; [apply Hmax; lia | exact Hcmp].
    + apply Qltb_ge in Hcmp.
      apply (IH (pre ++ [x]) bi b (S i)); subst i.
      * lia.
      * rewrite Hold by lia. exact Hb.
      * lia.
      * intros j Hj.
        destruct (Nat.eq_dec j (List.length pre)) as [->|Hne].
        -- rewrite Hnew. exact Hcmp.
        -- rewrite Hold by lia. apply Hmax. lia.
      * intros j Hj. rewrite Hold by lia. apply Hfirst. exact Hj.
Qed.

Lemma argmax_correct (l : list Q) :
  l <> [] ->
  exists k, argmax l = Some k
    /\ k < List.length l
    /\ (forall j, j < List.length l -> (nth j l 0 <= nth k l 0)%Q)
    /\ (forall j, j < k -> (nth j l 0 < nth k l 0)%Q).
Proof.
  destruct l as [|x l]; [congruence|]. intros _.
  exists (argmax_from 0 x 1 l). split; [reflexivity|].
  apply (@argmax_from_correct l [x] 0 x 1); simpl; try reflexivity.
  - lia.
  - intros [|j] Hj; [apply Qle_refl | lia].
  - intros j Hj. lia.
Qed.

Lemma in_bounds_true n idx :
  in_bounds n idx = true <-> (forall q j, In q idx -> In j q -> j < n).
Proof.
  unfold in_bounds. rewrite forallb_forall. split.
  - intros H q j Hq Hj. specialize (H q Hq). rewrite forallb_forall in H.
    apply Nat.ltb_lt, H, Hj.
  - intros H q Hq. apply forallb_forall. intros j Hj. apply Nat.ltb_lt. eauto.
Qed.

(** C1. On a correlation sub-matrix (square, symmetric, unit diagonal) and
    quadruples of column positions, the vectorized score [(raw - d) / 2], d = 4,
    of every candidate is the direct sum of its 6 pairwise correlations, and
    [get_sum_correlations_vectorized] returns the labels of a candidate whose
    score is the maximum over all candidates, together with that score. *)
Theorem sum_correlations_vectorized_direct
        (data_subset : DataFrame Q) (combos : list (list nat)) (n : nat) :
  ncols data_subset = n ->
  nrows data_subset = n ->
  Forall (fun row => List.length row = n) (values data_subset) ->
  (forall i j, i < n -> j < n ->
     (entry (values data_subset) i j == entry (values data_subset) j i)%Q) ->
  (forall i, i < n -> (entry (values data_subset) i i == 1)%Q) ->
  combos <> [] ->
  (forall q, In q combos -> List.length q = 4 /\ Forall (fun j => j < n) q) ->
  (forall k, k < List.length combos ->
     (nth k (corr_sums_vectorized data_subset combos) 0
      == sum_of_pairwise_correlations (values data_subset) (nth k combos []))%Q)
  /\ exists k quad score,
       get_sum_correlations_vectorized data_subset combos
       = Ok (map (fun j => nth j (columns data_subset) "") quad, score)
       /\ nth_error combos k = Some quad
       /\ (score == sum_of_pairwise_correlations (values data_subset) quad)%Q
       /\ (forall q, In q combos ->
             (sum_of_pairwise_correlations (values data_subset) q <= score)%Q).
Proof.
  intros Hcols Hrows _ Hsym Hdiag Hne Hquads.
  assert (Hidx : forall q j, In q combos -> In j q -> j < n).
  { intros q j Hq Hj. destruct (Hquads q Hq) as [_ Hall].
    rewrite Forall_forall in Hall. auto. }
  assert (Hd : shape_last combos = 4).
  { destruct combos as [|q0 rest]; [congruence|]. apply (Hquads q0). now left. }
  assert (Hscore : forall k, k < List.length combos ->
            (nth k (corr_sums_vectorized data_subset combos) 0
             == sum_of_pairwise_correlations (values data_subset) (nth k combos []))%Q).
  { intros k Hk.
    assert (Hq : In (nth k combos []) combos) by (apply nth_In; exact Hk).
    rewrite corr_sums_vectorized_nth.
    - rewrite all_pairs_expansion by (intros; first [apply Hsym | apply Hdiag]; eauto).
      rewrite Hd, (proj1 (Hquads _ Hq)). field.
    - exact Hk.
    - intros q Hq'. rewrite Hd. apply (Hquads q Hq').
    - rewrite Hrows. exact Hidx. }
  split; [exact Hscore|].
  assert (Hlen : List.length (corr_sums_vectorized data_subset combos)
                 = List.length combos).
  { unfold corr_sums_vectorized, sum_axes_0_2.
    rewrite !length_map, length_seq. reflexivity. }
  destruct (@argmax_correct (corr_sums_vectorized data_subset combos))
    as (k & Harg & Hk & Hmax & _).
  { intros Hnil. apply Hne, length_zero_iff_nil. rewrite <- Hlen, Hnil. reflexivity. }
  rewrite Hlen in Hk, Hmax.
  exists k, (nth k combos []), (nth k (corr_sums_vectorized data_subset combos) 0%Q).
  repeat match goal with |- _ /\ _ => split end.
  - unfold get_sum_correlations_vectorized.
    destruct combos as [|q0 rest] eqn:Hc; [congruence|]. rewrite <- Hc in *.
    rewrite Hcols, Hrows, (proj2 (in_bounds_true n combos) Hidx). cbn [negb].
    rewrite Harg. reflexivity.
  - apply nth_error_nth'. exact Hk.
  - apply Hscore, Hk.
  - intros q Hq. destruct (In_nth _ _ [] Hq) as (j & Hj & <-).
    rewrite <- (Hscore j Hj). apply Hmax, Hj.
Qed.

Lemma sum_correlations_vectorized_direct_witness :
  exists k quad score,
    get_sum_correlations_vectorized Examples.corr5
      (PartnerSelection._prepare_combinations_of_partners (columns Examples.corr5))
    = Ok (map (fun j => nth j (columns Examples.corr5) "") quad, score)
    /\ nth_error
         (PartnerSelection._prepare_combinations_of_partners (columns Examples.corr5))
         k = Some quad
    /\ (score == sum_of_pairwise_correlations (values Examples.corr5) quad)%Q
    /\ (forall q,
          In q (PartnerSelection._prepare_combinations_of_partners
                  (columns Examples.corr5)) ->
          (sum_of_pairwise_correlations (values Examples.corr5) q <= score)%Q).
Proof.
  refine (proj2 (@sum_correlations_vectorized_direct Examples.corr5
                   (PartnerSelection._prepare_combinations_of_partners
                      (columns Examples.corr5)) 5 _ _ _ _ _ _ _)).
  - reflexivity.
  - reflexivity.
  - repeat constructor.
  - intros i j Hi Hj.
    do 5 (destruct i as [|i];
          [do 5 (destruct j as [|j]; [vm_compute; reflexivity|]); lia|]).
    lia.
  - intros i Hi.
    do 5 (destruct i as [|i]; [vm_compute; reflexivity|]). lia.
  - discriminate.
  - intros q Hq. vm_compute in Hq.
    repeat (destruct Hq as [<-|Hq]; [split; [reflexivity | repeat constructor]|]).
    destruct Hq.
Defined.
(** ** Candidate generation *)

Import PartnerSelection.

(** The two enumerations agree: a quadruple of tickers is the index quadruple
    at the same position, read through [stock_selection = target :: partners]. *)
Lemma quadruples_of_index_combinations (target : string) (partners : list string) :
  _generate_all_quadruples_helper {| name := target; items := partners |}
  = map (map (fun i => nth i (target :: partners) ""))
        (_prepare_combinations_of_partners (target :: partners)).
Proof.
  unfold _generate_all_quadruples_helper, _prepare_combinations_of_partners.
  cbn [name items List.length]. rewrite Nat.sub_succ, Nat.sub_0_r.
  rewrite map_map.
  rewrite <- (map_nth_seq1 "" target partners) at 1.
  rewrite combinations_map, map_map. reflexivity.
Qed.

Lemma NoDup_three {A} (a b c : A) :
  NoDup [a; b; c] -> a <> b /\ a <> c /\ b <> c.
Proof.
  intros H. inversion H as [|? ? Ha H']; subst.
  inversion H' as [|? ? Hb _]; subst.
  simpl in Ha, Hb. repeat split; intros ->; tauto.
Qed.

(** C2. A target with 50 distinct partners gets C(50,3) = 19600 quadruples,
    each the target followed by three distinct partners, none repeated, in the
    lexicographic order of the index triples 1 <= i < j < k <= 50, all of which
    occur. *)
Theorem candidate_generation_50 (target : string) (partners : list string) :
  NoDup partners -> List.length partners = 50 ->
  let quadruples :=
    _generate_all_quadruples_helper {| name := target; items := partners |} in
  let combos := _prepare_combinations_of_partners (target :: partners) in
  Z.of_nat (List.length quadruples) = 19600%Z
  /\ Z.of_nat (List.length combos) = 19600%Z
  /\ NoDup quadruples
  /\ NoDup combos
  /\ (forall q, In q quadruples ->
        exists a b c, q = [target; a; b; c]
          /\ In a partners /\ In b partners /\ In c partners
          /\ a <> b /\ a <> c /\ b <> c)
  /\ (forall comb, In comb combos <->
        exists i j k, comb = [0; i; j; k] /\ 1 <= i /\ i < j /\ j < k /\ k <= 50)
  /\ StronglySorted lex_lt combos
  /\ quadruples = map (map (fun i => nth i (target :: partners) "")) combos.
Proof.
  intros Hnd Hlen quadruples combos.
  assert (Hcombos : combos = map (cons 0) (combinations (seq 1 50) 3)).
  { unfold combos, _prepare_combinations_of_partners.
    cbn [List.length]. rewrite Nat.sub_succ, Nat.sub_0_r, Hlen. reflexivity. }
  assert (Hquads : quadruples = map (cons target) (combinations partners 3))
    by reflexivity.
  assert (Hsorted : StronglySorted lt (seq 1 50)) by apply StronglySorted_seq.
  repeat match goal with |- _ /\ _ => split end; [| | | | |split| |].
  - rewrite Hquads, length_map, combinations_length, Hlen. vm_compute. reflexivity.
  - rewrite Hcombos, length_map, combinations_length, length_seq.
    vm_compute. reflexivity.
  - rewrite Hquads. apply NoDup_map_cons, combinations_NoDup, Hnd.
  - rewrite Hcombos. apply NoDup_map_cons, combinations_NoDup, seq_NoDup.
  - intros q Hq. rewrite Hquads in Hq. apply in_map_iff in Hq as (t & <- & Ht).
    pose proof (combinations_size _ _ _ Ht) as Hsz.
    pose proof (combinations_incl _ _ _ Ht) as Hincl.
    pose proof (combinations_NoDup_each Hnd _ _ Ht) as Hndt.
    destruct t as [|a [|b [|c [|? ?]]]]; try discriminate.
    exists a, b, c. split; [reflexivity|].
    destruct (NoDup_three Hndt) as (Hab & Hac & Hbc).
    repeat split; try assumption; apply Hincl; simpl; tauto.
  - intros Hin. rewrite Hcombos in Hin. apply in_map_iff in Hin as (t & <- & Ht).
    pose proof (combinations_size _ _ _ Ht) as Hsz.
    pose proof (combinations_incl _ _ _ Ht) as Hincl.
    pose proof (combinations_increasing Hsorted _ _ Ht) as Hinc.
    destruct t as [|i [|j [|k [|? ?]]]]; try discriminate.
    exists i, j, k. split; [reflexivity|].
    assert (Hi : In i (seq 1 50)) by (apply Hincl; simpl; tauto).
    assert (Hk : In k (seq 1 50)) by (apply Hincl; simpl; tauto).
    apply in_seq in Hi, Hk.
    inversion Hinc as [|? ? Hinc' Hi']; subst.
    inversion Hinc' as [|? ? _ Hj']; subst.
    inversion Hi' as [|? ? Hij _]; subst.
    inversion Hj' as [|? ? Hjk _]; subst.
    lia.
  - intros (i & j & k & -> & Hi & Hij & Hjk & Hk).
    rewrite Hcombos. apply in_map.
    apply (combinations_exhaustive (pool := seq 1 50) (c := [i; j; k])); auto.
    + repeat constructor; lia.
    + intros z [<-|[<-|[<-|[]]]]; apply in_seq; lia.
  - rewrite Hcombos. apply lex_sorted_map_cons, combinations_lex_sorted, Hsorted.
  - apply quadruples_of_index_combinations.
Qed.

Lemma candidate_generation_50_witness :
  NoDup Examples.fifty_tickers
  /\ List.length Examples.fifty_tickers = 50
  /\ Z.of_nat (List.length (_generate_all_quadruples_helper
                              {| name := "TGT"; items := Examples.fifty_tickers |}))
     = 19600%Z
  /\ NoDup (_generate_all_quadruples_helper
              {| name := "TGT"; items := Examples.fifty_tickers |}).
Proof.
  assert (Hnd : NoDup Examples.fifty_tickers).
  { replace Examples.fifty_tickers with (nodup string_dec Examples.fifty_tickers)
      by (vm_compute; reflexivity).
    apply NoDup_nodup. }
  assert (Hlen : List.length Examples.fifty_tickers = 50) by reflexivity.
  split; [exact Hnd|]. split; [exact Hlen|].
  pose proof (@candidate_generation_50 "TGT" Examples.fifty_tickers Hnd Hlen) as H.
  cbv zeta in H. split; [exact (proj1 H) | exact (proj1 (proj2 (proj2 H)))].
Defined.

(** ** Empirical CDF *)

Import CopulaCalculation.

Lemma py_clamp_bounds (e floor cap : Q) :
  (floor <= cap)%Q ->
  (floor <= py_max (py_min e cap) floor <= cap)%Q.
Proof.
  intros Hfc. unfold py_max, py_min.
  destruct (Qle_bool e cap) eqn:Hec;
    [apply Qle_bool_iff in Hec | ].
  - destruct (Qle_bool floor e) eqn:Hfe.
    + apply Qle_bool_iff in Hfe. split; assumption.
    + split; [apply Qle_refl | exact Hfc].
  - destruct (Qle_bool floor cap) eqn:Hfc'.
    + split; [exact Hfc | apply Qle_refl].
    + split; [apply Qle_refl | exact Hfc].
Qed.

Lemma mapM_Ok_Forall2 {A B} (f : A -> result B) (l : list A) (g : A -> B) :
  (forall a, In a l -> f a = Ok (g a)) -> mapM f l = Ok (map g l).
Proof.
  induction l as [|a l IH]; intros H; simpl; [reflexivity|].
  rewrite (H a) by now left. simpl. rewrite IH; [reflexivity|].
  intros b Hb. apply H. now right.
Qed.

(** C6. For a non-empty sample and [prob_floor <= prob_cap] (the defaults are
    1e-5 and 0.99999), the function [find_marginal_cdf] returns maps every query
    point to a value between the floor and the cap, applied to a scalar or,
    element by element with the same values, to an array of query points. *)
Theorem find_marginal_cdf_bounded (x : list Q) (kwargs : list (string * Q)) :
  x <> [] ->
  let prob_floor := kwargs_get kwargs "prob_floor" (1 # 100000)%Q in
  let prob_cap := kwargs_get kwargs "prob_cap" (99999 # 100000)%Q in
  (prob_floor <= prob_cap)%Q ->
  exists cdf,
    find_marginal_cdf x true kwargs = Some cdf
    /\ (forall data, exists v,
          cdf (Scalar data) = Ok (Scalar v) /\ (prob_floor <= v <= prob_cap)%Q)
    /\ (forall datas, datas <> [] -> exists vs,
          cdf (Array datas) = Ok (Array vs)
          /\ Forall2 (fun data v => cdf (Scalar data) = Ok (Scalar v)) datas vs
          /\ Forall (fun v => (prob_floor <= v <= prob_cap)%Q) vs).
Proof.
  intros Hx prob_floor prob_cap Hfc.
  destruct x as [|x0 x']; [congruence|].
  eexists. split; [reflexivity|].
  set (e := fun data =>
              (inject_Z (Z.of_nat (List.length
                 (filter (fun xi => Qle_bool xi data) (x0 :: x'))))
               / inject_Z (Z.of_nat (List.length (x0 :: x'))))%Q).
  set (g := fun data => py_max (py_min (e data) prob_cap) prob_floor).
  split.
  - intros data. exists (g data). split; [reflexivity|].
    apply py_clamp_bounds, Hfc.
  - intros datas Hne. exists (map g datas).
    destruct datas as [|d0 ds]; [congruence|].
    split; [|split].
    + unfold np_vectorize.
      rewrite (mapM_Ok_Forall2 _ (d0 :: ds) g) by (intros; reflexivity).
      reflexivity.
    + generalize (d0 :: ds). intros l.
      induction l as [|d l IH]; simpl; constructor; auto.
    + apply Forall_forall. intros v Hv. apply in_map_iff in Hv as (d & <- & _).
      apply py_clamp_bounds, Hfc.
Qed.

Lemma find_marginal_cdf_bounded_witness :
  exists cdf,
    find_marginal_cdf [3#10; -1#5; 7#10]%Q true [] = Some cdf
    /\ (forall data, exists v,
          cdf (Scalar data) = Ok (Scalar v)
          /\ (1 # 100000 <= v <= 99999 # 100000)%Q)
    /\ (forall datas, datas <> [] -> exists vs,
          cdf (Array datas) = Ok (Array vs)
          /\ Forall2 (fun data v => cdf (Scalar data) = Ok (Scalar v)) datas vs
          /\ Forall (fun v => (1 # 100000 <= v <= 99999 # 100000)%Q) vs).
Proof.
  apply (@find_marginal_cdf_bounded [3#10; -1#5; 7#10]%Q []).
  - discriminate.
  - vm_compute. discriminate.
Defined.

(** C10. With [empirical=False], [find_marginal_cdf] returns [None] whatever
    the sample and the floor and cap settings. *)
Theorem find_marginal_cdf_not_empirical (x : list Q) (kwargs : list (string * Q)) :
  find_marginal_cdf x false kwargs = None.
Proof. reflexivity. Qed.

(** ** Akaike information criterion *)

Lemma float_overflow_large : (2 ^ 501 < float_overflow)%Z.
Proof. reflexivity. Qed.

Lemma int_true_div_zero (a : Z) : int_true_div a 0 = Raise ZeroDivisionError.
Proof. reflexivity. Qed.

Lemma int_true_div_overflow (a b : Z) :
  b <> 0%Z -> (float_overflow * Z.abs b <= Z.abs a)%Z ->
  int_true_div a b = Raise OverflowError.
Proof.
  intros Hb H. unfold int_true_div.
  rewrite (proj2 (Z.eqb_neq _ _) Hb), (proj2 (Z.leb_le _ _) H). reflexivity.
Qed.

Lemma int_true_div_value (a b : Z) :
  b <> 0%Z -> (Z.abs a < float_overflow * Z.abs b)%Z ->
  int_true_div a b = Ok (inject_Z a / inject_Z b)%Q.
Proof.
  intros Hb H. unfold int_true_div.
  rewrite (proj2 (Z.eqb_neq _ _) Hb), (proj2 (Z.leb_gt _ _) H). reflexivity.
Qed.

Lemma int_as_float_overflow (k : Z) :
  (float_overflow <= Z.abs k)%Z -> int_as_float k = Raise OverflowError.
Proof.
  intros H. unfold int_as_float. rewrite (proj2 (Z.leb_le _ _) H). reflexivity.
Qed.

Lemma int_as_float_value (k : Z) :
  (Z.abs k < float_overflow)%Z -> int_as_float k = Ok (inject_Z k).
Proof.
  intros H. unfold int_as_float. rewrite (proj2 (Z.leb_gt _ _) H). reflexivity.
Qed.

(** C4, as the code has it.  [aic] has no guard of its own.  It raises the
    [ZeroDivisionError] of the division exactly when the divisor [n - k - 1]
    is 0, and [OverflowError] exactly when the quotient [2n/(n-k-1)] or [k]
    is beyond the floats.  On every other input, also when [n - k - 1] is
    negative, it returns a value; for [n], [k] up to [2**500] and a
    log-likelihood up to [2**1000] in magnitude, where no float operation
    leaves the range, the value is [(2n/(n-k-1)) k - 2 log_likelihood]. *)
Theorem aic_raises_on_zero_divisor_or_overflow (log_likelihood : Q) (n k : Z) :
  ((n - k - 1 = 0)%Z -> aic log_likelihood n k = Raise ZeroDivisionError)
  /\ ((n - k - 1 <> 0)%Z ->
      (float_overflow * Z.abs (n - k - 1) <= Z.abs (2 * n)
       \/ float_overflow <= Z.abs k)%Z ->
      aic log_likelihood n k = Raise OverflowError)
  /\ ((n - k - 1 <> 0)%Z ->
      (Z.abs (2 * n) < float_overflow * Z.abs (n - k - 1))%Z ->
      (Z.abs k < float_overflow)%Z ->
      exists aic_value, aic log_likelihood n k = Ok aic_value)
  /\ ((n - k - 1 <> 0)%Z ->
      (Z.abs n <= 2 ^ 500)%Z -> (Z.abs k <= 2 ^ 500)%Z ->
      (- inject_Z (2 ^ 1000) <= log_likelihood
       /\ log_likelihood <= inject_Z (2 ^ 1000))%Q ->
      aic log_likelihood n k
      = Ok ((inject_Z (2 * n) / inject_Z (n - k - 1)) * inject_Z k
            - 2 * log_likelihood)%Q).
Proof.
  unfold aic. repeat match goal with |- _ /\ _ => split end.
  - intros H. rewrite H. reflexivity.
  - intros Hd [Hq|Hk].
    + rewrite (@int_true_div_overflow _ _ Hd Hq). reflexivity.
    + destruct (Z_lt_le_dec (Z.abs (2 * n)) (float_overflow * Z.abs (n - k - 1)))
        as [Hq|Hq].
      * rewrite (@int_true_div_value _ _ Hd Hq), (@int_as_float_overflow _ Hk). reflexivity.
      * rewrite (@int_true_div_overflow _ _ Hd Hq). reflexivity.
  - intros Hd Hq Hk.
    rewrite (@int_true_div_value _ _ Hd Hq), (@int_as_float_value _ Hk).
    eexists. reflexivity.
  - intros Hd Hn Hk _.
    pose proof float_overflow_large as Hbig.
    assert (H501 : (2 ^ 501 = 2 * 2 ^ 500)%Z) by reflexivity.
    assert (Hpos : (0 < 2 ^ 500)%Z) by reflexivity.
    rewrite int_true_div_value, int_as_float_value; [reflexivity | | exact Hd |].
    + generalize dependent (2 ^ 500)%Z. generalize dependent (2 ^ 501)%Z.
      intros. lia.
    + assert (H1 : (1 <= Z.abs (n - k - 1))%Z) by lia.
      assert (H2 : (Z.abs (2 * n) <= 2 ^ 501)%Z).
      { rewrite Z.abs_mul, H501. change (Z.abs 2) with 2%Z.
        generalize dependent (2 ^ 500)%Z. intros. lia. }
      assert (H3 : (float_overflow * 1 <= float_overflow * Z.abs (n - k - 1))%Z).
      { apply Z.mul_le_mono_nonneg_l; [|exact H1].
        generalize dependent (2 ^ 501)%Z. intros. lia. }
      generalize dependent (2 ^ 501)%Z. intros. lia.
Qed.

(** [n = 1], [k = 1] has [n - k - 1 = -1 <= 0], yet [aic] returns a value. *)
Lemma aic_negative_divisor_returns :
  (1 - 1 - 1 <= 0)%Z
  /\ exists v, aic (-5)%Q 1 1 = Ok v /\ (v == 8)%Q.
Proof.
  split; [lia|]. eexists. split; [vm_compute; reflexivity|].
  vm_compute. reflexivity.
Qed.

(** The example of the specification, [n = 2], [k = 1]: the division raises. *)
Lemma aic_spec_example : aic (-5)%Q 2 1 = Raise ZeroDivisionError.
Proof. reflexivity. Qed.

(** A number of parameters beyond the floats: the conversion of [k] raises. *)
Lemma aic_overflow_example : aic (-5)%Q 3 (10 ^ 400) = Raise OverflowError.
Proof. vm_compute. reflexivity. Qed.

(** ** Empirical CDF: shape of the returned function *)

Lemma filter_length_mono {A} (f g : A -> bool) (l : list A) :
  (forall a, In a l -> f a = true -> g a = true) ->
  List.length (filter f l) <= List.length (filter g l).
Proof.
  induction l as [|a l IH]; intros H; simpl; [lia|].
  assert (IH' : List.length (filter f l) <= List.length (filter g l))
    by (apply IH; intros; apply H; simpl; auto).
  destruct (f a) eqn:Hf.
  - rewrite (H a (or_introl eq_refl) Hf). simpl. lia.
  - destruct (g a); simpl; lia.
Qed.

Lemma filter_none {A} (f : A -> bool) (l : list A) :
  (forall a, In a l -> f a = false) -> filter f l = [].
Proof.
  induction l as [|a l IH]; intros H; simpl; [reflexivity|].
  rewrite (H a) by now left. apply IH. intros; apply H; now right.
Qed.

Lemma filter_all {A} (f : A -> bool) (l : list A) :
  (forall a, In a l -> f a = true) -> filter f l = l.
Proof.
  induction l as [|a l IH]; intros H; simpl; [reflexivity|].
  rewrite (H a) by now left. f_equal. apply IH. intros; apply H; now right.
Qed.

Lemma Qdiv_nat_le (a b n : nat) :
  a <= b -> 0 < n ->
  (inject_Z (Z.of_nat a) / inject_Z (Z.of_nat n)
   <= inject_Z (Z.of_nat b) / inject_Z (Z.of_nat n))%Q.
Proof.
  intros Hab Hn. unfold Qdiv. apply Qmult_le_compat_r.
  - rewrite <- Zle_Qle. lia.
  - apply Qinv_le_0_compat. change 0%Q with (inject_Z 0). rewrite <- Zle_Qle. lia.
Qed.

Ltac case_Qle a b :=
  let H := fresh "H" in
  destruct (Qle_bool a b) eqn:H;
  [apply Qle_bool_iff in H
  |apply not_true_iff_false in H; rewrite Qle_bool_iff in H].

Lemma py_clamp_mono (e1 e2 floor cap : Q) :
  (e1 <= e2)%Q ->
  (py_max (py_min e1 cap) floor <= py_max (py_min e2 cap) floor)%Q.
Proof.
  intros He. unfold py_max, py_min.
  case_Qle e1 cap; case_Qle e2 cap;
    repeat match goal with
           | |- context [Qle_bool ?a ?b] => case_Qle a b
           end; Lqa.lra.
Qed.

Lemma py_clamp_at_zero (e floor cap : Q) :
  (e == 0)%Q -> (0 <= floor)%Q -> (floor <= cap)%Q ->
  (py_max (py_min e cap) floor == floor)%Q.
Proof.
  intros He H0 Hfc. unfold py_max, py_min.
  case_Qle e cap; [|Lqa.lra]. case_Qle floor e; Lqa.lra.
Qed.

Lemma py_clamp_at_one (e floor cap : Q) :
  (e == 1)%Q -> (floor <= cap)%Q -> (cap <= 1)%Q ->
  (py_max (py_min e cap) floor == cap)%Q.
Proof.
  intros He Hfc H1. unfold py_max, py_min.
  case_Qle e cap.
  - case_Qle floor e; Lqa.lra.
  - case_Qle floor cap; Lqa.lra.
Qed.

Lemma find_marginal_cdf_scalar (x : list Q) (kwargs : list (string * Q)) cdf data :
  find_marginal_cdf x true kwargs = Some cdf ->
  cdf (Scalar data)
  = (e <- ECDF x data ;;
     Ok (Scalar (py_max (py_min e (kwargs_get kwargs "prob_cap" (99999 # 100000)%Q))
                        (kwargs_get kwargs "prob_floor" (1 # 100000)%Q)))).
Proof.
  unfold find_marginal_cdf. intros [= <-]. simpl.
  destruct (ECDF x data); reflexivity.
Qed.

Lemma ECDF_nonempty (x : list Q) (data : Q) :
  x <> [] ->
  ECDF x data
  = Ok (inject_Z (Z.of_nat (List.length (filter (fun xi => Qle_bool xi data) x)))
        / inject_Z (Z.of_nat (List.length x)))%Q.
Proof. destruct x; [congruence | reflexivity]. Qed.

(** X1. The function returned by [find_marginal_cdf] is non-decreasing: a larger
    query point never gets a smaller value, whatever the floor and the cap. *)
Theorem find_marginal_cdf_monotone
        (x : list Q) (kwargs : list (string * Q)) cdf (d1 d2 v1 v2 : Q) :
  find_marginal_cdf x true kwargs = Some cdf ->
  cdf (Scalar d1) = Ok (Scalar v1) ->
  cdf (Scalar d2) = Ok (Scalar v2) ->
  (d1 <= d2)%Q ->
  (v1 <= v2)%Q.
Proof.
  intros Hcdf H1 H2 Hd.
  rewrite (find_marginal_cdf_scalar d1 Hcdf) in H1.
  rewrite (find_marginal_cdf_scalar d2 Hcdf) in H2.
  assert (Hx : x <> []) by (intros ->; discriminate).
  rewrite (ECDF_nonempty d1 Hx) in H1. rewrite (ECDF_nonempty d2 Hx) in H2.
  cbn [bind] in H1, H2.
  assert (E1 := f_equal (fun r => match r with
                                  | Ok (Scalar v) => v
                                  | _ => 0%Q
                                  end) H1).
  assert (E2 := f_equal (fun r => match r with
                                  | Ok (Scalar v) => v
                                  | _ => 0%Q
                                  end) H2).
  cbv beta iota in E1, E2. rewrite <- E1, <- E2.
  apply py_clamp_mono, Qdiv_nat_le;
    [|destruct x; [congruence | simpl; lia]].
  apply filter_length_mono. intros a _ Ha.
  apply Qle_bool_iff in Ha. apply Qle_bool_iff. Lqa.lra.
Qed.

Lemma find_marginal_cdf_monotone_witness :
  exists cdf v1 v2,
    find_marginal_cdf [3#10; -1#5; 7#10]%Q true [] = Some cdf
    /\ cdf (Scalar 0%Q) = Ok (Scalar v1)
    /\ cdf (Scalar (1#2)%Q) = Ok (Scalar v2)
    /\ (v1 <= v2)%Q.
Proof.
  eexists. eexists. eexists.
  split; [reflexivity|]. split; [reflexivity|]. split; [reflexivity|].
  eapply (@find_marginal_cdf_monotone [3#10; -1#5; 7#10]%Q [] _ 0%Q (1#2)%Q);
    [reflexivity | reflexivity | reflexivity | vm_compute; discriminate].
Defined.

(** X2. With [0 <= prob_floor <= prob_cap <= 1], the returned function is the
    floor at a query point below every observation and the cap at a query point
    that no observation exceeds. *)
Theorem find_marginal_cdf_extremes (x : list Q) (kwargs : list (string * Q)) :
  x <> [] ->
  let prob_floor := kwargs_get kwargs "prob_floor" (1 # 100000)%Q in
  let prob_cap := kwargs_get kwargs "prob_cap" (99999 # 100000)%Q in
  (0 <= prob_floor)%Q -> (prob_floor <= prob_cap)%Q -> (prob_cap <= 1)%Q ->
  exists cdf,
    find_marginal_cdf x true kwargs = Some cdf
    /\ (forall data, (forall xi, In xi x -> (data < xi)%Q) ->
          exists v, cdf (Scalar data) = Ok (Scalar v) /\ (v == prob_floor)%Q)
    /\ (forall data, (forall xi, In xi x -> (xi <= data)%Q) ->
          exists v, cdf (Scalar data) = Ok (Scalar v) /\ (v == prob_cap)%Q).
Proof.
  intros Hx prob_floor prob_cap H0 Hfc H1.
  destruct x as [|x0 x']; [congruence|].
  eexists. split; [reflexivity|].
  assert (Hlen : (0 < inject_Z (Z.of_nat (List.length (x0 :: x'))))%Q).
  { change 0%Q with (inject_Z 0). rewrite <- Zlt_Qlt. simpl. lia. }
  split.
  - intros data Hbelow. eexists. split; [reflexivity|].
    assert (Hnone : filter (fun xi => Qle_bool xi data) (x0 :: x') = []).
    { apply filter_none. intros xi Hxi.
      apply not_true_iff_false. rewrite Qle_bool_iff.
      apply Qlt_not_le, Hbelow, Hxi. }
    rewrite Hnone. cbn [List.length Z.of_nat].
    set (e := (inject_Z 0 / inject_Z (Z.of_nat (S (List.length x'))))%Q).
    assert (He : (e == 0)%Q) by (unfold e, Qdiv; apply Qmult_0_l).
    apply py_clamp_at_zero; assumption.
  - intros data Habove. eexists. split; [reflexivity|].
    assert (Hall : filter (fun xi => Qle_bool xi data) (x0 :: x') = x0 :: x').
    { apply filter_all. intros xi Hxi. apply Qle_bool_iff, Habove, Hxi. }
    rewrite Hall.
    set (e := (inject_Z (Z.of_nat (List.length (x0 :: x')))
               / inject_Z (Z.of_nat (List.length (x0 :: x'))))%Q).
    assert (He : (e == 1)%Q).
    { unfold e. apply Qmult_inv_r. intros Heq. rewrite Heq in Hlen.
      apply (Qlt_irrefl _ Hlen). }
    apply py_clamp_at_one; assumption.
Qed.

Lemma find_marginal_cdf_extremes_witness :
  exists cdf,
    find_marginal_cdf [3#10; -1#5; 7#10]%Q true [] = Some cdf
    /\ (forall data, (forall xi, In xi [3#10; -1#5; 7#10]%Q -> (data < xi)%Q) ->
          exists v, cdf (Scalar data) = Ok (Scalar v) /\ (v == 1 # 100000)%Q)
    /\ (forall data, (forall xi, In xi [3#10; -1#5; 7#10]%Q -> (xi <= data)%Q) ->
          exists v, cdf (Scalar data) = Ok (Scalar v) /\ (v == 99999 # 100000)%Q).
Proof.
  apply (@find_marginal_cdf_extremes [3#10; -1#5; 7#10]%Q []).
  - discriminate.
  - vm_compute. discriminate.
  - vm_compute. discriminate.
  - vm_compute. discriminate.
Defined.

(** X3. On an empty sample [find_marginal_cdf] still returns a function: the
    ECDF is only built when that function is called, and then every call on a
    scalar or a non-empty array raises [ZeroDivisionError]; a call on an empty
    array raises [ValueError] for every sample. *)
Theorem find_marginal_cdf_empty_sample (kwargs : list (string * Q)) :
  exists cdf,
    find_marginal_cdf [] true kwargs = Some cdf
    /\ (forall data, cdf (Scalar data) = Raise ZeroDivisionError)
    /\ (forall d datas, cdf (Array (d :: datas)) = Raise ZeroDivisionError)
    /\ (forall x cdf', find_marginal_cdf x true kwargs = Some cdf' ->
                       cdf' (Array []) = Raise ValueError).
Proof.
  eexists. split; [reflexivity|]. split; [|split].
  - intros data. reflexivity.
  - intros d datas. reflexivity.
  - intros x cdf'. unfold find_marginal_cdf. intros [= <-]. reflexivity.
Qed.


(** ** Maximum-likelihood fit *)

Lemma np_sum_acc_NaN (l : list float64) : fold_left f64_add l NaN = NaN.
Proof. induction l as [|v l IH]; simpl; auto. Qed.

Lemma np_sum_acc_NegInf (l : list float64) :
  fold_left f64_add l NegInf = NegInf \/ fold_left f64_add l NegInf = NaN.
Proof.
  induction l as [|v l IH]; simpl; [now left|].
  destruct v; simpl; auto using np_sum_acc_NaN.
Qed.

Lemma np_sum_In_NaN (l : list float64) : forall acc,
  In NaN l -> fold_left f64_add l acc = NaN.
Proof.
  induction l as [|v l IH]; intros acc; simpl; [tauto|].
  intros [->|Hin]; [|auto].
  replace (f64_add acc NaN) with NaN by (destruct acc; reflexivity).
  apply np_sum_acc_NaN.
Qed.

Lemma np_sum_In_NegInf (l : list float64) : forall acc,
  In NegInf l ->
  fold_left f64_add l acc = NegInf \/ fold_left f64_add l acc = NaN.
Proof.
  induction l as [|v l IH]; intros acc; simpl; [tauto|].
  intros [->|Hin]; [|auto].
  destruct acc; simpl; auto using np_sum_acc_NaN, np_sum_acc_NegInf.
Qed.

Lemma np_log_negative r : (r < 0)%R -> np_log (Finite r) = NaN.
Proof.
  intros Hr. simpl. destruct (Rlt_dec 0 r); [lra|].
  destruct (Rlt_dec r 0); [reflexivity | lra].
Qed.

Lemma np_log_zero : np_log (Finite 0) = NegInf.
Proof.
  simpl. destruct (Rlt_dec 0 0); [lra|]. reflexivity.
Qed.

(** C3, as the code has it.  Once a model is fitted, [log_ml] returns the sum
    of [np.log] of the densities at the data pairs together with the model and
    raises nothing: a negative density makes the sum NaN, a zero density makes
    it minus infinity (or NaN). *)
Theorem log_ml_returns_sum_of_logs
        (stats : Stats) (switch : Switcher) (x y : list R)
        (copula_name : string) (nu : option R) (my_copula : Copula) :
  log_ml_fit stats switch x y copula_name nu = Ok (Some my_copula) ->
  let likelihood_list := map (fun p => c my_copula (fst p) (snd p)) (combine x y) in
  log_ml stats switch x y copula_name nu
  = Ok (np_sum (map np_log likelihood_list), my_copula)
  /\ ((exists r, In (Finite r) likelihood_list /\ (r < 0)%R) ->
      np_sum (map np_log likelihood_list) = NaN)
  /\ (In (Finite 0) likelihood_list ->
      np_sum (map np_log likelihood_list) = NegInf
      \/ np_sum (map np_log likelihood_list) = NaN).
Proof.
  intros Hfit likelihood_list. unfold log_ml. rewrite Hfit. cbn [bind].
  split; [reflexivity|]. split.
  - intros (r & Hin & Hr). apply np_sum_In_NaN.
    rewrite <- (np_log_negative Hr). apply in_map, Hin.
  - intros Hin. apply np_sum_In_NegInf.
    rewrite <- np_log_zero. apply in_map, Hin.
Qed.

(** *** A discordant sample *)

Lemma sign_lt a b : (a < b)%R -> Examples.sign a b = 1%Z.
Proof.
  intros H. unfold Examples.sign. destruct (Rlt_dec a b); [reflexivity | lra].
Qed.

Lemma sign_gt a b : (b < a)%R -> Examples.sign a b = (-1)%Z.
Proof.
  intros H. unfold Examples.sign. destruct (Rlt_dec a b); [lra|].
  destruct (Rlt_dec b a); [reflexivity | lra].
Qed.

Lemma kendall_tau_b_discordant :
  Examples.kendall_tau_b [3/5; 4/5]%R [9/10; 7/10]%R = Ok (Finite (-1)).
Proof.
  unfold Examples.kendall_tau_b. cbn -[Examples.sign].
  rewrite (@sign_lt (3/5) (4/5)) by lra.
  rewrite (@sign_gt (9/10) (7/10)) by lra.
  cbn. rewrite Rmult_1_r, sqrt_1. do 2 f_equal. lra.
Qed.

Lemma log_ml_fit_discordant_clayton :
  log_ml_fit Examples.stats Examples.catalogue
             [3/5; 4/5]%R [9/10; 7/10]%R "Clayton" None
  = Ok (Some (Examples.clayton (Some (-1)%R))).
Proof.
  unfold log_ml_fit, ml_theta_hat.
  cbn [existsb theta_copula_names String.eqb Ascii.eqb Bool.eqb orb].
  cbn [kendalltau Examples.stats]. rewrite kendall_tau_b_discordant. cbn.
  do 4 f_equal. field.
Qed.

Lemma clayton_minus_one_density u v :
  c (Examples.clayton (Some (-1)%R)) u v = Finite 0.
Proof.
  simpl. f_equal. unfold Rdiv. replace (1 + -1)%R with 0%R by lra.
  rewrite !Rmult_0_l. reflexivity.
Qed.

Lemma log_ml_returns_sum_of_logs_witness :
  log_ml Examples.stats Examples.catalogue [3/5; 4/5]%R [9/10; 7/10]%R "Clayton" None
  = Ok (np_sum (map np_log
                  (map (fun p => c (Examples.clayton (Some (-1)%R)) (fst p) (snd p))
                       (combine [3/5; 4/5]%R [9/10; 7/10]%R))),
        Examples.clayton (Some (-1)%R)).
Proof.
  exact (proj1 (@log_ml_returns_sum_of_logs
                  Examples.stats Examples.catalogue [3/5; 4/5]%R [9/10; 7/10]%R
                  "Clayton" None (Examples.clayton (Some (-1)%R))
                  log_ml_fit_discordant_clayton)).
Defined.

(** On this sample the fitted Clayton density is 0 at both data pairs, and
    [log_ml] returns minus infinity with the model. *)
Lemma log_ml_zero_density_returns :
  c (Examples.clayton (Some (-1)%R)) (3/5)%R (9/10)%R = Finite 0
  /\ c (Examples.clayton (Some (-1)%R)) (4/5)%R (7/10)%R = Finite 0
  /\ log_ml Examples.stats Examples.catalogue
            [3/5; 4/5]%R [9/10; 7/10]%R "Clayton" None
     = Ok (NegInf, Examples.clayton (Some (-1)%R)).
Proof.
  split; [apply clayton_minus_one_density|].
  split; [apply clayton_minus_one_density|].
  unfold log_ml. rewrite log_ml_fit_discordant_clayton. cbn [bind].
  cbn [combine map fst snd]. rewrite !clayton_minus_one_density, np_log_zero.
  reflexivity.
Qed.

(** C5, as the code has it.  [ml_theta_hat] checks no family name: for every
    name it returns the [theta_hat] of the model the catalogue builds from the
    dud covariance, at Kendall's tau, and raises only what [kendalltau] or the
    catalogue raises. *)
Theorem ml_theta_hat_any_family
        (stats : Stats) (switch : Switcher) (x y : list R) (copula_name : string) :
  let dud := {| kw_theta := None; kw_cov := Some [[1; 0]; [0; 1]]%R; kw_nu := None |} in
  (forall tau my_copula,
      kendalltau stats x y = Ok tau ->
      choose_copula switch copula_name dud = Ok my_copula ->
      ml_theta_hat stats switch x y copula_name = Ok (theta_hat my_copula tau))
  /\ (forall e,
        ml_theta_hat stats switch x y copula_name = Raise e ->
        kendalltau stats x y = Raise e
        \/ choose_copula switch copula_name dud = Raise e).
Proof.
  intros dud. unfold ml_theta_hat. fold dud. split.
  - intros tau my_copula -> ->. reflexivity.
  - intros e. destruct (kendalltau stats x y) as [tau|e1]; cbn [bind].
    + destruct (choose_copula switch copula_name dud) as [cop|e2]; cbn [bind].
      * discriminate.
      * intros [= ->]. now right.
    + intros [= ->]. now left.
Qed.

(** With a catalogue that has the Gaussian family, the tau path fits it. *)
Lemma ml_theta_hat_fits_gaussian :
  ml_theta_hat Examples.stats Examples.catalogue
               [3/5; 4/5]%R [9/10; 7/10]%R "Gaussian"
  = Ok (Finite (-1)).
Proof.
  unfold ml_theta_hat. cbn [kendalltau Examples.stats].
  rewrite kendall_tau_b_discordant. cbn [bind].
  cbn [choose_copula Examples.catalogue String.eqb Ascii.eqb Bool.eqb kw_cov].
  unfold Examples.is_identity.
  destruct (Req_dec_T 1 1); [|lra]. destruct (Req_dec_T 0 0); [|lra].
  cbn. do 2 f_equal.
  replace (-1 * PI / 2)%R with (- (PI / 2))%R by lra.
  rewrite sin_neg, sin_PI2. reflexivity.
Qed.

(** ** Information criteria *)

(** X4. For the same [n] and [k], [aic] decreases as the log-likelihood grows:
    the difference of two AIC values is twice the difference of the
    log-likelihoods, the other way round. *)
Theorem aic_decreasing (ll1 ll2 : Q) (n k : Z) (v1 v2 : Q) :
  aic ll1 n k = Ok v1 ->
  aic ll2 n k = Ok v2 ->
  (v1 - v2 == 2 * (ll2 - ll1))%Q /\ ((ll1 <= ll2)%Q -> (v2 <= v1)%Q).
Proof.
  unfold aic.
  destruct (int_true_div (2 * n) (n - k - 1)) as [quotient|e]; [|discriminate].
  destruct (int_as_float k) as [k_float|e]; [|discriminate].
  cbn [bind]. intros [= <-] [= <-]. split; [ring | intros H; Lqa.lra].
Qed.

Lemma aic_decreasing_witness :
  exists v1 v2,
    aic (-5)%Q 10 1 = Ok v1 /\ aic (-3)%Q 10 1 = Ok v2
    /\ (v1 - v2 == 2 * (-3 - -5))%Q.
Proof.
  eexists. eexists. split; [vm_compute; reflexivity|].
  split; [vm_compute; reflexivity|].
  refine (proj1 (@aic_decreasing (-5)%Q (-3)%Q 10 1 _ _ _ _));
    vm_compute; reflexivity.
Defined.

Lemma ln_pos_of_gt_1 (r : R) : (1 < r)%R -> (0 < ln r)%R.
Proof. intros H. rewrite <- ln_1. apply ln_increasing; lra. Qed.

Lemma np_log_positive r : (0 < r)%R -> np_log (Finite r) = Finite (ln r).
Proof. intros H. simpl. destruct (Rlt_dec 0 r); [reflexivity | lra]. Qed.

Lemma IZR_ge_1 (n : Z) : (1 <= n)%Z -> (1 <= IZR n)%R.
Proof. intros H. apply IZR_le in H. exact H. Qed.

Lemma np_log_int_out_of_range (n : Z) :
  (n < - 2 ^ 63 \/ 2 ^ 64 <= n)%Z -> np_log_int n = Raise TypeError.
Proof.
  intros H. unfold np_log_int.
  destruct (Z.leb_spec (- 2 ^ 63) n) as [Hlo|Hlo]; [|reflexivity].
  destruct (Z.ltb_spec n (2 ^ 64)) as [Hhi|Hhi]; [|reflexivity].
  exfalso. apply (Z.lt_irrefl n). destruct H as [H|H].
  - exact (Z.lt_le_trans _ _ _ H Hlo).
  - exact (Z.lt_le_trans _ _ _ Hhi H).
Qed.

Lemma np_log_int_in_range (n : Z) :
  (- 2 ^ 63 <= n)%Z -> (n < 2 ^ 64)%Z ->
  np_log_int n = Ok (np_log (Finite (IZR n))).
Proof.
  intros Hlo Hhi. unfold np_log_int.
  rewrite (proj2 (Z.leb_le _ _) Hlo), (proj2 (Z.ltb_lt _ _) Hhi). reflexivity.
Qed.

Lemma float64_of_int_overflow (k : Z) :
  (float_overflow <= Z.abs k)%Z -> float64_of_int k = Raise OverflowError.
Proof.
  intros H. unfold float64_of_int. rewrite (proj2 (Z.leb_le _ _) H). reflexivity.
Qed.

Lemma float64_of_int_small (k : Z) :
  (Z.abs k < 2 ^ 63)%Z -> float64_of_int k = Ok (Finite (IZR k)).
Proof.
  intros H. unfold float64_of_int.
  assert (Hlt : (Z.abs k < float_overflow)%Z).
  { eapply Z.lt_trans; [exact H | reflexivity]. }
  rewrite (proj2 (Z.leb_gt _ _) Hlt). reflexivity.
Qed.

Lemma minus_2_63_neg : (- 2 ^ 63 < 0)%Z.
Proof. reflexivity. Qed.

(** X5. [sic] raises [TypeError] on an [n] outside 64 bits ([np.log] of a
    Python int that numpy cannot take as an int64 or uint64) and otherwise
    [OverflowError] on a [k] beyond the floats.  For [n] of 64 bits, [k] of 63
    bits and a log-likelihood up to [2**1000] in magnitude, where no float
    operation leaves the range, it raises nothing: for [n >= 1] it is the
    finite value [ln(n) k - 2 log_likelihood], for [n = 0] and [k >= 1] minus
    infinity, for [n < 0] NaN; on the minus infinity that a zero density
    leaves in the log-likelihood it is plus infinity for [n >= 1]. *)
Theorem sic_values (log_likelihood : float64) (ll : R) (n k : Z) :
  ((n < - 2 ^ 63 \/ 2 ^ 64 <= n)%Z -> sic log_likelihood n k = Raise TypeError)
  /\ ((- 2 ^ 63 <= n < 2 ^ 64)%Z -> (float_overflow <= Z.abs k)%Z ->
      sic log_likelihood n k = Raise OverflowError)
  /\ ((Z.abs k < 2 ^ 63)%Z -> (Rabs ll <= 2 ^ 1000)%R ->
      ((1 <= n < 2 ^ 64)%Z ->
       sic (Finite ll) n k = Ok (Finite (ln (IZR n) * IZR k - 2 * ll)))
      /\ (n = 0%Z -> (1 <= k)%Z -> sic (Finite ll) n k = Ok NegInf)
      /\ ((- 2 ^ 63 <= n < 0)%Z -> sic (Finite ll) n k = Ok NaN))
  /\ ((Z.abs k < 2 ^ 63)%Z -> (1 <= n < 2 ^ 64)%Z ->
      sic NegInf n k = Ok PosInf).
Proof.
  pose proof minus_2_63_neg as Hneg.
  unfold sic. repeat match goal with |- _ /\ _ => split end.
  - intros Hn. rewrite (@np_log_int_out_of_range _ Hn). reflexivity.
  - intros [Hlo Hhi] Hk.
    rewrite (@np_log_int_in_range _ Hlo Hhi), (@float64_of_int_overflow _ Hk).
    reflexivity.
  - intros Hk _. repeat match goal with |- _ /\ _ => split end.
    + intros [Hn Hhi]. pose proof (IZR_ge_1 Hn).
      rewrite np_log_int_in_range, (@float64_of_int_small _ Hk);
        [| generalize dependent (- 2 ^ 63)%Z; intros; lia | exact Hhi].
      cbn [bind]. rewrite np_log_positive by lra. simpl. do 2 f_equal; lra.
    + intros -> Hk1.
      rewrite np_log_int_in_range, (@float64_of_int_small _ Hk);
        [| generalize dependent (- 2 ^ 63)%Z; intros; lia | reflexivity].
      cbn [bind]. rewrite np_log_zero. apply IZR_ge_1 in Hk1.
      simpl. unfold inf_times.
      destruct (Rlt_dec 0 (IZR k)); [reflexivity | lra].
    + intros [Hlo Hn].
      rewrite np_log_int_in_range, (@float64_of_int_small _ Hk);
        [| exact Hlo | eapply Z.lt_trans; [exact Hn | reflexivity]].
      cbn [bind]. apply IZR_lt in Hn. rewrite np_log_negative by exact Hn.
      reflexivity.
  - intros Hk [Hn Hhi]. pose proof (IZR_ge_1 Hn).
    rewrite np_log_int_in_range, (@float64_of_int_small _ Hk);
      [| generalize dependent (- 2 ^ 63)%Z; intros; lia | exact Hhi].
    cbn [bind]. rewrite np_log_positive by lra. simpl. unfold inf_times.
    destruct (Rlt_dec 0 2); [reflexivity | lra].
Qed.

(** X6. [hqic] raises [TypeError] on an [n] outside 64 bits and otherwise
    [OverflowError] on a [k] beyond the floats, like [sic].  For [n] of 64
    bits, [k] of 63 bits and a log-likelihood up to [2**1000] in magnitude it
    raises nothing and is finite only from [n = 2] on, where it is
    [2 ln(ln n) k - 2 log_likelihood]; at [n = 1] it is minus infinity for
    [k >= 1], since ln(1) = 0, and for [n <= 0] it is NaN. *)
Theorem hqic_values (log_likelihood : float64) (ll : R) (n k : Z) :
  ((n < - 2 ^ 63 \/ 2 ^ 64 <= n)%Z -> hqic log_likelihood n k = Raise TypeError)
  /\ ((- 2 ^ 63 <= n < 2 ^ 64)%Z -> (float_overflow <= Z.abs k)%Z ->
      hqic log_likelihood n k = Raise OverflowError)
  /\ ((Z.abs k < 2 ^ 63)%Z -> (Rabs ll <= 2 ^ 1000)%R ->
      ((2 <= n < 2 ^ 64)%Z ->
       hqic (Finite ll) n k
       = Ok (Finite (2 * ln (ln (IZR n)) * IZR k - 2 * ll)))
      /\ (n = 1%Z -> (1 <= k)%Z -> hqic (Finite ll) n k = Ok NegInf)
      /\ ((- 2 ^ 63 <= n <= 0)%Z -> hqic (Finite ll) n k = Ok NaN)).
Proof.
  pose proof minus_2_63_neg as Hneg.
  unfold hqic. repeat match goal with |- _ /\ _ => split end.
  - intros Hn. rewrite (@np_log_int_out_of_range _ Hn). reflexivity.
  - intros [Hlo Hhi] Hk.
    rewrite (@np_log_int_in_range _ Hlo Hhi), (@float64_of_int_overflow _ Hk).
    reflexivity.
  - intros Hk _. repeat match goal with |- _ /\ _ => split end.
    + intros [Hn Hhi].
      assert (H2 : (2 <= IZR n)%R) by (apply IZR_le in Hn; exact Hn).
      rewrite np_log_int_in_range, (@float64_of_int_small _ Hk);
        [| generalize dependent (- 2 ^ 63)%Z; intros; lia | exact Hhi].
      cbn [bind]. rewrite np_log_positive by lra.
      rewrite np_log_positive by (apply ln_pos_of_gt_1; lra).
      simpl. do 2 f_equal; lra.
    + intros -> Hk1.
      rewrite np_log_int_in_range, (@float64_of_int_small _ Hk);
        [| generalize dependent (- 2 ^ 63)%Z; intros; lia | reflexivity].
      cbn [bind]. rewrite np_log_positive by lra. rewrite ln_1, np_log_zero.
      apply IZR_ge_1 in Hk1. simpl. unfold inf_times.
      destruct (Rlt_dec 0 2); [|lra]. simpl. unfold inf_times.
      destruct (Rlt_dec 0 (IZR k)); [reflexivity | lra].
    + intros [Hlo Hn].
      rewrite np_log_int_in_range, (@float64_of_int_small _ Hk);
        [| exact Hlo | eapply Z.le_lt_trans; [exact Hn | reflexivity]].
      cbn [bind]. destruct (Z.eq_dec n 0) as [->|Hne].
      * rewrite np_log_zero. reflexivity.
      * assert (Hlt : (IZR n < 0)%R) by (apply IZR_lt; lia).
        rewrite np_log_negative by exact Hlt. reflexivity.
Qed.

(** ** log_ml: which branch fits *)

(** X7. For a name that is none of the six theta families, "Gaussian" or
    "Student", [log_ml] binds no model and raises the NameError of reading
    [my_copula], whatever the data: the name is not validated. *)
Theorem log_ml_unknown_family
        (stats : Stats) (switch : Switcher) (x y : list R)
        (copula_name : string) (nu : option R) :
  ~ In copula_name theta_copula_names ->
  copula_name <> "Gaussian" ->
  copula_name <> "Student" ->
  log_ml stats switch x y copula_name nu = Raise UnboundLocalError.
Proof.
  intros Htheta Hg Hs. unfold log_ml, log_ml_fit.
  assert (H1 : existsb (String.eqb copula_name) theta_copula_names = false).
  { apply not_true_iff_false. intros H. apply existsb_exists in H as (n & Hin & Heq).
    apply String.eqb_eq in Heq. subst n. auto. }
  rewrite H1, (proj2 (String.eqb_neq _ _) Hg), (proj2 (String.eqb_neq _ _) Hs).
  reflexivity.
Qed.

Lemma log_ml_unknown_family_witness :
  log_ml Examples.stats Examples.catalogue [3/5; 4/5]%R [9/10; 7/10]%R
         "gaussian" None
  = Raise UnboundLocalError.
Proof.
  apply log_ml_unknown_family.
  - simpl. intuition discriminate.
  - discriminate.
  - discriminate.
Defined.

(** X8. For each of the six theta families [log_ml] takes the tau path only:
    the model is the one the catalogue builds at [theta = ml_theta_hat(x, y,
    name)], neither quantile function is called and [nu] is not read; an error
    of [ml_theta_hat] or of the catalogue is the result. *)
Theorem log_ml_theta_family
        (stats : Stats) (switch : Switcher) (x y : list R)
        (copula_name : string) (nu : option R) :
  In copula_name theta_copula_names ->
  log_ml stats switch x y copula_name nu
  = (theta <- ml_theta_hat stats switch x y copula_name ;;
     my_copula <- choose_copula switch copula_name
                    {| kw_theta := Some theta; kw_cov := None; kw_nu := None |} ;;
     Ok (np_sum (map np_log
                     (map (fun p => c my_copula (fst p) (snd p)) (combine x y))),
         my_copula)).
Proof.
  intros Hin. unfold log_ml, log_ml_fit.
  assert (H1 : existsb (String.eqb copula_name) theta_copula_names = true).
  { apply existsb_exists. exists copula_name. split; [exact Hin|].
    apply String.eqb_refl. }
  assert (Hg : String.eqb copula_name "Gaussian" = false).
  { apply String.eqb_neq. intros ->. simpl in Hin. intuition discriminate. }
  assert (Hs : String.eqb copula_name "Student" = false).
  { apply String.eqb_neq. intros ->. simpl in Hin. intuition discriminate. }
  rewrite H1, Hg, Hs.
  destruct (ml_theta_hat stats switch x y copula_name) as [theta|e];
    [|reflexivity].
  cbn [bind].
  destruct (choose_copula switch copula_name _) as [cop|e]; reflexivity.
Qed.

Lemma log_ml_theta_family_witness :
  log_ml Examples.stats Examples.catalogue [3/5; 4/5]%R [9/10; 7/10]%R
         "Clayton" (Some 3%R)
  = (theta <- ml_theta_hat Examples.stats Examples.catalogue
                           [3/5; 4/5]%R [9/10; 7/10]%R "Clayton" ;;
     my_copula <- choose_copula Examples.catalogue "Clayton"
                    {| kw_theta := Some theta; kw_cov := None; kw_nu := None |} ;;
     Ok (np_sum (map np_log
                     (map (fun p => c my_copula (fst p) (snd p))
                          (combine [3/5; 4/5]%R [9/10; 7/10]%R))),
         my_copula)).
Proof.
  apply log_ml_theta_family. simpl. tauto.
Defined.

(** ** Diagonal measure *)

Lemma combine_map_same {A B C} (f : A -> B) (g : A -> C) (l : list A) :
  combine (map f l) (map g l) = map (fun x => (f x, g x)) l.
Proof. induction l as [|a l IH]; simpl; [reflexivity | now rewrite IH]. Qed.

Lemma combine_diag {A} (l : list A) : combine l l = map (fun x => (x, x)) l.
Proof. induction l as [|a l IH]; simpl; [reflexivity | now rewrite IH]. Qed.

Lemma dot_self_nonneg (v : list R) : (0 <= dot v v)%R.
Proof.
  unfold dot. rewrite combine_diag, map_map. cbn [fst snd].
  induction v as [|a v IH]; simpl; [lra|]. nra.
Qed.

Lemma Rsum_nonneg (l : list R) :
  Forall (fun r => 0 <= r)%R l -> (0 <= Rsum l)%R.
Proof. induction 1; simpl; lra. Qed.

Lemma Rsum_zero (l : list R) :
  Forall (fun r => r = 0%R) l -> Rsum l = 0%R.
Proof. induction 1; simpl; lra. Qed.

(** The vectorized score of candidate [k] is the direct diagonal measure of
    the [k]-th combination. *)
Lemma distance_scores_vectorized_nth (df : DataFrame R) (combos : list (list nat)) k :
  k < List.length combos ->
  List.length (nth k combos []) = shape_last combos ->
  nth k (distance_scores_vectorized df combos) 0%R
  = diagonal_measure (values df) (nth k combos []).
Proof.
  intros Hk Hd. unfold distance_scores_vectorized, einsum_ijk_k_ji, einsum_ijk_ijk_ji.
  rewrite !map_map, combine_map_same, map_map, nth_map_seq by exact Hk.
  cbn [fst snd]. unfold diagonal_measure. f_equal.
  rewrite combine_diag, !map_map, combine_map_same, map_map.
  unfold take_columns. rewrite map_map. cbn [fst snd].
  apply map_ext. intros row.
  rewrite (nth_map_lt _ combos [] []) by exact Hk.
  unfold perpendicular_distance. rewrite length_map, Hd.
  rewrite pow2_sqrt by apply dot_self_nonneg. reflexivity.
Qed.

Lemma distance_scores_vectorized_length (df : DataFrame R) combos :
  List.length (distance_scores_vectorized df combos) = List.length combos.
Proof.
  unfold distance_scores_vectorized, einsum_ijk_k_ji, einsum_ijk_ijk_ji.
  rewrite length_map, length_combine, !length_map, length_seq.
  apply Nat.min_id.
Qed.

Lemma diagonal_measure_nonneg rows quad : (0 <= diagonal_measure rows quad)%R.
Proof.
  apply Rsum_nonneg, Forall_forall. intros r Hr.
  apply in_map_iff in Hr as (row & <- & _). apply sqrt_pos.
Qed.

Lemma norm_ones_4 : norm (repeat 1%R 4) = 2%R.
Proof.
  unfold norm, dot. simpl.
  replace (1 * 1 + (1 * 1 + (1 * 1 + (1 * 1 + 0))))%R with (2 * 2)%R by lra.
  apply sqrt_square. lra.
Qed.

(** In exact arithmetic the argument of the outer [np.sqrt] is not negative. *)
Lemma radicand_nonneg (a b c d : R) :
  let v := [a; b; c; d] in
  (0 <= sqrt (dot v v) ^ 2 - (dot v (repeat 1 4) / norm (repeat 1 4)) ^ 2)%R.
Proof.
  intros v. rewrite pow2_sqrt by apply dot_self_nonneg.
  rewrite norm_ones_4. unfold v, dot. simpl.
  pose proof (pow2_ge_0 (a - b)). pose proof (pow2_ge_0 (a - c)).
  pose proof (pow2_ge_0 (a - d)). pose proof (pow2_ge_0 (b - c)).
  pose proof (pow2_ge_0 (b - d)). pose proof (pow2_ge_0 (c - d)).
  nra.
Qed.

(** A point with four equal coordinates is at distance 0 from the diagonal. *)
Lemma perpendicular_distance_equal (a : R) :
  perpendicular_distance [a; a; a; a] = 0%R.
Proof.
  unfold perpendicular_distance. cbn [List.length]. rewrite norm_ones_4.
  unfold dot. simpl.
  replace (a * a + (a * a + (a * a + (a * a + 0)))
           - (a * 1 + (a * 1 + (a * 1 + (a * 1 + 0)))) / 2
             * ((a * 1 + (a * 1 + (a * 1 + (a * 1 + 0)))) / 2 * 1))%R
    with 0%R by field.
  apply sqrt_0.
Qed.

Lemma diagonal_measure_on_diagonal rows quad :
  List.length quad = 4 -> on_diagonal rows quad -> diagonal_measure rows quad = 0%R.
Proof.
  intros Hlen Hdiag. apply Rsum_zero, Forall_forall. intros r Hr.
  apply in_map_iff in Hr as (row & <- & Hrow).
  destruct quad as [|q0 [|q1 [|q2 [|q3 [|? ?]]]]]; try discriminate.
  cbn [map].
  rewrite <- (Hdiag row q0 q1), <- (Hdiag row q0 q2), <- (Hdiag row q0 q3)
    by (simpl; auto).
  apply perpendicular_distance_equal.
Qed.

Lemma Rsum_zero_inv (l : list R) :
  Forall (fun r => 0 <= r)%R l -> Rsum l = 0%R -> Forall (fun r => r = 0%R) l.
Proof.
  induction 1 as [|r l Hr Hl IH]; simpl; intros Hsum; constructor.
  - pose proof (Rsum_nonneg Hl). lra.
  - apply IH. pose proof (Rsum_nonneg Hl). lra.
Qed.

(** Conversely, a point at distance 0 has four equal coordinates. *)
Lemma perpendicular_distance_zero_inv (a b c d : R) :
  perpendicular_distance [a; b; c; d] = 0%R -> a = b /\ a = c /\ a = d.
Proof.
  unfold perpendicular_distance. cbn [List.length]. rewrite norm_ones_4.
  unfold dot. simpl. intros H.
  pose proof (pow2_ge_0 (a - b)). pose proof (pow2_ge_0 (a - c)).
  pose proof (pow2_ge_0 (a - d)). pose proof (pow2_ge_0 (b - c)).
  pose proof (pow2_ge_0 (b - d)). pose proof (pow2_ge_0 (c - d)).
  apply sqrt_eq_0 in H; [|nra].
  assert (Hab : ((a - b) * (a - b) = 0)%R) by nra.
  assert (Hac : ((a - c) * (a - c) = 0)%R) by nra.
  assert (Had : ((a - d) * (a - d) = 0)%R) by nra.
  apply Rmult_integral in Hab, Hac, Had.
  repeat split; lra.
Qed.

Lemma diagonal_measure_zero_inv rows quad :
  List.length quad = 4 -> diagonal_measure rows quad = 0%R -> on_diagonal rows quad.
Proof.
  intros Hlen Hzero row x y Hrow Hx Hy.
  apply Rsum_zero_inv in Hzero.
  - rewrite Forall_forall in Hzero.
    specialize (Hzero _ (in_map _ _ _ Hrow)). cbv beta in Hzero.
    destruct quad as [|q0 [|q1 [|q2 [|q3 [|? ?]]]]]; try discriminate.
    cbn [map] in Hzero.
    apply perpendicular_distance_zero_inv in Hzero as (H1 & H2 & H3).
    simpl in Hx, Hy.
    destruct Hx as [<-|[<-|[<-|[<-|[]]]]], Hy as [<-|[<-|[<-|[<-|[]]]]];
      congruence.
  - apply Forall_forall. intros r Hr.
    apply in_map_iff in Hr as (row' & <- & _). apply sqrt_pos.
Qed.

(** [np.argmin] returns the first position of the minimum. *)
Lemma argmin_from_correct : forall (l pre : list R) (bi : nat) (b : R) (i : nat),
  i = List.length pre ->
  b = nth bi pre 0%R ->
  bi < List.length pre ->
  (forall j, j < List.length pre -> (b <= nth j pre 0)%R) ->
  (forall j, j < bi -> (b < nth j pre 0)%R) ->
  argmin_from bi b i l < List.length (pre ++ l)
  /\ (forall j, j < List.length (pre ++ l) ->
        (nth (argmin_from bi b i l) (pre ++ l) 0 <= nth j (pre ++ l) 0)%R)
  /\ (forall j, j < argmin_from bi b i l ->
        (nth (argmin_from bi b i l) (pre ++ l) 0 < nth j (pre ++ l) 0)%R).
Proof.
  induction l as [|x l IH]; intros pre bi b i Hi Hb Hbi Hmin Hfirst;
    cbn [argmin_from].
  - rewrite app_nil_r, <- Hb. auto.
  - assert (Happ : pre ++ x :: l = (pre ++ [x]) ++ l)
      by (rewrite <- app_assoc; reflexivity).
    assert (Hlen : List.length (pre ++ [x]) = S (List.length pre))
      by (rewrite length_app; simpl; lia).
    assert (Hold : forall j, j < List.length pre ->
                             nth j (pre ++ [x]) 0%R = nth j pre 0%R)
      by (intros; apply app_nth1; assumption).
    assert (Hnew : nth (List.length pre) (pre ++ [x]) 0%R = x)
      by (rewrite app_nth2, Nat.sub_diag by lia; reflexivity).
    rewrite Happ. destruct (Rlt_dec x b) as [Hcmp|Hcmp].
    + apply (IH (pre ++ [x]) i x (S i)); subst i.
      * lia.
      * symmetry. exact Hnew.
      * lia.
      * intros j Hj.
        destruct (Nat.eq_dec j (List.length pre)) as [->|Hne].
        -- rewrite Hnew. lra.
        -- rewrite Hold by lia. specialize (Hmin j). assert (j < List.length pre) by lia.
           specialize (Hmin H). lra.
      * intros j Hj. rewrite Hold by lia. specialize (Hmin j Hj). lra.
    + apply (IH (pre ++ [x]) bi b (S i)); subst i.
      * lia.
      * rewrite Hold by lia. exact Hb.
      * lia.
      * intros j Hj.
        destruct (Nat.eq_dec j (List.length pre)) as [->|Hne].
        -- rewrite Hnew. lra.
        -- rewrite Hold by lia. apply Hmin. lia.
      * intros j Hj. rewrite Hold by lia. apply Hfirst. exact Hj.
Qed.

Lemma argmin_correct (l : list R) :
  l <> [] ->
  exists k, argmin l = Some k
    /\ k < List.length l
    /\ (forall j, j < List.length l -> (nth k l 0 <= nth j l 0)%R)
    /\ (forall j, j < k -> (nth k l 0 < nth j l 0)%R).
Proof.
  destruct l as [|x l]; [congruence|]. intros _.
  exists (argmin_from 0 x 1 l). split; [reflexivity|].
  apply (@argmin_from_correct l [x] 0 x 1); simpl; try reflexivity.
  - lia.
  - intros [|j] Hj; [lra | lia].
  - intros j Hj. lia.
Qed.

Lemma diagonal_measure_vectorized_returns (df : DataFrame R) combos k :
  combos <> [] ->
  in_bounds (ncols df) combos = true ->
  argmin (distance_scores_vectorized df combos) = Some k ->
  diagonal_measure_vectorized df combos
  = Ok (map (fun j => nth j (columns df) "") (nth k combos []),
        nth k (distance_scores_vectorized df combos) 0%R).
Proof.
  intros Hne Hb Harg. unfold diagonal_measure_vectorized.
  destruct combos as [|q0 rest]; [congruence|].
  rewrite Hb, Harg. reflexivity.
Qed.

(** C8, as the code has it.  When the rows of a candidate quadruple all lie on
    the hyper-diagonal, its summed distance is 0, the minimum; the scorer
    returns score 0 with the first candidate in enumeration order whose score is
    0, a quadruple that lies on the diagonal too, and it is that quadruple when
    no earlier candidate scores 0. *)
Theorem diagonal_measure_zero_on_diagonal
        (data_subset : DataFrame R) (combos : list (list nat)) (k : nat)
        (quad : list nat) :
  (forall q, In q combos ->
     List.length q = 4 /\ Forall (fun j => j < ncols data_subset) q) ->
  nth_error combos k = Some quad ->
  on_diagonal (values data_subset) quad ->
  let scores := distance_scores_vectorized data_subset combos in
  nth k scores 0%R = 0%R
  /\ (forall j, j < List.length combos -> (0 <= nth j scores 0)%R)
  /\ exists k' winner,
       diagonal_measure_vectorized data_subset combos
       = Ok (map (fun j => nth j (columns data_subset) "") winner, 0%R)
       /\ nth_error combos k' = Some winner
       /\ k' <= k
       /\ nth k' scores 0%R = 0%R
       /\ on_diagonal (values data_subset) winner
       /\ (forall j, j < k' -> (0 < nth j scores 0)%R)
       /\ ((forall j, j < k -> nth j scores 0%R <> 0%R) -> k' = k /\ winner = quad).
Proof.
  intros Hquads Hk Hdiag scores.
  assert (Hklt : k < List.length combos)
    by (apply nth_error_Some; rewrite Hk; discriminate).
  assert (Hnth : nth k combos [] = quad) by (apply nth_error_nth; exact Hk).
  assert (Hd : shape_last combos = 4).
  { destruct combos as [|q0 rest]; [simpl in Hklt; lia|].
    apply (Hquads q0). now left. }
  assert (Hscore : forall j, j < List.length combos ->
            nth j scores 0%R = diagonal_measure (values data_subset) (nth j combos [])).
  { intros j Hj. apply distance_scores_vectorized_nth; [exact Hj|].
    rewrite Hd. apply Hquads, nth_In, Hj. }
  assert (Hnonneg : forall j, j < List.length combos -> (0 <= nth j scores 0)%R).
  { intros j Hj. rewrite (Hscore j Hj). apply diagonal_measure_nonneg. }
  assert (Hzero : nth k scores 0%R = 0%R).
  { rewrite (Hscore k Hklt), Hnth. apply diagonal_measure_on_diagonal; [|exact Hdiag].
    apply (Hquads quad). rewrite <- Hnth. apply nth_In, Hklt. }
  split; [exact Hzero|]. split; [exact Hnonneg|].
  assert (Hlen : List.length scores = List.length combos)
    by apply distance_scores_vectorized_length.
  destruct (@argmin_correct scores) as (k' & Harg & Hk' & Hmin & Hfirst).
  { intros Hnil. rewrite Hnil in Hlen. simpl in Hlen. lia. }
  rewrite Hlen in Hk', Hmin.
  assert (Hzero' : nth k' scores 0%R = 0%R).
  { pose proof (Hmin k Hklt). pose proof (Hnonneg k' Hk'). lra. }
  assert (Hle : k' <= k).
  { destruct (Nat.le_gt_cases k' k) as [Hle|Hgt]; [exact Hle|].
    pose proof (Hfirst k Hgt). lra. }
  exists k', (nth k' combos []).
  repeat match goal with |- _ /\ _ => split end.
  - rewrite <- Hzero'. apply diagonal_measure_vectorized_returns.
    + intros Hnil. rewrite Hnil in Hklt. simpl in Hklt. lia.
    + apply in_bounds_true. intros q j Hq Hj.
      destruct (Hquads q Hq) as [_ Hall]. rewrite Forall_forall in Hall. auto.
    + exact Harg.
  - apply nth_error_nth'. exact Hk'.
  - exact Hle.
  - exact Hzero'.
  - apply diagonal_measure_zero_inv.
    + apply Hquads, nth_In, Hk'.
    + rewrite <- (Hscore k' Hk'). exact Hzero'.
  - intros j Hj. pose proof (Hfirst j Hj). lra.
  - intros Hnone.
    assert (k' = k).
    { destruct (Nat.eq_dec k' k) as [Heq|Hne]; [exact Heq|].
      exfalso. apply (Hnone k'); [lia | exact Hzero']. }
    subst k'. split; [reflexivity | exact Hnth].
Qed.

Lemma ranks5_on_diagonal quad :
  Forall (fun j => j < 5) quad -> on_diagonal (values Examples.ranks5) quad.
Proof.
  intros Hall row a b Hrow Ha Hb. rewrite Forall_forall in Hall.
  apply Hall in Ha, Hb. simpl in Hrow.
  destruct Hrow as [<-|[<-|[]]];
    do 5 (destruct a as [|a]; [do 5 (destruct b as [|b]; [reflexivity|]); lia|]);
    lia.
Qed.

Lemma diagonal_measure_zero_on_diagonal_witness :
  nth 0 (distance_scores_vectorized Examples.ranks5
           (PartnerSelection._prepare_combinations_of_partners
              (columns Examples.ranks5))) 0%R = 0%R.
Proof.
  refine (proj1 (@diagonal_measure_zero_on_diagonal Examples.ranks5
                   (PartnerSelection._prepare_combinations_of_partners
                      (columns Examples.ranks5)) 0 [0; 1; 2; 3] _ _ _)).
  - intros q Hq. vm_compute in Hq.
    repeat (destruct Hq as [<-|Hq];
            [split; [reflexivity | repeat constructor]|]).
    destruct Hq.
  - reflexivity.
  - apply ranks5_on_diagonal. repeat constructor.
Defined.

Lemma ranks5_scores :
  distance_scores_vectorized Examples.ranks5
    (PartnerSelection._prepare_combinations_of_partners (columns Examples.ranks5))
  = [0; 0; 0; 0]%R.
Proof.
  apply (nth_ext _ _ 0%R 0%R).
  - rewrite distance_scores_vectorized_length. reflexivity.
  - rewrite distance_scores_vectorized_length. intros j Hj.
    rewrite distance_scores_vectorized_nth by
      (try exact Hj; do 4 (destruct j as [|j]; [reflexivity|]); simpl in Hj; lia).
    rewrite diagonal_measure_on_diagonal.
    + do 4 (destruct j as [|j]; [reflexivity|]). simpl in Hj. lia.
    + do 4 (destruct j as [|j]; [reflexivity|]). simpl in Hj. lia.
    + apply ranks5_on_diagonal.
      do 4 (destruct j as [|j]; [repeat constructor|]). simpl in Hj. lia.
Qed.

(** With five columns of equal ranks every candidate lies on the diagonal;
    the quadruple (T, B, C, D) scores 0 and the scorer returns (T, A, B, C). *)
Lemma diagonal_measure_tie_returns_first :
  let combos :=
    PartnerSelection._prepare_combinations_of_partners (columns Examples.ranks5) in
  nth_error combos 3 = Some [0; 2; 3; 4]
  /\ on_diagonal (values Examples.ranks5) [0; 2; 3; 4]
  /\ map (fun j => nth j (columns Examples.ranks5) "") [0; 2; 3; 4]
     = ["T"; "B"; "C"; "D"]
  /\ nth 3 (distance_scores_vectorized Examples.ranks5 combos) 0%R = 0%R
  /\ diagonal_measure_vectorized Examples.ranks5 combos
     = Ok (["T"; "A"; "B"; "C"], 0%R).
Proof.
  intros combos. split; [reflexivity|].
  split; [apply ranks5_on_diagonal; repeat constructor|].
  split; [reflexivity|].
  split; [unfold combos; rewrite ranks5_scores; reflexivity|].
  unfold combos.
  rewrite (@diagonal_measure_vectorized_returns Examples.ranks5 _ 0).
  - rewrite ranks5_scores. reflexivity.
  - discriminate.
  - reflexivity.
  - rewrite ranks5_scores. simpl. destruct (Rlt_dec 0 0); [lra|].
    reflexivity.
Qed.

(** ** Covariance matrix of the extremal measure *)

(** On the flag tuples of the loop the integrand is a number at every point:
    [func] is only called with flags 1 and 2. *)
Lemma variance_integral_func_defined (l1 l2 : flags) (u1 u2 u3 u4 : Q) :
  In l1 product_1_2 -> In l2 product_1_2 ->
  exists v, variance_integral_func u1 u2 u3 u4 l1 l2 = Ok v.
Proof.
  intros H1 H2. simpl in H1, H2.
  repeat (destruct H1 as [<-|H1]; [|]); try contradiction;
    repeat (destruct H2 as [<-|H2]; [|]); try contradiction;
      eexists; reflexivity.
Qed.

(** The filled and mirrored array, entry by entry. *)
Lemma fill_co_variance_matrix_closed_form (integral : flags -> flags -> Q) :
  co_variance_matrix (fill_co_variance_matrix integral)
  = map (fun i =>
           map (fun j => integral (nth (Nat.min i j) product_1_2 (0, 0, 0, 0)%Z)
                                  (nth (Nat.max i j) product_1_2 (0, 0, 0, 0)%Z))
               (seq 0 16))
        (seq 0 16).
Proof. vm_compute. reflexivity. Qed.

Lemma fill_co_variance_matrix_log (integral : flags -> flags -> Q) :
  integrated (fill_co_variance_matrix integral)
  = filter (fun p => fst p <=? snd p) (list_prod (seq 0 16) (seq 0 16)).
Proof. vm_compute. reflexivity. Qed.

Lemma fill_co_variance_matrix_get (integral : flags -> flags -> Q) i j :
  i < 16 -> j < 16 ->
  matrix_get (co_variance_matrix (fill_co_variance_matrix integral)) i j
  = integral (nth (Nat.min i j) product_1_2 (0, 0, 0, 0)%Z)
             (nth (Nat.max i j) product_1_2 (0, 0, 0, 0)%Z).
Proof.
  intros Hi Hj. unfold matrix_get. rewrite fill_co_variance_matrix_closed_form.
  rewrite nth_map_seq by exact Hi. rewrite nth_map_seq by exact Hj. reflexivity.
Qed.

(** C7. The integral is computed for the positions [i <= j] only, once each;
    the lower triangle is the mirror of the upper one, so the 16 x 16 matrix
    handed to the inversion is symmetric; the operation returns what
    [np.linalg.inv] returns on that matrix, its error on a singular matrix
    included. *)
Theorem co_variance_matrix_symmetric_before_inversion
        (nquad : (Q -> Q -> Q -> Q -> result Q) -> Q)
        (inv : matrix -> result matrix) :
  let integral l1 l2 :=
    nquad (fun u1 u2 u3 u4 => variance_integral_func u1 u2 u3 u4 l1 l2) in
  let tuple i := nth i product_1_2 (0, 0, 0, 0)%Z in
  let M := co_variance_matrix (fill_co_variance_matrix integral) in
  List.length M = 16
  /\ Forall (fun row => List.length row = 16) M
  /\ integrated (fill_co_variance_matrix integral)
     = filter (fun p => fst p <=? snd p) (list_prod (seq 0 16) (seq 0 16))
  /\ List.length (integrated (fill_co_variance_matrix integral)) = 136
  /\ (forall i j, i <= j -> j < 16 ->
        matrix_get M i j = integral (tuple i) (tuple j))
  /\ (forall i j, j < i -> i < 16 -> matrix_get M i j = matrix_get M j i)
  /\ (forall i j, i < 16 -> j < 16 -> matrix_get M i j = matrix_get M j i)
  /\ get_co_variance_matrix nquad inv = inv M
  /\ (forall e, inv M = Raise e -> get_co_variance_matrix nquad inv = Raise e).
Proof.
  intros integral tuple M.
  assert (Hsym : forall i j, i < 16 -> j < 16 -> matrix_get M i j = matrix_get M j i).
  { intros i j Hi Hj. unfold M.
    rewrite !fill_co_variance_matrix_get by assumption.
    rewrite (Nat.min_comm j i), (Nat.max_comm j i). reflexivity. }
  repeat match goal with |- _ /\ _ => split end.
  - unfold M. rewrite fill_co_variance_matrix_closed_form.
    rewrite length_map, length_seq. reflexivity.
  - unfold M. rewrite fill_co_variance_matrix_closed_form.
    apply Forall_forall. intros row Hrow.
    apply in_map_iff in Hrow as (i & <- & _).
    rewrite length_map, length_seq. reflexivity.
  - apply fill_co_variance_matrix_log.
  - rewrite fill_co_variance_matrix_log. reflexivity.
  - intros i j Hij Hj. unfold M.
    rewrite fill_co_variance_matrix_get by lia.
    rewrite Nat.min_l, Nat.max_r by exact Hij. reflexivity.
  - intros i j Hji Hi. apply Hsym; lia.
  - exact Hsym.
  - reflexivity.
  - intros e He. exact He.
Qed.

(** *** A run in exact arithmetic *)

(** With exact integration the matrix is invertible: the operation returns a
    matrix whose product with the integrated one is the identity. *)
Lemma get_co_variance_matrix_exact_run :
  match get_co_variance_matrix Examples.nquad_boole Examples.inv_gauss_jordan with
  | Ok M_inv =>
      Examples.matrix_eqb
        (Examples.matmul
           (co_variance_matrix
              (fill_co_variance_matrix
                 (fun l1 l2 =>
                    Examples.nquad_boole
                      (fun u1 u2 u3 u4 => variance_integral_func u1 u2 u3 u4 l1 l2))))
           M_inv)
        (Examples.identity 16)
  | Raise _ => false
  end = true.
Proof. vm_compute. reflexivity. Qed.

(** An integrator that returns 0 everywhere leaves the zero matrix, which is
    singular: the error of the inversion is the result. *)
Lemma get_co_variance_matrix_singular_run :
  get_co_variance_matrix (fun _ => 0%Q) Examples.inv_gauss_jordan
  = Raise LinAlgError.
Proof. vm_compute. reflexivity. Qed.

(** *** The integrand *)

Lemma py_mul_Ok_inv (a : result Q) (b : option Q) (v : Q) :
  py_mul a b = Ok v -> exists x y, a = Ok x /\ b = Some y /\ v = (x * y)%Q.
Proof.
  unfold py_mul. destruct a as [x|e]; cbn [bind]; [|discriminate].
  destruct b as [y|]; [|discriminate]. intros [= <-]. eauto.
Qed.

(** X15. The integrand is symmetric in its two flag tuples: where
    [variance_integral_func] has a value for [(l1, l2)] it has an equal value
    for [(l2, l1)].  This is what lets the loop integrate the upper triangle
    only and mirror it. *)
Theorem variance_integral_func_symmetric (u1 u2 u3 u4 : Q) (l1 l2 : flags) (v : Q) :
  variance_integral_func u1 u2 u3 u4 l1 l2 = Ok v ->
  exists v', variance_integral_func u1 u2 u3 u4 l2 l1 = Ok v' /\ (v == v')%Q.
Proof.
  unfold variance_integral_func. intros H.
  repeat (apply py_mul_Ok_inv in H;
          let x := fresh "x" in
          let y := fresh "y" in
          let Hy := fresh "Hy" in
          let Hv := fresh "Hv" in
          destruct H as (x & y & H & Hy & Hv)).
  destruct (func u1 (flag0 l1)) as [z|] eqn:Hz; [|discriminate].
  injection H as <-.
  rewrite Hy, Hy0, Hy1, Hy2, Hy3, Hy4, Hy5. cbn [py_mul bind].
  eexists. split; [reflexivity|]. subst. ring.
Qed.

Lemma variance_integral_func_symmetric_witness :
  exists v', variance_integral_func (1#4) (1#2) (1#5) (3#4)
               (2, 1, 2, 1)%Z (1, 1, 2, 2)%Z = Ok v'
             /\ ((11025 # 655360000) == v')%Q.
Proof.
  apply (@variance_integral_func_symmetric (1#4) (1#2) (1#5) (3#4)
           (1, 1, 2, 2)%Z (2, 1, 2, 1)%Z).
  vm_compute. reflexivity.
Defined.

(** ** Top-50 neighbours *)

Lemma map_fst_combine {A B} (l1 : list A) : forall (l2 : list B),
  List.length l1 = List.length l2 -> map fst (combine l1 l2) = l1.
Proof.
  induction l1 as [|a l1 IH]; intros [|b l2] Hlen; simpl in *;
    try discriminate; [reflexivity|].
  f_equal. apply IH. lia.
Qed.

Lemma In_firstn {A} (k : nat) (l : list A) x : In x (firstn k l) -> In x l.
Proof.
  intros H. rewrite <- (firstn_skipn k l). apply in_or_app. now left.
Qed.

Lemma In_skipn {A} (k : nat) (l : list A) x : In x (skipn k l) -> In x l.
Proof.
  intros H. rewrite <- (firstn_skipn k l). apply in_or_app. now right.
Qed.

Lemma StronglySorted_app_inv {A} (R : A -> A -> Prop) (l1 l2 : list A) :
  StronglySorted R (l1 ++ l2) ->
  StronglySorted R l1 /\ StronglySorted R l2
  /\ (forall x y, In x l1 -> In y l2 -> R x y).
Proof.
  induction l1 as [|a l1 IH]; simpl; intros H.
  - repeat split; [constructor | exact H | intros x y []].
  - inversion H as [|? ? Hs Hall]; subst.
    destruct (IH Hs) as (H1 & H2 & Hcross).
    rewrite Forall_app in Hall. destruct Hall as [Hall1 Hall2].
    repeat split.
    + constructor; assumption.
    + exact H2.
    + intros x y [<-|Hx] Hy.
      * rewrite Forall_forall in Hall2. auto.
      * auto.
Qed.

Lemma StronglySorted_firstn {A} (R : A -> A -> Prop) k (l : list A) :
  StronglySorted R l -> StronglySorted R (firstn k l).
Proof.
  intros H. rewrite <- (firstn_skipn k l) in H.
  apply StronglySorted_app_inv in H. tauto.
Qed.

Lemma StronglySorted_skipn {A} (R : A -> A -> Prop) k (l : list A) :
  StronglySorted R l -> StronglySorted R (skipn k l).
Proof.
  intros H. rewrite <- (firstn_skipn k l) in H.
  apply StronglySorted_app_inv in H. tauto.
Qed.

Lemma NoDup_firstn {A} k (l : list A) : NoDup l -> NoDup (firstn k l).
Proof.
  intros H. rewrite <- (firstn_skipn k l) in H.
  apply NoDup_app_remove_r in H. exact H.
Qed.

Lemma NoDup_skipn {A} k (l : list A) : NoDup l -> NoDup (skipn k l).
Proof.
  intros H. rewrite <- (firstn_skipn k l) in H.
  apply NoDup_app_remove_l in H. exact H.
Qed.

Lemma NoDup_keys_functional {A B} (l : list (A * B)) a v v' :
  NoDup (map fst l) -> In (a, v) l -> In (a, v') l -> v = v'.
Proof.
  induction l as [|[a0 v0] l IH]; simpl; [tauto|].
  intros Hnd Hv Hv'. inversion Hnd as [|? ? Hnotin Hnd']; subst.
  destruct Hv as [[= -> ->]|Hv], Hv' as [[= ->]|Hv'].
  - reflexivity.
  - exfalso. apply Hnotin. apply (in_map fst) in Hv'. exact Hv'.
  - subst. exfalso. apply Hnotin. apply (in_map fst) in Hv. exact Hv.
  - auto.
Qed.

Section Top50.
Variable sort_values : Series -> Series.
Hypothesis sort_values_descending : sorts_descending sort_values.

Variable correlation_matrix : DataFrame Q.
Hypothesis square : nrows correlation_matrix = ncols correlation_matrix.
Hypothesis labels_distinct : NoDup (columns correlation_matrix).

Variable j : nat.
Hypothesis j_in_range : j < ncols correlation_matrix.

Let asset := nth j (columns correlation_matrix) "".
Let self := nth j (nth j (values correlation_matrix) []) 0%Q.
Let col := column_series correlation_matrix j.
Let sorted := sort_values col.

Lemma col_labels : map fst col = columns correlation_matrix.
Proof.
  unfold col, column_series. apply map_fst_combine.
  rewrite length_map. symmetry. exact square.
Qed.

Lemma col_length : List.length col = ncols correlation_matrix.
Proof. rewrite <- (length_map fst), col_labels. reflexivity. Qed.

Lemma sorted_perm : Permutation sorted col.
Proof. apply sort_values_descending. Qed.

Lemma sorted_labels_NoDup : NoDup (map fst sorted).
Proof.
  apply (Permutation_NoDup (l := columns correlation_matrix)); [|exact labels_distinct].
  rewrite <- col_labels. apply Permutation_map, Permutation_sym, sorted_perm.
Qed.

Lemma self_in_col : In (asset, self) col.
Proof.
  assert (Hnth : nth j col ("", 0%Q) = (asset, self)).
  { unfold col, column_series.
    rewrite combine_nth by (rewrite length_map; symmetry; exact square).
    rewrite (nth_map_lt _ _ 0%Q []) by (fold (nrows correlation_matrix); rewrite square; exact j_in_range).
    reflexivity. }
  rewrite <- Hnth. apply nth_In. rewrite col_length. exact j_in_range.
Qed.

(** When the asset's own correlation is strictly the largest of its column,
    the sorted column starts with the asset. *)
Lemma sorted_starts_with_self :
  (forall b v, In (b, v) col -> b <> asset -> (v < self)%Q) ->
  exists rest, sorted = (asset, self) :: rest.
Proof.
  intros Hmax.
  pose proof sorted_perm as Hperm.
  pose proof (proj2 (sort_values_descending col)) as Hdesc. fold sorted in Hdesc.
  pose proof self_in_col as Hself.
  apply (Permutation_in _ (Permutation_sym Hperm)) in Hself.
  destruct sorted as [|[b v] rest] eqn:Hs; [destruct Hself|].
  exists rest. f_equal.
  destruct Hself as [Heq|Hin]; [exact Heq|].
  inversion Hdesc as [|? ? _ Hall]; subst.
  rewrite Forall_forall in Hall. specialize (Hall _ Hin). cbn [snd] in Hall.
  assert (Hbv : In (b, v) col) by (apply (Permutation_in _ Hperm); now left).
  destruct (string_dec b asset) as [->|Hne].
  - f_equal. eapply NoDup_keys_functional; [|exact Hbv|apply self_in_col].
    rewrite col_labels. exact labels_distinct.
  - exfalso. apply (Qlt_not_le _ _ (Hmax b v Hbv Hne)). exact Hall.
Qed.

(** What [tickers_list] does.  The row of an asset lists the labels at
    positions 1 to 50 of its column sorted by correlation, largest first:
    at most 50 distinct assets in descending order of correlation.  Where
    the asset's own correlation is strictly the largest of its column, the
    asset is not listed and no unlisted other asset has a larger correlation
    than a listed one.  The order among equal correlations is the one the
    sort leaves. *)
Theorem top_50_tickers_descending :
  let top := tickers_list sort_values col in
  nth_error (_top_50_tickers sort_values correlation_matrix) j = Some (asset, top)
  /\ List.length top = Nat.min 50 (ncols correlation_matrix - 1)
  /\ NoDup top
  /\ incl top (columns correlation_matrix)
  /\ (exists ranked, map fst ranked = top /\ incl ranked col /\ descending ranked)
  /\ ((forall b v, In (b, v) col -> b <> asset -> (v < self)%Q) ->
      ~ In asset top
      /\ (forall b v b' v',
            In (b, v) col -> b <> asset -> ~ In b top ->
            In (b', v') col -> In b' top -> (v <= v')%Q)).
Proof.
  intros top.
  pose proof sorted_perm as Hperm.
  pose proof (proj2 (sort_values_descending col)) as Hdesc. fold sorted in Hdesc.
  repeat match goal with |- _ /\ _ => split end.
  - unfold _top_50_tickers.
    rewrite (nth_error_nth' _ ("", [])) by (rewrite length_map, length_seq; exact j_in_range).
    rewrite nth_map_seq by exact j_in_range. reflexivity.
  - unfold top, tickers_list. fold sorted.
    rewrite length_map, length_firstn, length_skipn.
    rewrite (Permutation_length Hperm), col_length. reflexivity.
  - unfold top, tickers_list. fold sorted.
    rewrite <- firstn_map, <- skipn_map.
    apply NoDup_firstn, NoDup_skipn, sorted_labels_NoDup.
  - intros b Hb. unfold top, tickers_list in Hb. fold sorted in Hb.
    apply in_map_iff in Hb as ([b0 v] & <- & Hin).
    apply In_firstn, In_skipn in Hin.
    apply (Permutation_in _ Hperm) in Hin.
    rewrite <- col_labels. apply (in_map fst) in Hin. exact Hin.
  - exists (firstn 50 (skipn 1 sorted)). split; [reflexivity|]. split.
    + intros p Hp. apply In_firstn, In_skipn in Hp.
      apply (Permutation_in _ Hperm). exact Hp.
    + apply StronglySorted_firstn, StronglySorted_skipn. exact Hdesc.
  - intros Hmax. destruct (sorted_starts_with_self Hmax) as (rest & Hs).
    split.
    + pose proof sorted_labels_NoDup as Hnd. rewrite Hs in Hnd.
      cbn [map fst] in Hnd. inversion Hnd as [|? ? Hnotin _]; subst.
      unfold top, tickers_list. fold sorted. rewrite Hs. cbn [skipn].
      intros Hin. apply Hnotin.
      apply in_map_iff in Hin as (p & <- & Hp). apply in_map, (In_firstn _ _ _ Hp).
    + intros b v b' v' Hb Hne Hnot Hb' Htop.
      unfold top, tickers_list in Hnot, Htop. fold sorted in Hnot, Htop.
      rewrite Hs in Hnot, Htop, Hdesc, Hperm. cbn [skipn] in Hnot, Htop.
      assert (Hcol_nd : NoDup (map fst col))
        by (rewrite col_labels; exact labels_distinct).
      assert (Hrest : In (b, v) (skipn 50 rest)).
      { apply (Permutation_in _ (Permutation_sym Hperm)) in Hb.
        destruct Hb as [[= Heq _]|Hb]; [congruence|].
        rewrite <- (firstn_skipn 50 rest) in Hb. apply in_app_or in Hb.
        destruct Hb as [Hb|Hb]; [|exact Hb].
        exfalso. apply Hnot. apply (in_map fst) in Hb. exact Hb. }
      assert (Hfirst : In (b', v') (firstn 50 rest)).
      { apply in_map_iff in Htop as ([b0 v0] & Heq & Hp).
        cbn [fst] in Heq. subst b0.
        replace v' with v0; [exact Hp|].
        eapply NoDup_keys_functional; [exact Hcol_nd| |exact Hb'].
        apply (Permutation_in _ Hperm). right. apply (In_firstn _ _ _ Hp). }
      inversion Hdesc as [|? ? Hrest_sorted _]; subst.
      rewrite <- (firstn_skipn 50 rest) in Hrest_sorted.
      apply StronglySorted_app_inv in Hrest_sorted as (_ & _ & Hcross).
      exact (Hcross _ _ Hfirst Hrest).
Qed.

End Top50.

(** *** A stable sort, and a tie for the first place *)

Lemma insert_desc_perm p s : Permutation (Examples.insert_desc p s) (p :: s).
Proof.
  induction s as [|q s IH]; simpl; [reflexivity|].
  destruct (Qltb (snd p) (snd q)); [|reflexivity].
  rewrite IH. apply perm_swap.
Qed.

Lemma insert_desc_descending p s :
  descending s -> descending (Examples.insert_desc p s).
Proof.
  unfold descending. induction 1 as [|q s Hs IH Hall]; simpl.
  - repeat constructor.
  - destruct (Qltb (snd p) (snd q)) eqn:Hcmp.
    + apply Qltb_lt in Hcmp. constructor; [exact IH|].
      apply (Permutation_Forall (Permutation_sym (insert_desc_perm p s))).
      constructor; [apply Qlt_le_weak; exact Hcmp | exact Hall].
    + apply Qltb_ge in Hcmp. constructor; [constructor; assumption|].
      constructor; [exact Hcmp|].
      rewrite Forall_forall in Hall |- *. intros x Hx.
      eapply Qle_trans; [apply Hall, Hx | exact Hcmp].
Qed.

Lemma stable_sort_desc_sorts : sorts_descending Examples.stable_sort_desc.
Proof.
  intros col. unfold Examples.stable_sort_desc.
  induction col as [|p col [IHp IHd]]; simpl.
  - split; [reflexivity | constructor].
  - split.
    + rewrite insert_desc_perm. apply perm_skip, IHp.
    + apply insert_desc_descending, IHd.
Qed.

Lemma top_50_tickers_descending_witness :
  nth_error (_top_50_tickers Examples.stable_sort_desc Examples.corr5) 0
  = Some ("T", tickers_list Examples.stable_sort_desc
                 (column_series Examples.corr5 0)).
Proof.
  refine (proj1 (@top_50_tickers_descending Examples.stable_sort_desc
                   stable_sort_desc_sorts Examples.corr5 _ _ 0 _)).
  - reflexivity.
  - repeat constructor; simpl; intuition discriminate.
  - unfold ncols. simpl. lia.
Defined.

(** C9.  The code at a tie for the first place.  A and B are perfectly
    correlated, so in the column of B both have correlation 1.  With ties
    kept in column order A comes first: [[1:51]] drops A, not B, and the row
    of B is B itself followed by C, where the row of the other assets in
    descending order of correlation is A followed by C. *)
Lemma top_50_tickers_lists_self :
  _top_50_tickers Examples.stable_sort_desc Examples.corr3
  = [("A", ["B"; "C"]); ("B", ["B"; "C"]); ("C", ["A"; "B"])]
  /\ In "B" ["B"; "C"].
Proof. split; [vm_compute; reflexivity | now left]. Qed.

(** Whatever the order the sort gives to equal values, one of A and B is
    listed in its own row. *)
Lemma top_50_tickers_tie_any_sort (sort_values : Series -> Series) :
  sorts_descending sort_values ->
  In "A" (tickers_list sort_values (column_series Examples.corr3 0))
  \/ In "B" (tickers_list sort_values (column_series Examples.corr3 1)).
Proof.
  intros Hsort.
  change (column_series Examples.corr3 1) with (column_series Examples.corr3 0).
  set (col := column_series Examples.corr3 0).
  destruct (Hsort col) as [Hperm Hdesc].
  assert (HA : In ("A", 1%Q) (sort_values col))
    by (apply (Permutation_in _ (Permutation_sym Hperm)); simpl; auto).
  assert (HB : In ("B", 1%Q) (sort_values col))
    by (apply (Permutation_in _ (Permutation_sym Hperm)); simpl; auto).
  pose proof (Permutation_length Hperm) as Hlen.
  unfold tickers_list.
  destruct (sort_values col) as [|p [|p2 [|p3 [|? ?]]]]; try discriminate.
  cbn [skipn firstn map].
  assert (Hp : In p col) by (apply (Permutation_in _ Hperm); now left).
  inversion Hdesc as [|? ? _ Hall]; subst.
  rewrite Forall_forall in Hall.
  simpl in Hp. destruct Hp as [<-|[<-|[<-|[]]]].
  - right. destruct HB as [HB|HB]; [discriminate|].
    apply (in_map fst) in HB. exact HB.
  - left. destruct HA as [HA|HA]; [discriminate|].
    apply (in_map fst) in HA. exact HA.
  - exfalso. destruct HA as [HA|HA]; [discriminate|].
    specialize (Hall _ HA). vm_compute in Hall. apply Hall. reflexivity.
Qed.

(** ** Candidate indices and the scorers *)

Lemma comb_zero_iff : forall n k, comb n k = 0 <-> n < k.
Proof.
  induction n as [|n IH]; intros [|k]; simpl; try lia.
  rewrite Nat.eq_add_0, !IH. lia.
Qed.

Lemma prepare_combinations_length (stock_selection : list string) :
  List.length (_prepare_combinations_of_partners stock_selection)
  = comb (List.length stock_selection - 1) 3.
Proof.
  unfold _prepare_combinations_of_partners.
  rewrite length_map, combinations_length, length_seq. reflexivity.
Qed.

Lemma prepare_combinations_rows (stock_selection : list string) (q : list nat) :
  In q (_prepare_combinations_of_partners stock_selection) ->
  exists i j k, q = [0; i; j; k]
    /\ 0 < i /\ i < j /\ j < k /\ k < List.length stock_selection.
Proof.
  intros Hq. unfold _prepare_combinations_of_partners in Hq.
  set (n := List.length stock_selection) in *.
  apply in_map_iff in Hq as (t & <- & Ht).
  pose proof (combinations_size _ _ _ Ht) as Hsz.
  pose proof (combinations_incl _ _ _ Ht) as Hincl.
  pose proof (combinations_increasing (StronglySorted_seq (n - 1) 1) _ _ Ht) as Hinc.
  destruct t as [|i [|j [|k [|? ?]]]]; try discriminate.
  exists i, j, k. split; [reflexivity|].
  assert (Hi : In i (seq 1 (n - 1))) by (apply Hincl; simpl; tauto).
  assert (Hk : In k (seq 1 (n - 1))) by (apply Hincl; simpl; tauto).
  apply in_seq in Hi, Hk.
  inversion Hinc as [|? ? Hinc' Hi']; subst.
  inversion Hinc' as [|? ? _ Hj']; subst.
  inversion Hi' as [|? ? Hij _]; subst.
  inversion Hj' as [|? ? Hjk _]; subst.
  lia.
Qed.

(** X9. For a stock selection of [n] labels,
    [_prepare_combinations_of_partners] yields C(n-1, 3) rows, none exactly when
    [n < 4]; every row is [0; i; j; k] with [0 < i < j < k < n], so no row
    indexes outside the selection. *)
Theorem prepare_combinations_in_range (stock_selection : list string) :
  let n := List.length stock_selection in
  let combos := _prepare_combinations_of_partners stock_selection in
  List.length combos = comb (n - 1) 3
  /\ (combos = [] <-> n < 4)
  /\ (forall q, In q combos ->
        exists i j k, q = [0; i; j; k] /\ 0 < i /\ i < j /\ j < k /\ k < n)
  /\ in_bounds n combos = true.
Proof.
  intros n combos.
  assert (Hlen : List.length combos = comb (n - 1) 3)
    by apply prepare_combinations_length.
  assert (Hrows : forall q, In q combos ->
            exists i j k, q = [0; i; j; k] /\ 0 < i /\ i < j /\ j < k /\ k < n)
    by (intros q Hq; apply prepare_combinations_rows; exact Hq).
  repeat match goal with |- _ /\ _ => split end.
  - exact Hlen.
  - rewrite <- length_zero_iff_nil, Hlen, comb_zero_iff. lia.
  - exact Hrows.
  - apply in_bounds_true. intros q x Hq Hx.
    destruct (Hrows q Hq) as (i & j & k & -> & ?).
    simpl in Hx. destruct Hx as [<-|[<-|[<-|[<-|[]]]]]; lia.
Qed.

(** X10. [get_sum_correlations_vectorized] raises [IndexError] on an empty
    array of combinations and on an index that is not below the number of
    columns or rows; on every other input it returns the labels of one of the
    given combinations with its score. *)
Theorem get_sum_correlations_vectorized_errors
        (data_subset : DataFrame Q) (combos : list (list nat)) :
  (combos = [] \/ in_bounds (ncols data_subset) combos = false
   \/ in_bounds (nrows data_subset) combos = false ->
   get_sum_correlations_vectorized data_subset combos = Raise IndexError)
  /\ (combos <> [] -> in_bounds (ncols data_subset) combos = true ->
      in_bounds (nrows data_subset) combos = true ->
      exists k quad,
        nth_error combos k = Some quad
        /\ get_sum_correlations_vectorized data_subset combos
           = Ok (map (fun j => nth j (columns data_subset) "") quad,
                 nth k (corr_sums_vectorized data_subset combos) 0%Q)).
Proof.
  unfold get_sum_correlations_vectorized. split.
  - intros [->|[H|H]]; [reflexivity| |]; destruct combos; try reflexivity;
      rewrite H; try reflexivity.
    cbn [negb]. destruct (negb _); reflexivity.
  - intros Hne Hc Hr.
    destruct (@argmax_correct (corr_sums_vectorized data_subset combos))
      as (k & Harg & Hk & _).
    { intros Hnil. apply Hne, length_zero_iff_nil.
      apply (f_equal (@List.length Q)) in Hnil.
      unfold corr_sums_vectorized, sum_axes_0_2 in Hnil.
      rewrite !length_map, length_seq in Hnil. exact Hnil. }
    assert (Hk' : k < List.length combos).
    { unfold corr_sums_vectorized, sum_axes_0_2 in Hk.
      rewrite !length_map, length_seq in Hk. exact Hk. }
    exists k, (nth k combos []). split; [apply nth_error_nth'; exact Hk'|].
    destruct combos as [|q0 rest]; [congruence|].
    rewrite Hc, Hr, Harg. reflexivity.
Qed.

Lemma argmin_all_equal (l : list R) (r : R) :
  l <> [] -> Forall (fun x => x = r) l -> argmin l = Some 0.
Proof.
  intros Hne Hall. destruct (argmin_correct Hne) as (k & Harg & Hk & _ & Hfirst).
  rewrite Harg. f_equal. destruct k as [|k]; [reflexivity|]. exfalso.
  specialize (Hfirst 0 (Nat.lt_0_succ k)).
  rewrite Forall_forall in Hall.
  rewrite (Hall (nth (S k) l 0%R)) in Hfirst by (apply nth_In; exact Hk).
  rewrite (Hall (nth 0 l 0%R)) in Hfirst by (apply nth_In; lia).
  lra.
Qed.

(** X11. [diagonal_measure_vectorized] raises [IndexError] on an empty array
    of combinations and on a column index out of range.  On a frame without
    rows every sum of distances is the empty sum: the first combination is
    returned with score 0. *)
Theorem diagonal_measure_vectorized_edges
        (data_subset : DataFrame R) (combos : list (list nat)) :
  (combos = [] \/ in_bounds (ncols data_subset) combos = false ->
   diagonal_measure_vectorized data_subset combos = Raise IndexError)
  /\ (forall q0 rest,
        combos = q0 :: rest ->
        in_bounds (ncols data_subset) combos = true ->
        values data_subset = [] ->
        diagonal_measure_vectorized data_subset combos
        = Ok (map (fun j => nth j (columns data_subset) "") q0, 0%R)).
Proof.
  split.
  - unfold diagonal_measure_vectorized.
    intros [->|H]; [reflexivity|]. destruct combos; [reflexivity|].
    rewrite H. reflexivity.
  - intros q0 rest Hc Hb Hrows.
    assert (Hscores : Forall (fun x => x = 0%R)
                             (distance_scores_vectorized data_subset combos)).
    { unfold distance_scores_vectorized, einsum_ijk_k_ji, einsum_ijk_ijk_ji.
      rewrite Hrows. cbn [take_columns map combine].
      rewrite !map_map, combine_map_same, map_map.
      apply Forall_forall. intros x Hx.
      apply in_map_iff in Hx as (j & <- & _). reflexivity. }
    assert (Hne : distance_scores_vectorized data_subset combos <> []).
    { intros Hnil. apply (f_equal (@List.length R)) in Hnil.
      rewrite distance_scores_vectorized_length, Hc in Hnil. discriminate. }
    rewrite (@diagonal_measure_vectorized_returns data_subset combos 0).
    + rewrite Forall_forall in Hscores.
      rewrite (Hscores (nth 0 (distance_scores_vectorized data_subset combos) 0%R)).
      * rewrite Hc. reflexivity.
      * apply nth_In. rewrite distance_scores_vectorized_length, Hc. simpl. lia.
    + rewrite Hc. discriminate.
    + exact Hb.
    + apply (argmin_all_equal Hne Hscores).
Qed.

Lemma Rsum_perm (l l' : list R) : Permutation l l' -> Rsum l = Rsum l'.
Proof. induction 1; simpl; lra. Qed.

Lemma dot_ones (v : list R) : dot v (repeat 1%R (List.length v)) = Rsum v.
Proof.
  unfold dot. induction v as [|a v IH]; simpl; [reflexivity|].
  simpl in IH. rewrite IH. lra.
Qed.

Lemma dot_self (v : list R) : dot v v = Rsum (map (fun x => (x * x)%R) v).
Proof.
  unfold dot. rewrite combine_diag, map_map. reflexivity.
Qed.

Lemma perpendicular_distance_perm (v v' : list R) :
  Permutation v v' -> perpendicular_distance v = perpendicular_distance v'.
Proof.
  intros Hp. unfold perpendicular_distance.
  rewrite !dot_ones, !dot_self, (Permutation_length Hp).
  rewrite (Rsum_perm Hp), (Rsum_perm (Permutation_map _ Hp)). reflexivity.
Qed.

(** X12. The diagonal measure of a candidate does not depend on the order of
    its columns: two arrays of combinations whose rows are rearrangements of
    each other get the same array of scores. *)
Theorem distance_scores_order_independent
        (data_subset : DataFrame R) (combos combos' : list (list nat)) :
  Forall2 (@Permutation nat) combos combos' ->
  (forall q, In q combos -> List.length q = shape_last combos) ->
  distance_scores_vectorized data_subset combos
  = distance_scores_vectorized data_subset combos'.
Proof.
  intros Hperm Hshape.
  assert (Hlen : List.length combos = List.length combos')
    by (eapply Forall2_length; eassumption).
  assert (Hnth : forall k, k < List.length combos ->
                           Permutation (nth k combos []) (nth k combos' [])).
  { clear Hshape Hlen. induction Hperm as [|q q' l l' Hq _ IH]; intros k Hk.
    - simpl in Hk. lia.
    - destruct k as [|k]; [exact Hq|]. apply IH. simpl in Hk. lia. }
  assert (Hshape' : forall q, In q combos' -> List.length q = shape_last combos').
  { intros q' Hq'. destruct (In_nth _ _ [] Hq') as (k & Hk & <-).
    rewrite <- Hlen in Hk.
    rewrite <- (Permutation_length (Hnth k Hk)), (Hshape _ (nth_In _ _ Hk)).
    destruct combos as [|q0 rest]; [simpl in Hk; lia|].
    destruct combos' as [|q0' rest']; [discriminate|].
    simpl. apply (Permutation_length (Hnth 0 (Nat.lt_0_succ _))). }
  apply (nth_ext _ _ 0%R 0%R).
  - rewrite !distance_scores_vectorized_length. exact Hlen.
  - rewrite distance_scores_vectorized_length. intros k Hk.
    rewrite !distance_scores_vectorized_nth;
      try (apply Hshape, nth_In; exact Hk);
      try (apply Hshape', nth_In; rewrite <- Hlen; exact Hk);
      try exact Hk; try (rewrite <- Hlen; exact Hk).
    unfold diagonal_measure. f_equal. apply map_ext. intros row.
    apply perpendicular_distance_perm, Permutation_map, Hnth, Hk.
Qed.

Lemma distance_scores_order_independent_witness :
  distance_scores_vectorized Examples.ranks5 [[0; 1; 2; 3]; [0; 2; 3; 4]]
  = distance_scores_vectorized Examples.ranks5 [[3; 0; 2; 1]; [0; 4; 3; 2]].
Proof.
  apply distance_scores_order_independent.
  - repeat constructor;
      (apply NoDup_Permutation;
       [ repeat constructor; simpl; intuition discriminate
       | repeat constructor; simpl; intuition discriminate
       | intros x; simpl; intuition ]).
  - intros q [<-|[<-|[]]]; reflexivity.
Defined.

(** ** Multivariate rho *)

Lemma sum_1_nth (f : Q -> Q) (vals : list (list Q)) (combos : list (list nat)) k :
  k < List.length combos ->
  nth k (sum_axis_0 (List.length combos)
           (product_last
              (map (map (map f)) (take_columns 0%Q vals combos)))) 0%Q
  = Qsum (map (fun row => Qprod (map (fun j => f (nth j row 0%Q)) (nth k combos [])))
              vals).
Proof.
  intros Hk. unfold sum_axis_0, product_last, take_columns.
  rewrite nth_map_seq by exact Hk. rewrite !map_map. f_equal.
  apply map_ext. intros row. rewrite !map_map.
  rewrite (nth_map_lt _ combos 0%Q []) by exact Hk.
  rewrite !map_map. reflexivity.
Qed.

Lemma sum_3_nth (vals : list (list Q)) (combos : list (list nat)) k :
  k < List.length combos ->
  List.length (nth k combos []) = shape_last combos ->
  let pairs := combinations (seq 0 (shape_last combos)) 2 in
  let qcd := take_columns 0%Q vals combos in
  nth k (sum_axes_0_2 (List.length combos)
           (times (one_minus (take_last qcd (map (fun p => nth 0 p 0) pairs)))
                  (one_minus (take_last qcd (map (fun p => nth 1 p 0) pairs)))))
      0%Q
  = Qsum (map (fun row =>
                 Qsum (map (fun pair =>
                              match pair with
                              | [a; b] => ((1 - nth a row 0) * (1 - nth b row 0))%Q
                              | _ => 0%Q
                              end)
                           (combinations (nth k combos []) 2)))
              vals).
Proof.
  intros Hk Hd pairs qcd. unfold sum_axes_0_2.
  rewrite nth_map_seq by exact Hk.
  unfold times, one_minus, take_last, qcd, take_columns.
  rewrite !map_map, combine_map_same, !map_map. f_equal.
  apply map_ext. intros row. f_equal.
  cbn [fst snd]. rewrite !map_map, combine_map_same, map_map.
  rewrite (nth_map_lt _ combos [] []) by exact Hk.
  cbn [fst snd]. rewrite !map_map, combine_map_same, map_map. cbn [fst snd].
  set (q := nth k combos []) in *.
  assert (Hc : combinations q 2 = map (map (fun i => nth i q 0)) pairs)
    by (unfold pairs; rewrite <- Hd, <- combinations_map, map_nth_seq0;
        reflexivity).
  rewrite Hc, map_map.
  apply map_ext_in. intros p Hp.
  pose proof (combinations_size _ _ _ Hp) as Hsz.
  pose proof (combinations_incl _ _ _ Hp) as Hincl.
  destruct p as [|a [|b [|? ?]]]; try discriminate.
  assert (Ha : a < List.length q)
    by (rewrite Hd; apply (in_seq (shape_last combos) 0 a), Hincl; simpl; auto).
  assert (Hb : b < List.length q)
    by (rewrite Hd; apply (in_seq (shape_last combos) 0 b), Hincl; simpl; auto).
  cbn [map nth].
  rewrite (nth_map_lt _ q 0%Q 0) by exact Ha.
  rewrite (nth_map_lt _ q 0%Q 0) by exact Hb.
  reflexivity.
Qed.

Lemma sum_axis_0_length m a : List.length (sum_axis_0 m a) = m.
Proof. unfold sum_axis_0. rewrite length_map, length_seq. reflexivity. Qed.

Lemma sum_axes_0_2_length m t : List.length (sum_axes_0_2 m t) = m.
Proof. unfold sum_axes_0_2. rewrite length_map, length_seq. reflexivity. Qed.

(** On quadruples and a frame with rows, the vectorized scores are the means
    of the three estimators, candidate by candidate. *)
Lemma multivariate_rho_scores_direct (df : DataFrame Q) (combos : list (list nat)) :
  0 < nrows df ->
  (forall q, In q combos -> List.length q = 4) ->
  combos <> [] ->
  exists scores,
    multivariate_rho_scores df combos = Ok scores
    /\ List.length scores = List.length combos
    /\ (forall k, k < List.length combos ->
          (nth k scores 0 == multivariate_rho (values df) (nth k combos []))%Q).
Proof.
  intros Hn Hquads Hne.
  assert (Hd : shape_last combos = 4).
  { destruct combos as [|q0 rest]; [congruence|]. apply (Hquads q0). now left. }
  unfold multivariate_rho_scores. rewrite Hd.
  replace ((2 ^ Z.of_nat 4 - Z.of_nat 4 - 1 =? 0)%Z) with false by reflexivity.
  destruct (Z.eqb_spec (Z.of_nat (nrows df)) 0) as [H0|H0]; [lia|].
  destruct (Z.eqb_spec (Z.of_nat (nrows df) * Z.of_nat (comb 4 2)) 0) as [H6|H6];
    [change (Z.of_nat (comb 4 2)) with 6%Z in H6; lia|].
  eexists. split; [reflexivity|]. split.
  - rewrite length_map, !length_combine, !length_map.
    rewrite !sum_axis_0_length, sum_axes_0_2_length. lia.
  - intros k Hk.
    rewrite (nth_map_lt _ _ 0%Q (0%Q, 0%Q, 0%Q))
      by (rewrite !length_combine, !length_map, !sum_axis_0_length,
            sum_axes_0_2_length; lia).
    rewrite !combine_nth
      by (rewrite ?length_combine, !length_map, ?sum_axis_0_length,
            ?sum_axes_0_2_length; lia).
    cbn [fst snd].
    rewrite !(nth_map_lt _ _ 0%Q 0%Q)
      by (rewrite ?sum_axis_0_length, ?sum_axes_0_2_length; exact Hk).
    unfold one_minus at 1.
    rewrite (sum_1_nth (fun x => (1 - x)%Q)) by exact Hk.
    replace (product_last (take_columns 0%Q (values df) combos))
      with (product_last (map (map (map (fun x : Q => x))) (take_columns 0%Q (values df) combos)))
      by (f_equal; rewrite <- (map_id (take_columns 0%Q (values df) combos)) at 2;
          apply map_ext; intros a; rewrite <- (map_id a) at 2;
          apply map_ext; intros b; apply map_id).
    rewrite (sum_1_nth (fun x => x)) by exact Hk.
    pose proof (@sum_3_nth (values df) combos k Hk) as H3.
    rewrite Hd in H3. cbn zeta in H3.
    rewrite H3 by (apply Hquads, nth_In, Hk).
    unfold multivariate_rho, rho_1, rho_2, rho_3.
    fold (nrows df).
    change (Z.of_nat (comb 4 2)) with 6%Z.
    change (2 ^ Z.of_nat 4)%Z with 16%Z.
    change (Z.of_nat 4 + 1)%Z with 5%Z.
    change (16 - Z.of_nat 4 - 1)%Z with 11%Z.
    set (S1 := Qsum _). set (S2 := Qsum _). set (S3 := Qsum _).
    assert (Hnz : ~ (inject_Z (Z.of_nat (nrows df)) == 0)%Q).
    { change 0%Q with (inject_Z 0). rewrite inject_Z_injective. exact H0. }
    assert (Hnz6 : ~ (inject_Z (Z.of_nat (nrows df) * 6) == 0)%Q).
    { change 0%Q with (inject_Z 0). rewrite inject_Z_injective. lia. }
    change (inject_Z 5 / inject_Z 11)%Q with ((5 # 1) / (11 # 1))%Q.
    change (inject_Z 16) with (16 # 1)%Q.
    field. split; assumption.
Qed.

(** X13. On a frame with at least one row and quadruples of column positions
    in range, the score [multivariate_rho_vectorized] gives to a candidate is
    the mean of the three estimators of multivariate rho computed row by row
    for that candidate, and the function returns the labels of a candidate
    with the largest mean, together with that mean. *)
Theorem multivariate_rho_vectorized_direct
        (data_subset : DataFrame Q) (combos : list (list nat)) :
  0 < nrows data_subset ->
  combos <> [] ->
  (forall q, In q combos ->
     List.length q = 4 /\ Forall (fun j => j < ncols data_subset) q) ->
  exists scores k quad score,
    multivariate_rho_scores data_subset combos = Ok scores
    /\ (forall i, i < List.length combos ->
          (nth i scores 0
           == multivariate_rho (values data_subset) (nth i combos []))%Q)
    /\ multivariate_rho_vectorized data_subset combos
       = Ok (map (fun j => nth j (columns data_subset) "") quad, score)
    /\ nth_error combos k = Some quad
    /\ (score == multivariate_rho (values data_subset) quad)%Q
    /\ (forall q, In q combos ->
          (multivariate_rho (values data_subset) q <= score)%Q).
Proof.
  intros Hn Hne Hquads.
  destruct (@multivariate_rho_scores_direct data_subset combos Hn)
    as (scores & Hscores & Hlen & Hdirect); [apply Hquads | exact Hne |].
  destruct (@argmax_correct scores) as (k & Harg & Hk & Hmax & _).
  { intros Hnil. apply Hne, length_zero_iff_nil. rewrite <- Hlen, Hnil. reflexivity. }
  rewrite Hlen in Hk, Hmax.
  exists scores, k, (nth k combos []), (nth k scores 0%Q).
  repeat match goal with |- _ /\ _ => split end.
  - exact Hscores.
  - exact Hdirect.
  - unfold multivariate_rho_vectorized.
    assert (Hb : in_bounds (ncols data_subset) combos = true).
    { apply in_bounds_true. intros q j Hq Hj.
      destruct (Hquads q Hq) as [_ Hall]. rewrite Forall_forall in Hall. auto. }
    destruct combos as [|q0 rest]; [congruence|].
    rewrite Hb, Hscores. cbn [negb bind]. rewrite Harg. reflexivity.
  - apply nth_error_nth'. exact Hk.
  - apply Hdirect, Hk.
  - intros q Hq. destruct (In_nth _ _ [] Hq) as (j & Hj & <-).
    rewrite <- (Hdirect j Hj). apply Hmax, Hj.
Qed.

Lemma multivariate_rho_vectorized_direct_witness :
  exists scores k quad score,
    multivariate_rho_scores Examples.ecdf5
      (_prepare_combinations_of_partners (columns Examples.ecdf5)) = Ok scores
    /\ (forall i,
          i < List.length (_prepare_combinations_of_partners (columns Examples.ecdf5)) ->
          (nth i scores 0
           == multivariate_rho (values Examples.ecdf5)
                (nth i (_prepare_combinations_of_partners (columns Examples.ecdf5)) []))%Q)
    /\ multivariate_rho_vectorized Examples.ecdf5
         (_prepare_combinations_of_partners (columns Examples.ecdf5))
       = Ok (map (fun j => nth j (columns Examples.ecdf5) "") quad, score)
    /\ nth_error (_prepare_combinations_of_partners (columns Examples.ecdf5)) k
       = Some quad
    /\ (score == multivariate_rho (values Examples.ecdf5) quad)%Q
    /\ (forall q,
          In q (_prepare_combinations_of_partners (columns Examples.ecdf5)) ->
          (multivariate_rho (values Examples.ecdf5) q <= score)%Q).
Proof.
  apply multivariate_rho_vectorized_direct.
  - unfold nrows. simpl. lia.
  - discriminate.
  - intros q Hq. vm_compute in Hq.
    repeat (destruct Hq as [<-|Hq];
            [split; [reflexivity | repeat constructor]|]).
    destruct Hq.
Defined.

(** X14. [multivariate_rho_vectorized] raises [IndexError] on an empty array of
    combinations and on a column index out of range, and [ZeroDivisionError]
    on a frame without rows (the division [2 ** d / n]) and on combinations of
    fewer than two columns (the divisor [2 ** d - d - 1] of [h_d]). *)
Theorem multivariate_rho_vectorized_errors
        (data_subset : DataFrame Q) (combos : list (list nat)) :
  (combos = [] \/ in_bounds (ncols data_subset) combos = false ->
   multivariate_rho_vectorized data_subset combos = Raise IndexError)
  /\ (combos <> [] -> in_bounds (ncols data_subset) combos = true ->
      nrows data_subset = 0 \/ shape_last combos < 2 ->
      multivariate_rho_vectorized data_subset combos = Raise ZeroDivisionError).
Proof.
  unfold multivariate_rho_vectorized. split.
  - intros [->|H]; [reflexivity|]. destruct combos; [reflexivity|].
    rewrite H. reflexivity.
  - intros Hne Hb Hz. destruct combos as [|q0 rest]; [congruence|].
    rewrite Hb. cbn [negb]. unfold multivariate_rho_scores.
    destruct (2 ^ Z.of_nat (shape_last (q0 :: rest))
              - Z.of_nat (shape_last (q0 :: rest)) - 1 =? 0)%Z eqn:Hh;
      [reflexivity|].
    destruct Hz as [Hz|Hz].
    + rewrite Hz. reflexivity.
    + exfalso. apply Z.eqb_neq in Hh. apply Hh.
      destruct (shape_last (q0 :: rest)) as [|[|d]]; [reflexivity|reflexivity|lia].
Qed.

(** ** Extremal measure *)

Lemma mapM_total {A B} (f : A -> result B) (l : list A) :
  (forall a, In a l -> exists b, f a = Ok b) ->
  exists bs, mapM f l = Ok bs /\ Forall2 (fun a b => f a = Ok b) l bs.
Proof.
  induction l as [|a l IH]; intros H.
  - exists []. split; [reflexivity | constructor].
  - destruct (H a (or_introl eq_refl)) as (b & Hb).
    destruct IH as (bs & Hbs & Hall); [intros; apply H; now right|].
    exists (b :: bs). split.
    + simpl. rewrite Hb. simpl. rewrite Hbs. reflexivity.
    + constructor; assumption.
Qed.

Lemma mapM_Forall2 {A B} (f : A -> result B) (l : list A) (bs : list B) :
  mapM f l = Ok bs -> Forall2 (fun a b => f a = Ok b) l bs.
Proof.
  revert bs. induction l as [|a l IH]; intros bs; simpl.
  - intros [= <-]. constructor.
  - destruct (f a) as [b|e] eqn:Hb; [|discriminate]. cbn [bind].
    destruct (mapM f l) as [bs'|e]; [|discriminate]. cbn [bind].
    intros [= <-]. constructor; auto.
Qed.

Lemma mapM_Forall2_total {A B} (f : A -> result B) (P : A -> B -> Prop)
      (l : list A) :
  (forall a, In a l -> exists b, f a = Ok b /\ P a b) ->
  exists bs, mapM f l = Ok bs /\ Forall2 P l bs.
Proof.
  induction l as [|a l IH]; intros H.
  - exists []. split; [reflexivity | constructor].
  - destruct (H a (or_introl eq_refl)) as (b & Hb & HP).
    destruct IH as (bs & Hbs & Hall); [intros; apply H; now right|].
    exists (b :: bs). split.
    + simpl. rewrite Hb. simpl. rewrite Hbs. reflexivity.
    + constructor; assumption.
Qed.

Lemma mapM_Raise_first {A B} (f : A -> result B) (a : A) (l : list A) e :
  f a = Raise e -> mapM f (a :: l) = Raise e.
Proof. intros H. simpl. rewrite H. reflexivity. Qed.

(** [t_calc] has a value on every frame of four columns or more: 16 rows,
    one entry per observation. *)
Lemma t_calc_defined (u : DataFrame Q) :
  4 <= ncols u ->
  exists rows, t_calc u = Ok rows
    /\ List.length rows = 16
    /\ Forall (fun r => List.length r = nrows u) rows.
Proof.
  intros Hu. unfold t_calc.
  destruct (Nat.ltb_spec (ncols u) 4) as [Hlt|_]; [lia|].
  match goal with |- exists rows, mapM ?f ?l = _ /\ _ =>
    destruct (@mapM_total _ _ f l) as (rows & Hrows & Hall)
  end.
  - intros l Hl.
    match goal with |- exists b, mapM ?g ?vs = Ok b =>
      destruct (@mapM_total _ _ g vs) as (r & Hr & _); [|exists r; exact Hr]
    end.
    intros row _. simpl in Hl.
    repeat (destruct Hl as [<-|Hl]; [eexists; reflexivity|]). destruct Hl.
  - exists rows. split; [exact Hrows|]. split.
    + apply Forall2_length in Hall. rewrite <- Hall. reflexivity.
    + clear Hrows. induction Hall as [|l r ls rs Hlr _ IH]; constructor; auto.
      apply mapM_Forall2, Forall2_length in Hlr. symmetry. exact Hlr.
Qed.

Lemma extremal_measure_no_rows (u : DataFrame Q) (c : matrix) :
  4 <= ncols u -> is_16x16 c = true -> nrows u = 0 ->
  extremal_measure u c = Ok None.
Proof.
  intros Hu Hc Hn. destruct (@t_calc_defined u Hu) as (rows & Hrows & _).
  unfold extremal_measure. rewrite Hrows, Hc, Hn. reflexivity.
Qed.

Lemma extremal_measure_number (u : DataFrame Q) (c : matrix) :
  4 <= ncols u -> is_16x16 c = true -> 0 < nrows u ->
  exists m, extremal_measure u c = Ok (Some m).
Proof.
  intros Hu Hc Hn. destruct (@t_calc_defined u Hu) as (rows & Hrows & _).
  unfold extremal_measure. rewrite Hrows, Hc. cbn [bind negb].
  destruct (Nat.eqb_spec (nrows u) 0) as [H0|_]; [lia|].
  eexists. reflexivity.
Qed.

(** X16. [extremal_measure] raises [IndexError] on a frame of fewer than four
    columns and [ValueError] on a matrix that is not 16 x 16; on every other
    input it returns: NaN when the frame has no rows, a number when it has. *)
Theorem extremal_measure_values (u : DataFrame Q) (c : matrix) :
  (ncols u < 4 -> extremal_measure u c = Raise IndexError)
  /\ (4 <= ncols u -> is_16x16 c = false ->
      extremal_measure u c = Raise ValueError)
  /\ (4 <= ncols u -> is_16x16 c = true -> nrows u = 0 ->
      extremal_measure u c = Ok None)
  /\ (4 <= ncols u -> is_16x16 c = true -> 0 < nrows u ->
      exists m, extremal_measure u c = Ok (Some m)).
Proof.
  repeat match goal with |- _ /\ _ => split end.
  - intros Hlt. unfold extremal_measure, t_calc.
    destruct (Nat.ltb_spec (ncols u) 4) as [_|Hge]; [reflexivity | lia].
  - intros Hu Hc. destruct (@t_calc_defined u Hu) as (rows & Hrows & _).
    unfold extremal_measure. rewrite Hrows, Hc. reflexivity.
  - apply extremal_measure_no_rows.
  - apply extremal_measure_number.
Qed.

(** ** Label lookups *)

Lemma get_loc_total (labels : list string) (label : string) :
  In label labels ->
  exists i, get_loc labels label = Ok i /\ i < List.length labels.
Proof.
  induction labels as [|l rest IH]; intros Hin; [destruct Hin|].
  cbn [get_loc]. destruct (String.eqb_spec l label) as [Heq|Hne].
  - exists 0. split; [reflexivity | simpl; lia].
  - destruct IH as (i & Hi & Hlt); [destruct Hin; [contradiction | assumption]|].
    exists (S i). rewrite Hi. split; [reflexivity | simpl; lia].
Qed.

Lemma mapM_get_loc (labels sel : list string) :
  incl sel labels ->
  exists idx, mapM (get_loc labels) sel = Ok idx
    /\ List.length idx = List.length sel.
Proof.
  intros Hincl.
  destruct (@mapM_total _ _ (get_loc labels) sel) as (idx & Hidx & Hall).
  - intros a Ha. destruct (@get_loc_total labels a (Hincl a Ha)) as (i & Hi & _).
    exists i. exact Hi.
  - exists idx. split; [exact Hidx|]. symmetry. exact (Forall2_length Hall).
Qed.

Lemma select_columns_defined (frame : DataFrame Q) (sel : list string) :
  incl sel (columns frame) ->
  exists df, select_columns frame sel = Ok df
    /\ columns df = sel /\ nrows df = nrows frame.
Proof.
  intros Hincl.
  destruct (@mapM_get_loc (columns frame) sel Hincl) as (idx & Hidx & _).
  unfold select_columns. rewrite Hidx. cbn [bind].
  eexists. split; [reflexivity|]. split; [reflexivity|].
  unfold nrows. cbn [values]. apply length_map.
Qed.

Lemma loc_square_defined (frame : DataFrame Q) (sel : list string) :
  incl sel (columns frame) ->
  exists df, loc_square frame sel = Ok df
    /\ columns df = sel /\ nrows df = List.length sel.
Proof.
  intros Hincl.
  destruct (@mapM_get_loc (columns frame) sel Hincl) as (idx & Hidx & Hlen).
  unfold loc_square. rewrite Hidx. cbn [bind].
  eexists. split; [reflexivity|]. split; [reflexivity|].
  unfold nrows. cbn [values]. rewrite length_map. exact Hlen.
Qed.

Lemma loc_row_In {A} (rows : list (string * A)) (label : string) :
  In label (map fst rows) ->
  exists a, loc_row rows label = Ok a /\ In (label, a) rows.
Proof.
  induction rows as [|[l a] rest IH]; intros Hin; [destruct Hin|].
  cbn [loc_row]. destruct (String.eqb_spec l label) as [Heq|Hne].
  - subst l. exists a. split; [reflexivity | now left].
  - destruct IH as (b & Hb & Hin').
    { destruct Hin as [H|H]; [simpl in H; contradiction | exact H]. }
    exists b. split; [exact Hb | now right].
Qed.

Lemma targets_In (self : Selection) (n_targets : nat) (target : string) :
  In target (targets self n_targets) ->
  In target (map fst (top_50_correlations self)).
Proof. unfold targets. apply In_firstn. Qed.

Lemma targets_length (self : Selection) (n_targets : nat) :
  List.length (targets self n_targets)
  = Nat.min n_targets (List.length (top_50_correlations self)).
Proof. unfold targets. rewrite length_firstn, length_map. reflexivity. Qed.

(** ** Candidates of a target *)

Lemma prepare_combinations_nonempty (target : string) (partners : list string) :
  3 <= List.length partners ->
  _prepare_combinations_of_partners (target :: partners) <> [].
Proof.
  intros H Hnil. apply (f_equal (@List.length _)) in Hnil.
  rewrite prepare_combinations_length in Hnil.
  cbn [List.length] in Hnil. rewrite Nat.sub_succ, Nat.sub_0_r in Hnil.
  apply comb_zero_iff in Hnil. lia.
Qed.

Lemma prepare_combinations_empty (target : string) (partners : list string) :
  List.length partners < 3 ->
  _prepare_combinations_of_partners (target :: partners) = [].
Proof.
  intros H. apply length_zero_iff_nil.
  rewrite prepare_combinations_length.
  cbn [List.length]. rewrite Nat.sub_succ, Nat.sub_0_r.
  apply comb_zero_iff. exact H.
Qed.

Lemma prepare_combinations_in_bounds (stock_selection : list string) :
  in_bounds (List.length stock_selection)
            (_prepare_combinations_of_partners stock_selection) = true.
Proof.
  apply in_bounds_true. intros q x Hq Hx.
  destruct (@prepare_combinations_rows _ _ Hq) as (i & j & k & -> & ?).
  simpl in Hx. destruct Hx as [<-|[<-|[<-|[<-|[]]]]]; lia.
Qed.

Lemma prepare_combinations_quadruples (stock_selection : list string) q :
  In q (_prepare_combinations_of_partners stock_selection) -> List.length q = 4.
Proof.
  intros Hq. destruct (@prepare_combinations_rows _ _ Hq) as (i & j & k & -> & _).
  reflexivity.
Qed.

Lemma selection_is_target_and_partners
      (top_50 : list (string * list string)) (target : string)
      (partners cols : list string) (k : nat) :
  loc_row top_50 target = Ok partners ->
  cols = target :: partners ->
  k < List.length (_prepare_combinations_of_partners (target :: partners)) ->
  target_and_three_partners top_50 target
    (map (fun j => nth j cols "")
         (nth k (_prepare_combinations_of_partners (target :: partners)) [])).
Proof.
  intros Hrow -> Hk.
  pose proof (@nth_In _ k _ (@nil nat) Hk) as Hq.
  destruct (@prepare_combinations_rows _ _ Hq) as (i & j & l & Heq & Hi & Hij & Hjl & Hl).
  rewrite Heq. cbn [List.length] in Hl.
  destruct i as [|i]; [lia|]. destruct j as [|j]; [lia|]. destruct l as [|l]; [lia|].
  exists partners, i, j, l.
  split; [exact Hrow|]. split; [lia|]. split; [lia|]. split; [lia|].
  reflexivity.
Qed.

(** ** The scorers return a candidate *)

Lemma get_sum_correlations_vectorized_returns
      (df : DataFrame Q) (combos : list (list nat)) :
  combos <> [] ->
  in_bounds (ncols df) combos = true ->
  in_bounds (nrows df) combos = true ->
  exists k score, k < List.length combos
    /\ get_sum_correlations_vectorized df combos
       = Ok (map (fun j => nth j (columns df) "") (nth k combos []), score).
Proof.
  intros Hne Hc Hr.
  assert (Hlen : List.length (corr_sums_vectorized df combos) = List.length combos).
  { unfold corr_sums_vectorized. rewrite length_map. apply sum_axes_0_2_length. }
  destruct (@argmax_correct (corr_sums_vectorized df combos)) as (k & Hk & Hlt & _).
  { intros Hnil. rewrite Hnil in Hlen. apply Hne, length_zero_iff_nil.
    rewrite <- Hlen. reflexivity. }
  exists k, (nth k (corr_sums_vectorized df combos) 0%Q).
  split; [rewrite <- Hlen; exact Hlt|].
  unfold get_sum_correlations_vectorized.
  destruct combos as [|q0 rest]; [congruence|].
  rewrite Hc, Hr. cbn [negb]. cbv zeta. rewrite Hk. reflexivity.
Qed.

Lemma multivariate_rho_vectorized_returns
      (df : DataFrame Q) (combos : list (list nat)) :
  0 < nrows df ->
  (forall q, In q combos -> List.length q = 4) ->
  combos <> [] ->
  in_bounds (ncols df) combos = true ->
  exists k score, k < List.length combos
    /\ multivariate_rho_vectorized df combos
       = Ok (map (fun j => nth j (columns df) "") (nth k combos []), score).
Proof.
  intros Hn Hq Hne Hc.
  destruct (@multivariate_rho_scores_direct df combos Hn Hq Hne)
    as (scores & Hs & Hlen & _).
  destruct (@argmax_correct scores) as (k & Hk & Hlt & _).
  { intros Hnil. apply Hne, length_zero_iff_nil. rewrite <- Hlen, Hnil. reflexivity. }
  exists k, (nth k scores 0%Q). split; [rewrite <- Hlen; exact Hlt|].
  unfold multivariate_rho_vectorized.
  destruct combos as [|q0 rest]; [congruence|].
  rewrite Hc, Hs. cbn [negb bind]. rewrite Hk. reflexivity.
Qed.

Lemma diagonal_measure_vectorized_candidate
      (df : DataFrame R) (combos : list (list nat)) :
  combos <> [] ->
  in_bounds (ncols df) combos = true ->
  exists k score, k < List.length combos
    /\ diagonal_measure_vectorized df combos
       = Ok (map (fun j => nth j (columns df) "") (nth k combos []), score).
Proof.
  intros Hne Hc.
  destruct (@argmin_correct (distance_scores_vectorized df combos))
    as (k & Hk & Hlt & _).
  { intros Hnil. apply Hne, length_zero_iff_nil.
    rewrite <- (distance_scores_vectorized_length df combos), Hnil. reflexivity. }
  rewrite distance_scores_vectorized_length in Hlt.
  exists k, (nth k (distance_scores_vectorized df combos) 0%R).
  split; [exact Hlt|].
  apply diagonal_measure_vectorized_returns; assumption.
Qed.

Lemma ecdf_frame_defined (frame : DataFrame Q) :
  exists df, ecdf_frame frame = Ok df
    /\ columns df = columns frame /\ nrows df = nrows frame.
Proof.
  unfold ecdf_frame.
  destruct ((nrows frame =? 0) || (ncols frame =? 0)) eqn:He.
  - exists frame. auto.
  - apply orb_false_iff in He as (Hr & _). apply Nat.eqb_neq in Hr.
    destruct (@mapM_total _ _ ecdf_column
                (transpose_rows (ncols frame) (values frame)))
      as (cols & Hcols & _).
    + intros col Hcol. unfold transpose_rows in Hcol.
      apply in_map_iff in Hcol as (j & <- & _).
      unfold nrows in Hr.
      destruct (values frame) as [|row rows]; [simpl in Hr; congruence|].
      unfold ecdf_column. cbn [map].
      match goal with |- exists b, mapM ?f ?l = Ok b =>
        destruct (@mapM_total _ _ f l) as (b & Hb & _); [|exists b; exact Hb]
      end.
      intros v _. rewrite ECDF_nonempty by discriminate. eexists. reflexivity.
    + rewrite Hcols. cbn [bind]. eexists. split; [reflexivity|].
      split; [reflexivity|].
      unfold nrows at 1. cbn [values]. unfold transpose_rows.
      rewrite length_map, length_seq. reflexivity.
Qed.

(** ** The selection procedures *)

Lemma traditional_defined
        (self : Selection) (n_targets : nat) :
  NoDup (map fst (top_50_correlations self)) ->
  NoDup (columns (correlation_matrix self)) ->
  (forall target partners, In (target, partners) (top_50_correlations self) ->
     3 <= List.length partners
     /\ incl (target :: partners) (columns (correlation_matrix self))) ->
  exists output_matrix,
    traditional self n_targets = Ok output_matrix
    /\ List.length output_matrix
       = Nat.min n_targets (List.length (top_50_correlations self))
    /\ Forall2 (target_and_three_partners (top_50_correlations self))
               (targets self n_targets) output_matrix.
Proof.
  intros _ _ Htop. unfold traditional.
  match goal with |- exists o, mapM ?f ?l = Ok o /\ _ =>
    destruct (@mapM_Forall2_total _ _ f
                (target_and_three_partners (top_50_correlations self)) l)
      as (out & Hout & Hall)
  end.
  - intros target Ht. cbv beta.
    apply targets_In, loc_row_In in Ht as (partners & Hrow & Hin).
    destruct (Htop _ _ Hin) as (H3 & Hincl).
    rewrite Hrow. cbn [bind].
    change ([target] ++ partners) with (target :: partners).
    destruct (@loc_square_defined _ _ Hincl) as (df & Hdf & Hcols & Hrows).
    rewrite Hdf. cbn [bind].
    destruct (@get_sum_correlations_vectorized_returns df
                (_prepare_combinations_of_partners (target :: partners)))
      as (k & score & Hk & Hres).
    + apply prepare_combinations_nonempty, H3.
    + unfold ncols. rewrite Hcols. apply prepare_combinations_in_bounds.
    + rewrite Hrows. apply prepare_combinations_in_bounds.
    + rewrite Hres. cbn [bind fst]. eexists. split; [reflexivity|].
      apply selection_is_target_and_partners; assumption.
  - exists out. split; [exact Hout|]. split; [|exact Hall].
    rewrite <- (Forall2_length Hall). apply targets_length.
Qed.

(** X17. [traditional] on a selection whose targets have three partners or
    more, all among the labels of the correlation matrix: it returns one
    quadruple per target, for the first [n_targets] targets of the index, and
    each quadruple is the target followed by three of its partners in the order
    of its partner row. *)
Theorem traditional_returns_target_and_partners
        (self : Selection) (n_targets : nat) :
  NoDup (map fst (top_50_correlations self)) ->
  NoDup (columns (correlation_matrix self)) ->
  (forall target partners, In (target, partners) (top_50_correlations self) ->
     3 <= List.length partners
     /\ incl (target :: partners) (columns (correlation_matrix self))) ->
  exists output_matrix,
    traditional self n_targets = Ok output_matrix
    /\ List.length output_matrix
       = Nat.min n_targets (List.length (top_50_correlations self))
    /\ Forall2 (target_and_three_partners (top_50_correlations self))
               (targets self n_targets) output_matrix.
Proof. apply traditional_defined. Qed.

Lemma traditional_returns_target_and_partners_witness :
  exists output_matrix,
    traditional Examples.selection5 2 = Ok output_matrix
    /\ List.length output_matrix
       = Nat.min 2 (List.length (top_50_correlations Examples.selection5))
    /\ Forall2 (target_and_three_partners (top_50_correlations Examples.selection5))
               (targets Examples.selection5 2) output_matrix.
Proof.
  apply traditional_returns_target_and_partners.
  - repeat constructor; simpl; intuition discriminate.
  - repeat constructor; simpl; intuition discriminate.
  - intros target partners Hin. simpl in Hin.
    destruct Hin as [[= <- <-]|[[= <- <-]|[]]];
      (split; [simpl; lia | intros x Hx; simpl in Hx |- *; tauto]).
Defined.

(** X18. [extended] on a selection with at least one day of returns, whose
    targets have three partners or more, all among the columns of the returns:
    one quadruple per target, each the target followed by three of its partners
    in the order of its partner row. *)
Theorem extended_returns_target_and_partners
        (self : Selection) (n_targets : nat) :
  NoDup (map fst (top_50_correlations self)) ->
  NoDup (columns (returns self)) ->
  0 < nrows (returns self) ->
  (forall target partners, In (target, partners) (top_50_correlations self) ->
     3 <= List.length partners
     /\ incl (target :: partners) (columns (returns self))) ->
  exists output_matrix,
    extended self n_targets = Ok output_matrix
    /\ List.length output_matrix
       = Nat.min n_targets (List.length (top_50_correlations self))
    /\ Forall2 (target_and_three_partners (top_50_correlations self))
               (targets self n_targets) output_matrix.
Proof.
  intros _ _ Hn Htop. unfold extended.
  destruct (ecdf_frame_defined (returns self)) as (ecdf_df & He & Hecols & Herows).
  rewrite He. cbn [bind].
  match goal with |- exists o, mapM ?f ?l = Ok o /\ _ =>
    destruct (@mapM_Forall2_total _ _ f
                (target_and_three_partners (top_50_correlations self)) l)
      as (out & Hout & Hall)
  end.
  - intros target Ht. cbv beta.
    apply targets_In, loc_row_In in Ht as (partners & Hrow & Hin).
    destruct (Htop _ _ Hin) as (H3 & Hincl).
    rewrite Hrow. cbn [bind].
    change ([target] ++ partners) with (target :: partners).
    rewrite <- Hecols in Hincl.
    destruct (@select_columns_defined _ _ Hincl) as (df & Hdf & Hcols & Hrows).
    rewrite Hdf. cbn [bind].
    destruct (@multivariate_rho_vectorized_returns df
                (_prepare_combinations_of_partners (target :: partners)))
      as (k & score & Hk & Hres).
    + rewrite Hrows, Herows. exact Hn.
    + apply prepare_combinations_quadruples.
    + apply prepare_combinations_nonempty, H3.
    + unfold ncols. rewrite Hcols. apply prepare_combinations_in_bounds.
    + rewrite Hres. cbn [bind fst]. eexists. split; [reflexivity|].
      apply selection_is_target_and_partners; assumption.
  - exists out. split; [exact Hout|]. split; [|exact Hall].
    rewrite <- (Forall2_length Hall). apply targets_length.
Qed.

Lemma extended_returns_target_and_partners_witness :
  exists output_matrix,
    extended Examples.selection5 2 = Ok output_matrix
    /\ List.length output_matrix
       = Nat.min 2 (List.length (top_50_correlations Examples.selection5))
    /\ Forall2 (target_and_three_partners (top_50_correlations Examples.selection5))
               (targets Examples.selection5 2) output_matrix.
Proof.
  apply extended_returns_target_and_partners.
  - repeat constructor; simpl; intuition discriminate.
  - repeat constructor; simpl; intuition discriminate.
  - unfold nrows. simpl. lia.
  - intros target partners Hin. simpl in Hin.
    destruct Hin as [[= <- <-]|[[= <- <-]|[]]];
      (split; [simpl; lia | intros x Hx; simpl in Hx |- *; tauto]).
Defined.

(** X19. [geometric] on a selection whose targets have three partners or
    more, all among the columns of the ranked returns: one quadruple per
    target, each the target followed by three of its partners in the order of
    its partner row; the number of days plays no part. *)
Theorem geometric_returns_target_and_partners
        (self : Selection) (n_targets : nat) :
  NoDup (map fst (top_50_correlations self)) ->
  NoDup (columns (ranked_returns self)) ->
  (forall target partners, In (target, partners) (top_50_correlations self) ->
     3 <= List.length partners
     /\ incl (target :: partners) (columns (ranked_returns self))) ->
  exists output_matrix,
    geometric self n_targets = Ok output_matrix
    /\ List.length output_matrix
       = Nat.min n_targets (List.length (top_50_correlations self))
    /\ Forall2 (target_and_three_partners (top_50_correlations self))
               (targets self n_targets) output_matrix.
Proof.
  intros _ _ Htop. unfold geometric.
  match goal with |- exists o, mapM ?f ?l = Ok o /\ _ =>
    destruct (@mapM_Forall2_total _ _ f
                (target_and_three_partners (top_50_correlations self)) l)
      as (out & Hout & Hall)
  end.
  - intros target Ht. cbv beta.
    apply targets_In, loc_row_In in Ht as (partners & Hrow & Hin).
    destruct (Htop _ _ Hin) as (H3 & Hincl).
    rewrite Hrow. cbn [bind].
    change ([target] ++ partners) with (target :: partners).
    destruct (@select_columns_defined _ _ Hincl) as (df & Hdf & Hcols & Hrows).
    rewrite Hdf. cbn [bind].
    destruct (@diagonal_measure_vectorized_candidate (as_reals df)
                (_prepare_combinations_of_partners (target :: partners)))
      as (k & score & Hk & Hres).
    + apply prepare_combinations_nonempty, H3.
    + unfold ncols, as_reals. cbn [columns]. rewrite Hcols.
      apply prepare_combinations_in_bounds.
    + rewrite Hres. cbn [bind fst]. eexists. split; [reflexivity|].
      apply selection_is_target_and_partners; [assumption | exact Hcols | assumption].
  - exists out. split; [exact Hout|]. split; [|exact Hall].
    rewrite <- (Forall2_length Hall). apply targets_length.
Qed.

Lemma geometric_returns_target_and_partners_witness :
  exists output_matrix,
    geometric Examples.selection5 2 = Ok output_matrix
    /\ List.length output_matrix
       = Nat.min 2 (List.length (top_50_correlations Examples.selection5))
    /\ Forall2 (target_and_three_partners (top_50_correlations Examples.selection5))
               (targets Examples.selection5 2) output_matrix.
Proof.
  apply geometric_returns_target_and_partners.
  - repeat constructor; simpl; intuition discriminate.
  - repeat constructor; simpl; intuition discriminate.
  - intros target partners Hin. simpl in Hin.
    destruct Hin as [[= <- <-]|[[= <- <-]|[]]];
      (split; [simpl; lia | intros x Hx; simpl in Hx |- *; tauto]).
Defined.

Lemma first_target (self : Selection) (n_targets : nat)
      (target : string) (partners : list string)
      (rest : list (string * list string)) :
  top_50_correlations self = (target, partners) :: rest ->
  0 < n_targets ->
  targets self n_targets = target :: firstn (n_targets - 1) (map fst rest)
  /\ loc_row (top_50_correlations self) target = Ok partners.
Proof.
  intros Htop Hn. split.
  - unfold targets. rewrite Htop. destruct n_targets as [|n]; [lia|].
    cbn [map fst firstn]. rewrite Nat.sub_succ, Nat.sub_0_r. reflexivity.
  - rewrite Htop. cbn [loc_row]. rewrite String.eqb_refl. reflexivity.
Qed.

Lemma traditional_too_few_partners
      (self : Selection) (n_targets : nat)
      (target : string) (partners : list string)
      (rest : list (string * list string)) :
  top_50_correlations self = (target, partners) :: rest ->
  List.length partners < 3 ->
  0 < n_targets ->
  incl (target :: partners) (columns (correlation_matrix self)) ->
  traditional self n_targets = Raise IndexError.
Proof.
  intros Htop Hlen Hn Hcorr.
  destruct (@first_target self n_targets target partners rest Htop Hn) as (Ht & Hrow).
  unfold traditional. rewrite Ht. apply mapM_Raise_first.
  rewrite Hrow. cbn [bind].
  change ([target] ++ partners) with (target :: partners).
  destruct (@loc_square_defined _ _ Hcorr) as (df & Hdf & _).
  rewrite Hdf, (@prepare_combinations_empty target partners Hlen). reflexivity.
Qed.

Lemma extended_too_few_partners
      (self : Selection) (n_targets : nat)
      (target : string) (partners : list string)
      (rest : list (string * list string)) :
  top_50_correlations self = (target, partners) :: rest ->
  List.length partners < 3 ->
  0 < n_targets ->
  0 < nrows (returns self) ->
  incl (target :: partners) (columns (returns self)) ->
  extended self n_targets = Raise IndexError.
Proof.
  intros Htop Hlen Hn _ Hret.
  destruct (@first_target self n_targets target partners rest Htop Hn) as (Ht & Hrow).
  unfold extended.
  destruct (ecdf_frame_defined (returns self)) as (ecdf_df & He & Hecols & _).
  rewrite He. cbn [bind]. rewrite Ht. apply mapM_Raise_first.
  rewrite Hrow. cbn [bind].
  change ([target] ++ partners) with (target :: partners).
  rewrite <- Hecols in Hret.
  destruct (@select_columns_defined _ _ Hret) as (df & Hdf & _).
  rewrite Hdf, (@prepare_combinations_empty target partners Hlen). reflexivity.
Qed.

Lemma geometric_too_few_partners
      (self : Selection) (n_targets : nat)
      (target : string) (partners : list string)
      (rest : list (string * list string)) :
  top_50_correlations self = (target, partners) :: rest ->
  List.length partners < 3 ->
  0 < n_targets ->
  incl (target :: partners) (columns (ranked_returns self)) ->
  geometric self n_targets = Raise IndexError.
Proof.
  intros Htop Hlen Hn Hrank.
  destruct (@first_target self n_targets target partners rest Htop Hn) as (Ht & Hrow).
  unfold geometric. rewrite Ht. apply mapM_Raise_first.
  rewrite Hrow. cbn [bind].
  change ([target] ++ partners) with (target :: partners).
  destruct (@select_columns_defined _ _ Hrank) as (df & Hdf & _).
  rewrite Hdf, (@prepare_combinations_empty target partners Hlen). reflexivity.
Qed.

(** X20. A first target with fewer than three partners stops the three
    scoring procedures, on a selection with at least one day of returns whose
    frames hold the labels: no combination can be formed, and the scorer
    raises [IndexError] on the empty array of combinations. *)
Theorem procedures_need_three_partners
        (self : Selection) (n_targets : nat)
        (target : string) (partners : list string)
        (rest : list (string * list string)) :
  top_50_correlations self = (target, partners) :: rest ->
  List.length partners < 3 ->
  0 < n_targets ->
  0 < nrows (returns self) ->
  incl (target :: partners) (columns (correlation_matrix self)) ->
  incl (target :: partners) (columns (returns self)) ->
  incl (target :: partners) (columns (ranked_returns self)) ->
  traditional self n_targets = Raise IndexError
  /\ extended self n_targets = Raise IndexError
  /\ geometric self n_targets = Raise IndexError.
Proof.
  intros Htop Hlen Hn Hdays Hcorr Hret Hrank.
  repeat match goal with |- _ /\ _ => split end.
  - eapply traditional_too_few_partners; eassumption.
  - eapply extended_too_few_partners; eassumption.
  - eapply geometric_too_few_partners; eassumption.
Qed.

Lemma procedures_need_three_partners_witness :
  let self :=
    {| returns := Examples.returns5;
       ranked_returns := Examples.ecdf5;
       correlation_matrix := Examples.corr5;
       top_50_correlations := [("T", ["A"; "B"]); ("A", ["T"; "B"])];
       all_quadruples := [] |} in
  traditional self 5 = Raise IndexError
  /\ extended self 5 = Raise IndexError
  /\ geometric self 5 = Raise IndexError.
Proof.
  intros self.
  apply (@procedures_need_three_partners self 5 "T" ["A"; "B"] [("A", ["T"; "B"])]).
  - reflexivity.
  - simpl. lia.
  - lia.
  - unfold nrows. simpl. lia.
  - intros x Hx. simpl in Hx |- *. tauto.
  - intros x Hx. simpl in Hx |- *. tauto.
  - intros x Hx. simpl in Hx |- *. tauto.
Defined.

Lemma generate_all_quadruples_loc
      (top_50 : list (string * list string))
      (target : string) (partners : list string) :
  loc_row top_50 target = Ok partners ->
  loc_row (_generate_all_quadruples top_50) target
  = Ok (map (map (fun i => nth i (target :: partners) ""))
            (_prepare_combinations_of_partners (target :: partners))).
Proof.
  induction top_50 as [|[l a] rest IH]; intros Hrow; [discriminate|].
  unfold _generate_all_quadruples in *. cbn [map loc_row fst snd] in *.
  destruct (String.eqb_spec l target) as [Heq|Hne].
  - subst l. injection Hrow as ->.
    rewrite quadruples_of_index_combinations. reflexivity.
  - apply IH, Hrow.
Qed.

(** X21. The quadruples [_generate_all_quadruples] stores for a target, which
    [extremal] walks through, are the candidates the three other procedures
    score for it, in the same order: the index combinations of
    [_prepare_combinations_of_partners] read through the stock selection. *)
Theorem all_quadruples_same_candidates
        (top_50 : list (string * list string))
        (target : string) (partners : list string) :
  loc_row top_50 target = Ok partners ->
  loc_row (_generate_all_quadruples top_50) target
  = Ok (map (map (fun i => nth i ([target] ++ partners) ""))
            (_prepare_combinations_of_partners ([target] ++ partners))).
Proof. apply generate_all_quadruples_loc. Qed.

Lemma all_quadruples_same_candidates_witness :
  loc_row (_generate_all_quadruples Examples.top5) "A"
  = Ok (map (map (fun i => nth i (["A"] ++ ["T"; "B"; "C"; "D"]) ""))
            (_prepare_combinations_of_partners (["A"] ++ ["T"; "B"; "C"; "D"]))).
Proof.
  apply all_quadruples_same_candidates. reflexivity.
Defined.

(** ** The extremal search *)

Lemma quadruple_measure_defined (frame : DataFrame Q) (c : matrix)
      (q : list string) :
  is_16x16 c = true -> 0 < nrows frame ->
  4 <= List.length q -> incl q (columns frame) ->
  exists u m, select_columns frame q = Ok u
    /\ extremal_measure u c = Ok (Some m).
Proof.
  intros Hc Hn H4 Hincl.
  destruct (@select_columns_defined _ _ Hincl) as (u & Hu & Hcols & Hrows).
  destruct (@extremal_measure_number u c) as (m & Hm).
  - unfold ncols. rewrite Hcols. exact H4.
  - exact Hc.
  - rewrite Hrows. exact Hn.
  - exists u, m. split; assumption.
Qed.

Lemma quadruple_measure_function (frame : DataFrame Q) (c : matrix)
      (qs : list (list string)) :
  is_16x16 c = true -> 0 < nrows frame ->
  (forall q, In q qs -> 4 <= List.length q /\ incl q (columns frame)) ->
  exists measure : list string -> Q,
    forall q, In q qs ->
      exists u, select_columns frame q = Ok u
        /\ extremal_measure u c = Ok (Some (measure q)).
Proof.
  intros Hc Hn Hqs.
  exists (fun q => match select_columns frame q with
                   | Ok u => match extremal_measure u c with
                             | Ok (Some m) => m
                             | _ => 0%Q
                             end
                   | Raise _ => 0%Q
                   end).
  intros q Hq. destruct (Hqs q Hq) as (H4 & Hincl).
  destruct (@quadruple_measure_defined frame c q Hc Hn H4 Hincl) as (u & m & Hu & Hm).
  exists u. rewrite Hu, Hm. split; reflexivity.
Qed.

Lemma extremal_search_invariant
      (self : Selection) (c : matrix) (measure : list string -> Q) :
  forall (qs pre : list (list string))
         (max_measure : option Q) (final_quadruple : option (list string)),
  (forall q, In q qs ->
     exists u, select_columns (ranked_returns self) q = Ok u
       /\ extremal_measure u c = Ok (Some (measure q))) ->
  match final_quadruple with
  | None => pre = [] /\ max_measure = None
  | Some qb =>
      max_measure = Some (measure qb)
      /\ exists a b, pre = a ++ qb :: b
           /\ (forall q', In q' a -> (measure q' < measure qb)%Q)
           /\ (forall q', In q' b -> (measure q' <= measure qb)%Q)
  end ->
  exists r, extremal_search self c qs max_measure final_quadruple = Ok r
    /\ match r with
       | None => pre ++ qs = []
       | Some q =>
           exists a b, pre ++ qs = a ++ q :: b
             /\ (forall q', In q' a -> (measure q' < measure q)%Q)
             /\ (forall q', In q' b -> (measure q' <= measure q)%Q)
       end.
Proof.
  induction qs as [|q rest IH]; intros pre mm fq Hm Hst.
  - exists fq. split; [reflexivity|]. rewrite app_nil_r.
    destruct fq as [qb|]; [apply Hst | apply Hst].
  - destruct (Hm q (or_introl eq_refl)) as (u & Hu & Hmu).
    cbn [extremal_search]. rewrite Hu. cbn [bind]. rewrite Hmu. cbn [bind].
    assert (Hrest : forall q', In q' rest ->
              exists u', select_columns (ranked_returns self) q' = Ok u'
                /\ extremal_measure u' c = Ok (Some (measure q')))
      by (intros q' Hq'; apply Hm; now right).
    replace (pre ++ q :: rest) with ((pre ++ [q]) ++ rest)
      by (rewrite <- app_assoc; reflexivity).
    destruct fq as [qb|].
    + destruct Hst as (-> & a & b & -> & Ha & Hb). cbn [exceeds].
      destruct (Qltb (measure qb) (measure q)) eqn:Hcmp.
      * apply Qltb_lt in Hcmp. apply IH; [exact Hrest|].
        split; [reflexivity|]. exists (a ++ qb :: b), []. split.
        -- reflexivity.
        -- split; [|intros q' []].
           intros q' Hq'. apply in_app_or in Hq' as [Hq'|[<-|Hq']].
           ++ eapply Qlt_trans; [apply Ha, Hq' | exact Hcmp].
           ++ exact Hcmp.
           ++ eapply Qle_lt_trans; [apply Hb, Hq' | exact Hcmp].
      * apply Qltb_ge in Hcmp. apply IH; [exact Hrest|].
        split; [reflexivity|]. exists a, (b ++ [q]). split.
        -- rewrite <- app_assoc. reflexivity.
        -- split; [exact Ha|].
           intros q' Hq'. apply in_app_or in Hq' as [Hq'|[<-|[]]].
           ++ apply Hb, Hq'.
           ++ exact Hcmp.
    + destruct Hst as (-> & ->). cbn [exceeds].
      apply IH; [exact Hrest|].
      split; [reflexivity|]. exists [], []. split; [reflexivity|].
      split; intros q' [].
Qed.

(** X22. The inner loop of [extremal], on a target whose quadruples all have
    a measure that is a number: it returns the first quadruple, in the order of
    the list, whose measure is the largest; every quadruple before it has a
    strictly smaller measure, none after it has a larger one. *)
Theorem extremal_search_first_maximum
        (self : Selection) (c : matrix) (measure : list string -> Q)
        (q0 : list string) (rest : list (list string)) :
  (forall q, In q (q0 :: rest) ->
     exists u, select_columns (ranked_returns self) q = Ok u
       /\ extremal_measure u c = Ok (Some (measure q))) ->
  exists a q b,
    q0 :: rest = a ++ q :: b
    /\ extremal_search self c (q0 :: rest) None None = Ok (Some q)
    /\ (forall q', In q' a -> (measure q' < measure q)%Q)
    /\ (forall q', In q' b -> (measure q' <= measure q)%Q).
Proof.
  intros Hm.
  destruct (@extremal_search_invariant self c measure (q0 :: rest) [] None None Hm)
    as (r & Hr & Hpost); [split; reflexivity|].
  destruct r as [q|]; [|discriminate Hpost].
  destruct Hpost as (a & b & Heq & Ha & Hb).
  exists a, q, b. auto.
Qed.

Lemma extremal_search_first_maximum_witness :
  exists a q b,
    [["T"; "A"; "B"; "C"]; ["T"; "A"; "B"; "D"];
     ["T"; "A"; "C"; "D"]; ["T"; "B"; "C"; "D"]] = a ++ q :: b
    /\ extremal_search Examples.selection5 (Examples.identity 16)
         [["T"; "A"; "B"; "C"]; ["T"; "A"; "B"; "D"];
          ["T"; "A"; "C"; "D"]; ["T"; "B"; "C"; "D"]] None None = Ok (Some q)
    /\ (forall q', In q' a -> (Examples.measure5 q' < Examples.measure5 q)%Q)
    /\ (forall q', In q' b -> (Examples.measure5 q' <= Examples.measure5 q)%Q).
Proof.
  apply (@extremal_search_first_maximum Examples.selection5 (Examples.identity 16)
           Examples.measure5).
  intros q Hq.
  destruct (@quadruple_measure_defined Examples.ecdf5 (Examples.identity 16) q)
    as (u & m & Hu & Hm).
  - reflexivity.
  - unfold nrows. simpl. lia.
  - simpl in Hq. destruct Hq as [<-|[<-|[<-|[<-|[]]]]]; simpl; lia.
  - simpl in Hq.
    destruct Hq as [<-|[<-|[<-|[<-|[]]]]]; intros x Hx; simpl in Hx |- *; tauto.
  - exists u. unfold Examples.measure5.
    change (ranked_returns Examples.selection5) with Examples.ecdf5.
    rewrite Hu, Hm. split; reflexivity.
Defined.

(** X23. Without a day of ranked returns every measure is NaN, which is
    larger than nothing: the inner loop of [extremal] leaves [None] for the
    target, whatever its quadruples, and raises nothing. *)
Theorem extremal_search_no_rows
        (self : Selection) (c : matrix) (quadruples : list (list string)) :
  nrows (ranked_returns self) = 0 ->
  is_16x16 c = true ->
  (forall q, In q quadruples ->
     4 <= List.length q /\ incl q (columns (ranked_returns self))) ->
  extremal_search self c quadruples None None = Ok None.
Proof.
  intros Hn Hc. induction quadruples as [|q rest IH]; intros Hq; [reflexivity|].
  destruct (Hq q (or_introl eq_refl)) as (H4 & Hincl).
  destruct (@select_columns_defined _ _ Hincl) as (u & Hu & Hcols & Hrows).
  cbn [extremal_search]. rewrite Hu. cbn [bind].
  rewrite (@extremal_measure_no_rows u c);
    [| unfold ncols; rewrite Hcols; exact H4 | exact Hc
     | rewrite Hrows; exact Hn].
  cbn [bind exceeds]. apply IH. intros q' Hq'. apply Hq. now right.
Qed.

Lemma extremal_search_no_rows_witness :
  extremal_search Examples.selection5_no_rows (Examples.identity 16)
    [["T"; "A"; "B"; "C"]; ["T"; "A"; "B"; "D"]] None None = Ok None.
Proof.
  apply extremal_search_no_rows.
  - reflexivity.
  - reflexivity.
  - intros q Hq. simpl in Hq.
    destruct Hq as [<-|[<-|[]]];
      (split; [simpl; lia | intros x Hx; simpl in Hx |- *; tauto]).
Defined.

(** X24. [extremal] on a selection with at least one day of ranked returns,
    whose quadruples are those of its partner rows and whose labels are all
    columns of the ranked returns, once the covariance matrix has come back
    16 x 16: it returns one entry per target, [None] for a target with fewer
    than three partners and otherwise the target followed by three of its
    partners in the order of its partner row. *)
Theorem extremal_returns_target_and_partners
        (nquad : (Q -> Q -> Q -> Q -> result Q) -> Q)
        (inv : matrix -> result matrix)
        (self : Selection) (n_targets : nat) (c : matrix) :
  get_co_variance_matrix nquad inv = Ok c ->
  is_16x16 c = true ->
  NoDup (map fst (top_50_correlations self)) ->
  NoDup (columns (ranked_returns self)) ->
  0 < nrows (ranked_returns self) ->
  all_quadruples self = _generate_all_quadruples (top_50_correlations self) ->
  (forall target partners, In (target, partners) (top_50_correlations self) ->
     incl (target :: partners) (columns (ranked_returns self))) ->
  exists output_matrix,
    extremal nquad inv self n_targets = Ok output_matrix
    /\ List.length output_matrix
       = Nat.min n_targets (List.length (top_50_correlations self))
    /\ Forall2
         (fun target entry =>
            match entry with
            | Some quadruple =>
                target_and_three_partners (top_50_correlations self)
                                          target quadruple
            | None =>
                exists partners,
                  loc_row (top_50_correlations self) target = Ok partners
                  /\ List.length partners < 3
            end)
         (targets self n_targets) output_matrix.
Proof.
  intros Hc H16 _ _ Hn Hquads Htop. unfold extremal. rewrite Hc. cbn [bind].
  match goal with |- exists o, mapM ?f ?l = Ok o /\ _ /\ Forall2 ?P _ _ =>
    destruct (@mapM_Forall2_total _ _ f P l) as (out & Hout & Hall)
  end.
  - intros target Ht. cbv beta.
    apply targets_In, loc_row_In in Ht as (partners & Hrow & Hin).
    rewrite Hquads, (@generate_all_quadruples_loc _ _ _ Hrow). cbn [bind].
    destruct (le_lt_dec 3 (List.length partners)) as [H3|H3].
    + match goal with |- exists b, extremal_search _ _ ?qs _ _ = _ /\ _ =>
        destruct (@quadruple_measure_function (ranked_returns self) c qs H16 Hn)
          as (measure & Hmeasure)
      end.
      { intros q Hq. apply in_map_iff in Hq as (cq & <- & Hcq). split.
        - rewrite length_map, (@prepare_combinations_quadruples _ _ Hcq). lia.
        - intros x Hx. apply in_map_iff in Hx as (j & <- & Hj).
          apply (Htop _ _ Hin), nth_In.
          pose proof (prepare_combinations_in_bounds (target :: partners)) as Hb.
          rewrite in_bounds_true in Hb. exact (Hb _ _ Hcq Hj). }
      destruct (@extremal_search_invariant self c measure _ [] None None Hmeasure)
        as (r & Hr & Hpost); [split; reflexivity|].
      cbn [app] in Hpost. exists r. split; [exact Hr|].
      destruct r as [q|].
      * destruct Hpost as (a & b & Heq & _).
        assert (Hq : In q (map (map (fun i => nth i (target :: partners) ""))
                              (_prepare_combinations_of_partners (target :: partners))))
          by (rewrite Heq; apply in_or_app; right; now left).
        apply in_map_iff in Hq as (cq & <- & Hcq).
        destruct (In_nth _ _ [] Hcq) as (k & Hk & <-).
        apply selection_is_target_and_partners; [exact Hrow | reflexivity | exact Hk].
      * exfalso. apply map_eq_nil in Hpost.
        exact (@prepare_combinations_nonempty target partners H3 Hpost).
    + rewrite (@prepare_combinations_empty target partners H3). cbn [map extremal_search].
      exists None. split; [reflexivity|]. exists partners. split; assumption.
  - exists out. split; [exact Hout|]. split; [|exact Hall].
    rewrite <- (Forall2_length Hall). apply targets_length.
Qed.

Lemma extremal_returns_target_and_partners_witness :
  exists output_matrix,
    extremal Examples.nquad_boole Examples.inv_gauss_jordan Examples.selection5 2
    = Ok output_matrix
    /\ List.length output_matrix
       = Nat.min 2 (List.length (top_50_correlations Examples.selection5))
    /\ Forall2
         (fun target entry =>
            match entry with
            | Some quadruple =>
                target_and_three_partners (top_50_correlations Examples.selection5)
                                          target quadruple
            | None =>
                exists partners,
                  loc_row (top_50_correlations Examples.selection5) target
                  = Ok partners
                  /\ List.length partners < 3
            end)
         (targets Examples.selection5 2) output_matrix.
Proof.
  assert (H : match get_co_variance_matrix Examples.nquad_boole
                      Examples.inv_gauss_jordan with
              | Ok c => is_16x16 c
              | Raise _ => false
              end = true) by (vm_cast_no_check (@eq_refl bool true)).
  destruct (get_co_variance_matrix Examples.nquad_boole Examples.inv_gauss_jordan)
    as [c|e] eqn:Hc; [|discriminate H].
  apply (@extremal_returns_target_and_partners
           Examples.nquad_boole Examples.inv_gauss_jordan Examples.selection5 2 c Hc H).
  - repeat constructor; simpl; intuition discriminate.
  - repeat constructor; simpl; intuition discriminate.
  - unfold nrows. simpl. lia.
  - reflexivity.
  - intros target partners Hin. simpl in Hin.
    destruct Hin as [[= <- <-]|[[= <- <-]|[]]];
      intros x Hx; simpl in Hx |- *; tauto.
Defined.

(** ** From the correlation matrix to the selection *)

Lemma top_50_tickers_index (sort_values : Series -> Series) (corr : DataFrame Q) :
  map fst (_top_50_tickers sort_values corr) = columns corr.
Proof.
  unfold _top_50_tickers, ncols. rewrite map_map. cbn [fst]. apply map_nth_seq0.
Qed.

Lemma top_50_tickers_row (sort_values : Series -> Series) (corr : DataFrame Q)
      (target : string) (partners : list string) :
  sorts_descending sort_values ->
  nrows corr = ncols corr ->
  In (target, partners) (_top_50_tickers sort_values corr) ->
  List.length partners = Nat.min 50 (ncols corr - 1)
  /\ incl (target :: partners) (columns corr).
Proof.
  intros Hsort Hsq Hin. unfold _top_50_tickers in Hin.
  apply in_map_iff in Hin as (j & [= <- <-] & Hj). apply in_seq in Hj.
  split.
  - unfold tickers_list. rewrite length_map, length_firstn, length_skipn.
    rewrite (Permutation_length (sorted_perm Hsort corr j)), (col_length corr Hsq j).
    reflexivity.
  - intros x [<-|Hx].
    + apply nth_In. unfold ncols in Hj. lia.
    + unfold tickers_list in Hx. apply in_map_iff in Hx as ((b, v) & <- & Hbv).
      apply In_firstn, In_skipn in Hbv.
      apply (Permutation_in _ (sorted_perm Hsort corr j)) in Hbv.
      rewrite <- (col_labels corr Hsq j). apply in_map_iff.
      exists (b, v). split; [reflexivity | exact Hbv].
Qed.

(** X25. [traditional] on the partner rows that [_top_50_tickers] builds from
    the correlation matrix of the selection: with four stocks or more it
    returns, for each of the first [n_targets] stocks, the stock followed by
    three of its partners; with one to three stocks no stock has three
    partners and it raises [IndexError]. *)
Theorem traditional_needs_four_stocks
        (sort_values : Series -> Series) (self : Selection) (n_targets : nat) :
  sorts_descending sort_values ->
  nrows (correlation_matrix self) = ncols (correlation_matrix self) ->
  NoDup (columns (correlation_matrix self)) ->
  top_50_correlations self
  = _top_50_tickers sort_values (correlation_matrix self) ->
  (4 <= ncols (correlation_matrix self) ->
   exists output_matrix,
     traditional self n_targets = Ok output_matrix
     /\ List.length output_matrix
        = Nat.min n_targets (ncols (correlation_matrix self))
     /\ Forall2 (target_and_three_partners (top_50_correlations self))
                (targets self n_targets) output_matrix)
  /\ (0 < ncols (correlation_matrix self) < 4 -> 0 < n_targets ->
      traditional self n_targets = Raise IndexError).
Proof.
  intros Hsort Hsq Hnd Htop. split.
  - intros H4.
    destruct (@traditional_defined self n_targets) as (out & Hout & Hlen & Hall).
    + rewrite Htop, top_50_tickers_index. exact Hnd.
    + exact Hnd.
    + intros target partners Hin. rewrite Htop in Hin.
      destruct (@top_50_tickers_row _ _ _ _ Hsort Hsq Hin) as (Hl & Hincl).
      split; [lia | exact Hincl].
    + exists out. split; [exact Hout|]. split; [|exact Hall].
      rewrite Hlen. f_equal.
      rewrite <- (length_map fst), Htop, top_50_tickers_index. reflexivity.
  - intros Hn Hpos.
    assert (Hrows : exists row rest,
               _top_50_tickers sort_values (correlation_matrix self) = row :: rest).
    { unfold _top_50_tickers.
      destruct (ncols (correlation_matrix self)) as [|m]; [lia|].
      cbn [seq map]. eexists. eexists. reflexivity. }
    destruct Hrows as ([target partners] & rest & Hrows).
    assert (Hin : In (target, partners)
                     (_top_50_tickers sort_values (correlation_matrix self)))
      by (rewrite Hrows; now left).
    destruct (@top_50_tickers_row _ _ _ _ Hsort Hsq Hin) as (Hl & Hincl).
    apply (@traditional_too_few_partners self n_targets target partners rest).
    + rewrite Htop. exact Hrows.
    + lia.
    + exact Hpos.
    + exact Hincl.
Qed.

Lemma traditional_needs_four_stocks_witness :
  let self :=
    {| returns := Examples.returns5;
       ranked_returns := Examples.ecdf5;
       correlation_matrix := Examples.corr5;
       top_50_correlations :=
         _top_50_tickers Examples.stable_sort_desc Examples.corr5;
       all_quadruples := [] |} in
  (4 <= ncols (correlation_matrix self) ->
   exists output_matrix,
     traditional self 5 = Ok output_matrix
     /\ List.length output_matrix
        = Nat.min 5 (ncols (correlation_matrix self))
     /\ Forall2 (target_and_three_partners (top_50_correlations self))
                (targets self 5) output_matrix)
  /\ (0 < ncols (correlation_matrix self) < 4 -> 0 < 5 ->
      traditional self 5 = Raise IndexError).
Proof.
  intros self.
  apply (@traditional_needs_four_stocks Examples.stable_sort_desc self 5).
  - exact stable_sort_desc_sorts.
  - reflexivity.
  - repeat constructor; simpl; intuition discriminate.
  - reflexivity.
Defined.

(** ** The table of the extremal measure *)

(** X26. [t_calc] raises [IndexError] on a frame of fewer than four columns;
    on every other frame it returns an array of 16 rows, one per flag tuple,
    each with one entry per observation, and never meets a flag that [func]
    does not know. *)
Theorem t_calc_shape (u : DataFrame Q) :
  (ncols u < 4 -> t_calc u = Raise IndexError)
  /\ (4 <= ncols u ->
      exists rows, t_calc u = Ok rows
        /\ List.length rows = 16
        /\ Forall (fun r => List.length r = nrows u) rows).
Proof.
  split.
  - intros Hlt. unfold t_calc.
    destruct (Nat.ltb_spec (ncols u) 4) as [_|Hge]; [reflexivity | lia].
  - apply t_calc_defined.
Qed.

Lemma Qsum_perm (l l' : list Q) : Permutation l l' -> (Qsum l == Qsum l')%Q.
Proof.
  induction 1 as [|x l l' _ IH|x y l|l l' l'' _ IH1 _ IH2]; simpl.
  - reflexivity.
  - rewrite IH. reflexivity.
  - ring.
  - rewrite IH1. exact IH2.
Qed.

Lemma dot_compat (a a' b b' : list Q) :
  Forall2 Qeq a a' -> Forall2 Qeq b b' ->
  (Qsum (map (fun xy => fst xy * snd xy) (combine a b))
   == Qsum (map (fun xy => fst xy * snd xy) (combine a' b')))%Q.
Proof.
  intros Ha. revert b b'.
  induction Ha as [|x x' a a' Hx _ IH]; intros b b' Hb; [reflexivity|].
  destruct Hb as [|y y' b b' Hy Hb]; [reflexivity|].
  simpl. rewrite Hx, Hy, (IH _ _ Hb). reflexivity.
Qed.

Lemma Forall2_Qeq_refl (l : list Q) : Forall2 Qeq l l.
Proof. induction l; constructor; [reflexivity | assumption]. Qed.

(** The table of [t_calc] on two frames with the same observations in another
    order: row by row, the same sum. *)
Lemma t_calc_sums_perm (u u' : DataFrame Q) :
  4 <= ncols u -> 4 <= ncols u' ->
  Permutation (values u) (values u') ->
  exists rows rows',
    t_calc u = Ok rows /\ t_calc u' = Ok rows'
    /\ Forall2 (fun r r' => (Qsum r == Qsum r')%Q) rows rows'.
Proof.
  intros Hu Hu' Hperm.
  pose (g := fun (l : flags) (row : list Q) =>
               match
                 py_mul (py_mul (py_mul
                   match func (nth 0 row 0%Q) (flag0 l) with
                   | Some x => Ok x
                   | None => Raise TypeError
                   end
                   (func (nth 1 row 0%Q) (flag1 l)))
                   (func (nth 2 row 0%Q) (flag2 l)))
                   (func (nth 3 row 0%Q) (flag3 l))
               with
               | Ok v => v
               | Raise _ => 0%Q
               end).
  assert (Hexplicit : forall w : DataFrame Q, 4 <= ncols w ->
            t_calc w = Ok (map (fun l => map (g l) (values w)) product_1_2)).
  { intros w Hw. unfold t_calc.
    destruct (Nat.ltb_spec (ncols w) 4) as [Hlt|_]; [lia|].
    apply mapM_Ok_Forall2. intros l Hl.
    apply mapM_Ok_Forall2. intros row _.
    simpl in Hl.
    repeat (destruct Hl as [<-|Hl]; [reflexivity|]). destruct Hl. }
  exists (map (fun l => map (g l) (values u)) product_1_2),
         (map (fun l => map (g l) (values u')) product_1_2).
  split; [apply Hexplicit, Hu|]. split; [apply Hexplicit, Hu'|].
  generalize product_1_2. intros ls.
  induction ls as [|l ls IH]; simpl; constructor; [|exact IH].
  apply Qsum_perm, Permutation_map, Hperm.
Qed.

(** X27. The extremal measure does not depend on the order of the
    observations: two frames with the same columns whose rows are a
    rearrangement of each other get the same measure, or the same error. *)
Theorem extremal_measure_order_independent
        (u u' : DataFrame Q) (c : matrix) :
  columns u = columns u' ->
  Permutation (values u) (values u') ->
  match extremal_measure u c, extremal_measure u' c with
  | Ok (Some m), Ok (Some m') => (m == m')%Q
  | Ok None, Ok None => True
  | Raise e, Raise e' => e = e'
  | _, _ => False
  end.
Proof.
  intros Hcols Hperm.
  assert (Hn : nrows u' = nrows u)
    by (unfold nrows; symmetry; apply Permutation_length, Hperm).
  assert (Hc : ncols u' = ncols u) by (unfold ncols; rewrite Hcols; reflexivity).
  destruct (le_lt_dec 4 (ncols u)) as [H4|H4].
  - destruct (@t_calc_sums_perm u u' H4) as (rows & rows' & Hr & Hr' & Hsums);
      [rewrite Hc; exact H4 | exact Hperm |].
    unfold extremal_measure. rewrite Hr, Hr', Hn. cbn [bind].
    destruct (is_16x16 c); cbn [negb]; [|reflexivity].
    destruct (nrows u =? 0); [exact I|].
    apply Qmult_comp; [reflexivity|].
    assert (Ht : Forall2 Qeq
              (map (fun r => (Qsum r / inject_Z (Z.of_nat (nrows u)))%Q) rows)
              (map (fun r => (Qsum r / inject_Z (Z.of_nat (nrows u)))%Q) rows')).
    { clear Hr Hr'. induction Hsums as [|r r' rs rs' Hrr _ IH]; simpl; constructor.
      - rewrite Hrr. reflexivity.
      - exact IH. }
    apply dot_compat; [exact Ht|].
    generalize c. intros rowsc.
    induction rowsc as [|c_row rowsc IH]; simpl; constructor; [|exact IH].
    apply dot_compat; [apply Forall2_Qeq_refl | exact Ht].
  - unfold extremal_measure, t_calc. rewrite Hc.
    destruct (Nat.ltb_spec (ncols u) 4) as [_|Hge]; [reflexivity | lia].
Qed.

Lemma extremal_measure_order_independent_witness :
  match
    extremal_measure Examples.ecdf5 (Examples.identity 16),
    extremal_measure
      {| columns := columns Examples.ecdf5;
         values := [[2#3; 1#3; 2#3; 1#3;   1];
                    [1#3; 2#3; 1#3;   1; 2#3];
                    [  1;   1;   1; 2#3; 1#3]]%Q |}
      (Examples.identity 16)
  with
  | Ok (Some m), Ok (Some m') => (m == m')%Q
  | Ok None, Ok None => True
  | Raise e, Raise e' => e = e'
  | _, _ => False
  end.
Proof.
  apply extremal_measure_order_independent.
  - reflexivity.
  - apply perm_swap.
Defined.

(** ** The empirical distribution values of [extended] *)

Lemma filter_length_pos {A} (f : A -> bool) (l : list A) (v : A) :
  In v l -> f v = true -> 1 <= List.length (filter f l).
Proof.
  intros Hin Hf.
  assert (Hv : In v (filter f l)) by (apply filter_In; split; assumption).
  destruct (filter f l); [destruct Hv | simpl; lia].
Qed.

(** X28. The frame [ecdf_df] that [extended] scores: on returns with at least
    one day and one stock it has the columns and the number of rows of the
    returns, and every entry lies between [1/n] and 1, [n] the number of
    days. *)
Theorem ecdf_frame_unit_interval (frame : DataFrame Q) :
  0 < nrows frame ->
  0 < ncols frame ->
  exists ecdf_df,
    ecdf_frame frame = Ok ecdf_df
    /\ columns ecdf_df = columns frame
    /\ nrows ecdf_df = nrows frame
    /\ (forall row x, In row (values ecdf_df) -> In x row ->
          (1 / inject_Z (Z.of_nat (nrows frame)) <= x /\ x <= 1)%Q).
Proof.
  intros Hn Hm. unfold ecdf_frame.
  destruct (Nat.eqb_spec (nrows frame) 0) as [H0|_]; [lia|].
  destruct (Nat.eqb_spec (ncols frame) 0) as [H0|_]; [lia|].
  cbn [orb].
  set (n := nrows frame) in *.
  pose (g := fun col : list Q =>
               map (fun v => (inject_Z (Z.of_nat (List.length
                                (filter (fun xi => Qle_bool xi v) col)))
                              / inject_Z (Z.of_nat (List.length col)))%Q) col).
  assert (Hlen : forall col,
            In col (transpose_rows (ncols frame) (values frame)) ->
            List.length col = n).
  { intros col Hcol. unfold transpose_rows in Hcol.
    apply in_map_iff in Hcol as (j & <- & _). apply length_map. }
  rewrite (@mapM_Ok_Forall2 _ _ ecdf_column _ g).
  2:{ intros col Hcol. pose proof (Hlen col Hcol) as Hl.
      unfold ecdf_column. destruct col as [|v0 col]; [simpl in Hl; lia|].
      apply mapM_Ok_Forall2. intros v _. apply ECDF_nonempty. discriminate. }
  cbn [bind]. eexists. split; [reflexivity|]. split; [reflexivity|]. split.
  - unfold nrows at 1. cbn [values]. unfold transpose_rows.
    rewrite length_map, length_seq. reflexivity.
  - intros row x Hrow Hx. cbn [values] in Hrow. unfold transpose_rows at 1 in Hrow.
    apply in_map_iff in Hrow as (i & <- & Hi). apply in_seq in Hi.
    apply in_map_iff in Hx as (out & <- & Hout).
    apply in_map_iff in Hout as (col & <- & Hcol).
    pose proof (Hlen col Hcol) as Hl.
    unfold g. rewrite (nth_map_lt _ col 0%Q 0%Q) by lia.
    rewrite Hl.
    set (v := nth i col 0%Q).
    assert (Hv : In v col) by (apply nth_In; lia).
    assert (H1 : 1 <= List.length (filter (fun xi => Qle_bool xi v) col)).
    { apply (@filter_length_pos _ _ col v Hv). apply Qle_bool_iff, Qle_refl. }
    assert (H2 : List.length (filter (fun xi => Qle_bool xi v) col) <= n)
      by (rewrite <- Hl; apply filter_length_le).
    split.
    + change 1%Q with (inject_Z (Z.of_nat 1)). apply Qdiv_nat_le; lia.
    + setoid_replace 1%Q with (inject_Z (Z.of_nat n) / inject_Z (Z.of_nat n))%Q.
      * apply Qdiv_nat_le; lia.
      * symmetry. apply Qmult_inv_r.
        change 0%Q with (inject_Z 0). rewrite inject_Z_injective. lia.
Qed.

Lemma ecdf_frame_unit_interval_witness :
  exists ecdf_df,
    ecdf_frame Examples.returns5 = Ok ecdf_df
    /\ columns ecdf_df = columns Examples.returns5
    /\ nrows ecdf_df = nrows Examples.returns5
    /\ (forall row x, In row (values ecdf_df) -> In x row ->
          (1 / inject_Z (Z.of_nat (nrows Examples.returns5)) <= x /\ x <= 1)%Q).
Proof.
  apply ecdf_frame_unit_interval.
  - unfold nrows. simpl. lia.
  - unfold ncols. simpl. lia.
Defined.
